(** * Offline-first task manager: the sync engine

    A shallow embedding of [SyncService] (sync queue draining, batch
    reconciliation, last-write-wins conflict resolution, retry accounting)
    and of the two [TaskService] methods it calls ([getTask],
    [updateLocalOnly]), together with the properties the design document
    states about them.

    Conventions of the embedding:
    - the SQLite tables [tasks], [sync_queue] and [meta] are lists of rows;
      an [UPDATE ... WHERE] is a [map], a [DELETE ... WHERE] a [filter];
    - [new Date()], [uuidv4()] and the two axios calls are oracles indexed by
      counters kept in the state, so that every read is explicit;
    - exceptions are an error result threaded through a small state monad;
    - JavaScript objects that are serialised are values of a JSON fragment.

    [TaskRepository] and [Routes] add the mutations and listings of
    [TaskService] and the handlers of three routes. *)

From Stdlib Require Import List String Ascii ZArith Lia Bool Permutation Sorted Arith.
Import ListNotations.

Set Warnings "-register-all".

Local Open Scope string_scope.
Local Open Scope Z_scope.
Local Open Scope list_scope.

(* ================================================================== *)
(** ** JSON: the fragment task snapshots live in *)
(* ================================================================== *)

Module Json.

(** Values: [null], booleans, strings and objects, which is what a task
    snapshot is made of.  An object is the list of its own enumerable
    string-keyed properties in enumeration order.  Strings are sequences of
    8-bit code units.  Numbers and arrays are outside this fragment. *)
Inductive JValue : Type :=
| JNull
| JBool (b : bool)
| JStr (s : string)
| JObj (fields : list (string * JValue)).

Definition chars := list ascii.

Definition dquote : ascii := "034"%char.
Definition bslash : ascii := "092"%char.

Definition hex_digit (n : N) : ascii :=
  if (n <? 10)%N then ascii_of_N (48 + n) else ascii_of_N (87 + n).

Definition hex_value (c : ascii) : option N :=
  let n := N_of_ascii c in
  if ((48 <=? n) && (n <=? 57))%N then Some (n - 48)%N
  else if ((97 <=? n) && (n <=? 102))%N then Some (n - 87)%N
  else if ((65 <=? n) && (n <=? 70))%N then Some (n - 55)%N
  else None.

(** [QuoteJSONString], one code unit at a time. *)
Definition escape_char (c : ascii) : chars :=
  if Ascii.eqb c dquote then [bslash; dquote]
  else if Ascii.eqb c bslash then [bslash; bslash]
  else if Ascii.eqb c "008"%char then [bslash; "b"%char]
  else if Ascii.eqb c "012"%char then [bslash; "f"%char]
  else if Ascii.eqb c "010"%char then [bslash; "n"%char]
  else if Ascii.eqb c "013"%char then [bslash; "r"%char]
  else if Ascii.eqb c "009"%char then [bslash; "t"%char]
  else if (N_of_ascii c <? 32)%N then
    [bslash; "u"%char; "0"%char; "0"%char;
     hex_digit (N_of_ascii c / 16); hex_digit (N_of_ascii c mod 16)]
  else [c].

Fixpoint escape (s : chars) : chars :=
  match s with
  | [] => []
  | c :: s' => escape_char c ++ escape s'
  end.

Definition quote (s : string) : chars :=
  dquote :: escape (list_ascii_of_string s) ++ [dquote].

(** [JSON.stringify] without indentation. *)
Fixpoint print (v : JValue) : chars :=
  match v with
  | JNull => list_ascii_of_string "null"
  | JBool true => list_ascii_of_string "true"
  | JBool false => list_ascii_of_string "false"
  | JStr s => quote s
  | JObj fields =>
      let fix members (l : list (string * JValue)) : chars :=
        match l with
        | [] => []
        | kv :: l' =>
            quote (fst kv) ++ ":"%char :: print (snd kv) ++
            match l' with
            | [] => []
            | _ :: _ => ","%char :: members l'
            end
        end in
      "{"%char :: members fields ++ ["}"%char]
  end.

(** The members of an object, comma separated. *)
Fixpoint print_members (l : list (string * JValue)) : chars :=
  match l with
  | [] => []
  | kv :: l' =>
      quote (fst kv) ++ ":"%char :: print (snd kv) ++
      match l' with
      | [] => []
      | _ :: _ => ","%char :: print_members l'
      end
  end.

Definition stringify (v : JValue) : string := string_of_list_ascii (print v).

(** *** Parsing *)

Definition is_ws (c : ascii) : bool :=
  Ascii.eqb c " "%char || Ascii.eqb c "009"%char
  || Ascii.eqb c "010"%char || Ascii.eqb c "013"%char.

Fixpoint skip_ws (s : chars) : chars :=
  match s with
  | c :: s' => if is_ws c then skip_ws s' else s
  | [] => []
  end.

(** One code unit of a string body, with what follows it; [None] at a syntax
    error and at an escape that does not fit one 8-bit code unit. *)
Definition parse_char (s : chars) : option (ascii * chars) :=
  match s with
  | [] => None
  | c :: s1 =>
      if Ascii.eqb c bslash then
        match s1 with
        | [] => None
        | e :: s2 =>
            if Ascii.eqb e dquote then Some (dquote, s2)
            else if Ascii.eqb e bslash then Some (bslash, s2)
            else if Ascii.eqb e "/"%char then Some ("/"%char, s2)
            else if Ascii.eqb e "b"%char then Some ("008"%char, s2)
            else if Ascii.eqb e "f"%char then Some ("012"%char, s2)
            else if Ascii.eqb e "n"%char then Some ("010"%char, s2)
            else if Ascii.eqb e "r"%char then Some ("013"%char, s2)
            else if Ascii.eqb e "t"%char then Some ("009"%char, s2)
            else if Ascii.eqb e "u"%char then
              match s2 with
              | h1 :: h2 :: h3 :: h4 :: s3 =>
                  match hex_value h1, hex_value h2, hex_value h3, hex_value h4 with
                  | Some a, Some b, Some c', Some d =>
                      let n := (((a * 16 + b) * 16 + c') * 16 + d)%N in
                      if (n <? 256)%N then Some (ascii_of_N n, s3) else None
                  | _, _, _, _ => None
                  end
              | _ => None
              end
            else None
        end
      else if (N_of_ascii c <? 32)%N then None
      else Some (c, s1)
  end.

(** The body of a string literal up to its closing quote. *)
Fixpoint parse_body (fuel : nat) (s : chars) : option (chars * chars) :=
  match fuel with
  | O => None
  | S fuel' =>
      match s with
      | [] => None
      | c :: s1 =>
          if Ascii.eqb c dquote then Some ([], s1)
          else match parse_char s with
               | None => None
               | Some (x, s2) =>
                   match parse_body fuel' s2 with
                   | None => None
                   | Some (xs, s3) => Some (x :: xs, s3)
                   end
               end
      end
  end.

Definition parse_string (s : chars) : option (string * chars) :=
  match s with
  | c :: s1 =>
      if Ascii.eqb c dquote then
        match parse_body (S (List.length s1)) s1 with
        | Some (xs, s2) => Some (string_of_list_ascii xs, s2)
        | None => None
        end
      else None
  | [] => None
  end.

Fixpoint strip_prefix (p s : chars) : option chars :=
  match p, s with
  | [], _ => Some s
  | a :: p', b :: s' => if Ascii.eqb a b then strip_prefix p' s' else None
  | _ :: _, [] => None
  end.

(** Property definition on an object under construction: a repeated key
    keeps its first position and takes the last value. *)
Fixpoint obj_set (o : list (string * JValue)) (k : string) (v : JValue)
  : list (string * JValue) :=
  match o with
  | [] => [(k, v)]
  | (k', v') :: o' =>
      if String.eqb k' k then (k', v) :: o' else (k', v') :: obj_set o' k v
  end.

Fixpoint parse_value (fuel : nat) (s : chars) : option (JValue * chars) :=
  match fuel with
  | O => None
  | S fuel' =>
      match s with
      | [] => None
      | c :: s1 =>
          if Ascii.eqb c "{"%char then
            match skip_ws s1 with
            | c2 :: s2 =>
                if Ascii.eqb c2 "}"%char then Some (JObj [], s2)
                else parse_members fuel' [] (c2 :: s2)
            | [] => None
            end
          else if Ascii.eqb c dquote then
            match parse_string s with
            | Some (x, s2) => Some (JStr x, s2)
            | None => None
            end
          else if Ascii.eqb c "n"%char then
            match strip_prefix (list_ascii_of_string "null") s with
            | Some s2 => Some (JNull, s2)
            | None => None
            end
          else if Ascii.eqb c "t"%char then
            match strip_prefix (list_ascii_of_string "true") s with
            | Some s2 => Some (JBool true, s2)
            | None => None
            end
          else if Ascii.eqb c "f"%char then
            match strip_prefix (list_ascii_of_string "false") s with
            | Some s2 => Some (JBool false, s2)
            | None => None
            end
          else None
      end
  end

with parse_members (fuel : nat) (acc : list (string * JValue)) (s : chars)
  : option (JValue * chars) :=
  match fuel with
  | O => None
  | S fuel' =>
      match parse_string s with
      | None => None
      | Some (k, s1) =>
          match skip_ws s1 with
          | c :: s2 =>
              if Ascii.eqb c ":"%char then
                match parse_value fuel' (skip_ws s2) with
                | None => None
                | Some (v, s3) =>
                    match skip_ws s3 with
                    | d :: s4 =>
                        if Ascii.eqb d "}"%char then Some (JObj (obj_set acc k v), s4)
                        else if Ascii.eqb d ","%char then
                          parse_members fuel' (obj_set acc k v) (skip_ws s4)
                        else None
                    | [] => None
                    end
                end
              else None
          | [] => None
          end
      end
  end.

(** [JSON.parse]: [None] stands for the [SyntaxError] it throws, and for a
    text outside the fragment, which this model does not read. *)
Definition parse (text : string) : option JValue :=
  let s := list_ascii_of_string text in
  match parse_value (S (List.length s)) (skip_ws s) with
  | Some (v, rest) =>
      match skip_ws rest with
      | [] => Some v
      | _ :: _ => None
      end
  | None => None
  end.

(** Property read [o.k]; [None] is [undefined]. *)
Fixpoint obj_get (o : list (string * JValue)) (k : string) : option JValue :=
  match o with
  | [] => None
  | (k', v) :: o' => if String.eqb k' k then Some v else obj_get o' k
  end.

Definition get (v : JValue) (k : string) : option JValue :=
  match v with
  | JObj o => obj_get o k
  | _ => None
  end.

(** Objects as JavaScript has them: no key twice, at any depth. *)
Fixpoint wf (v : JValue) : Prop :=
  match v with
  | JObj fields =>
      NoDup (map fst fields) /\
      (fix all (l : list (string * JValue)) : Prop :=
         match l with
         | [] => True
         | kv :: l' => wf (snd kv) /\ all l'
         end) fields
  | _ => True
  end.

(** Parsing the text of [v], with enough fuel and whatever follows, gives
    [v] and what follows. *)
Definition reads_back (v : JValue) : Prop :=
  forall fuel rest,
    (List.length (print v) <= fuel)%nat ->
    parse_value fuel (print v ++ rest) = Some (v, rest).

End Json.

(* ================================================================== *)
(** ** Data model *)
(* ================================================================== *)

Import Json.

Inductive SyncStatus : Type := pending | synced | error.

Inductive Operation : Type := create | update | delete.

(** A row of the [tasks] table.  [completed] and [is_deleted] are SQLite
    integers; [updated_at] is kept as the text that is stored and sent. *)
Record TaskRow : Type := mkTaskRow {
  row_id : string;
  row_title : string;
  row_description : option string;
  row_completed : Z;
  row_created_at : string;
  row_updated_at : string;
  row_is_deleted : Z;
  row_sync_status : SyncStatus;
  row_server_id : option string;
  row_last_synced_at : option string
}.

(** An optional string property as JavaScript reads it: absent
    ([undefined]), [null], or a string.  The two tests the services apply to
    such a property, [!== undefined] and [!= null], differ on [null]. *)
Inductive Optional : Type := Undefined | Null | Text (s : string).

(** A column as the driver hands it over: NULL reads as [null]. *)
Definition of_column (c : option string) : Optional :=
  match c with Some x => Text x | None => Null end.

(** [if (v !== undefined) column = v] *)
Definition unless_undefined (v : Optional) (old : option string) : option string :=
  match v with Undefined => old | Null => None | Text x => Some x end.

(** [if (v != null) column = v] *)
Definition unless_null (v : Optional) (old : option string) : option string :=
  match v with Text x => Some x | Undefined | Null => old end.

(** The [Task] object of the TypeScript code: what [getTask] returns and what
    the server sends as [resolved_data].  [description] and [server_id] are
    the two string properties that a row can hold as NULL and that an answer
    of the server can leave out. *)
Record Task : Type := mkTask {
  id : string;
  title : string;
  description : Optional;
  completed : bool;
  created_at : string;
  updated_at : string;
  is_deleted : bool;
  sync_status : option SyncStatus;
  server_id : Optional;
  last_synced_at : option string
}.

(** [Partial<Task>], restricted to the properties the services read.  For
    [title], [completed], [updated_at] and [is_deleted], [None] is an absent
    property. *)
Record PartialTask : Type := mkPartial {
  p_title : option string;
  p_description : Optional;
  p_completed : option bool;
  p_updated_at : option string;
  p_is_deleted : option bool;
  p_server_id : Optional
}.

(** A row of the [sync_queue] table.  [q_created_at] is the instant
    [datetime(created_at)] denotes, in seconds. *)
Record QueueRow : Type := mkQueueRow {
  q_id : string;
  q_task_id : string;
  q_operation : Operation;
  q_data : string;
  q_created_at : Z;
  q_retry_count : option Z;
  q_last_error : option string;
  q_updated_at : option string
}.

(** [SyncQueueItem]: the columns [getQueueItemsToProcess] selects. *)
Record SyncQueueItem : Type := mkItem {
  item_id : string;
  item_task_id : string;
  item_operation : Operation;
  item_data : string;
  item_created_at : Z;
  item_retry_count : option Z
}.

Record Database : Type := mkDatabase {
  tasks : list TaskRow;
  sync_queue : list QueueRow;
  meta : list (string * string)
}.

Record SyncError : Type := mkSyncError {
  err_task_id : string;
  err_operation : Operation;
  err_error : string;
  err_timestamp : string
}.

Record SyncResult : Type := mkResult {
  success : bool;
  synced_items : Z;
  failed_items : Z;
  errors : list SyncError
}.

Inductive Verdict : Type := VSuccess | VConflict | VOther.

(** One entry of [processed_items] in the server's answer. *)
Record ProcessedItem : Type := mkProcessed {
  client_id : string;
  status : Verdict;
  resolved_data : option Task;
  processed_server_id : option string;
  processed_error : option string
}.

Record BatchSyncResponse : Type := mkResponse {
  processed_items : option (list ProcessedItem)
}.

Record BatchItem : Type := mkBatchItem {
  bi_id : string;
  bi_task_id : string;
  bi_operation : Operation;
  bi_data : JValue;
  bi_created_at : Z;
  bi_retry_count : Z
}.

Record BatchSyncRequest : Type := mkRequest {
  items : list BatchItem;
  client_timestamp : string
}.

(** A thrown [Error]. *)
Record Exn : Type := mkError { message : string }.

(** What the code takes from outside: configuration, the clock, the uuid
    generator, [Date] parsing and the remote server.  The clock and the
    generators are read by position; [post n req = None] is an axios call
    that rejects. *)
Record Env : Type := mkEnv {
  MAX_RETRY : Z;
  SYNC_BATCH_SIZE : Z;
  date_parse : string -> option Z;
  iso_now : nat -> string;
  sql_now : nat -> Z;
  uuidv4 : nat -> string;
  health : nat -> bool;
  post : nat -> BatchSyncRequest -> option BatchSyncResponse
}.

(** The same environment with another [Date] parser. *)
Definition with_date_parse (f : string -> option Z) (E : Env) : Env :=
  mkEnv (MAX_RETRY E) (SYNC_BATCH_SIZE E) f (iso_now E) (sql_now E)
        (uuidv4 E) (health E) (post E).

Record World : Type := mkWorld {
  db : Database;
  ticks : nat;
  uuids : nat;
  requests : nat
}.

(** The state of a running [sync]: the world and the [result] object. *)
Record SyncState : Type := mkSyncState {
  world : World;
  result : SyncResult
}.

(* ================================================================== *)
(** ** State and exceptions *)
(* ================================================================== *)

(** A computation over state [S]: it ends with a value or a thrown error, and
    with the state its writes left behind in either case. *)
Definition M (S A : Type) : Type := S -> (Exn + A) * S.

Definition ret {S A} (a : A) : M S A := fun s => (inr a, s).

Definition bind {S A B} (c : M S A) (k : A -> M S B) : M S B :=
  fun s => match c s with
           | (inr a, s') => k a s'
           | (inl e, s') => (inl e, s')
           end.

Definition throw {S A} (e : Exn) : M S A := fun s => (inl e, s).

Definition try_catch {S A} (c : M S A) (h : Exn -> M S A) : M S A :=
  fun s => match c s with
           | (inr a, s') => (inr a, s')
           | (inl e, s') => h e s'
           end.

Definition gets {S A} (f : S -> A) : M S A := fun s => (inr (f s), s).

Definition modify {S} (f : S -> S) : M S unit := fun s => (inr tt, f s).

Notation "x <- c ;; k" := (bind c (fun x => k))
  (at level 61, c at next level, right associativity).
Notation "c ;; k" := (bind c (fun _ => k))
  (at level 61, right associativity).

(** [for (const x of xs) body]. *)
Fixpoint for_each {S A} (xs : list A) (body : A -> M S unit) : M S unit :=
  match xs with
  | [] => ret tt
  | x :: xs' => body x ;; for_each xs' body
  end.

(** A world computation run inside [sync]. *)
Definition in_world {A} (c : M World A) : M SyncState A :=
  fun s => let '(r, w) := c (world s) in (r, mkSyncState w (result s)).

Definition exec {S A} (c : M S A) (s : S) : S := snd (c s).

(** *** The oracles *)

Definition with_db (f : Database -> Database) (w : World) : World :=
  mkWorld (f (db w)) (ticks w) (uuids w) (requests w).

(** One read of the clock. *)
Definition tick (w : World) : World :=
  mkWorld (db w) (S (ticks w)) (uuids w) (requests w).

(** [new Date().toISOString()] *)
Definition new_Date (E : Env) : M World string :=
  fun w => (inr (iso_now E (ticks w)), tick w).

(** SQLite's [CURRENT_TIMESTAMP] *)
Definition CURRENT_TIMESTAMP (E : Env) : M World Z :=
  fun w => (inr (sql_now E (ticks w)), tick w).

Definition uuid (E : Env) : M World string :=
  fun w => (inr (uuidv4 E (uuids w)),
            mkWorld (db w) (ticks w) (S (uuids w)) (requests w)).

(* ================================================================== *)
(** ** TaskService *)
(* ================================================================== *)

Module TaskService.

(** [!!x] on an SQLite integer *)
Definition truthy (n : Z) : bool := negb (n =? 0).

(** [c ? 1 : 0] *)
Definition to_int (b : bool) : Z := if b then 1 else 0.

Definition task_of_row (r : TaskRow) : Task :=
  mkTask (row_id r) (row_title r) (of_column (row_description r))
         (truthy (row_completed r)) (row_created_at r) (row_updated_at r)
         (truthy (row_is_deleted r)) (Some (row_sync_status r))
         (of_column (row_server_id r)) (row_last_synced_at r).

(** [SELECT * FROM tasks WHERE id = ? AND is_deleted = 0], first row. *)
Definition select_live (taskId : string) (d : Database) : option TaskRow :=
  find (fun r => String.eqb (row_id r) taskId && (row_is_deleted r =? 0)) (tasks d).

Definition getTask (taskId : string) : M World (option Task) :=
  gets (fun w => match select_live taskId (db w) with
                 | None => None
                 | Some r => Some (task_of_row r)
                 end).

Definition or_else {A} (o : option A) (a : A) : A :=
  match o with Some x => x | None => a end.

(** The [SET] list [updateLocalOnly] builds, applied to one row: a property
    is written unless it is [undefined], so a [null] description or
    [server_id] writes NULL. *)
Definition set_local (u : PartialTask) (r : TaskRow) : TaskRow :=
  mkTaskRow (row_id r)
    (or_else (p_title u) (row_title r))
    (unless_undefined (p_description u) (row_description r))
    (match p_completed u with Some b => to_int b | None => row_completed r end)
    (row_created_at r)
    (or_else (p_updated_at u) (row_updated_at r))
    (match p_is_deleted u with Some b => to_int b | None => row_is_deleted r end)
    (row_sync_status r)
    (unless_undefined (p_server_id u) (row_server_id r))
    (row_last_synced_at r).

Definition no_fields (u : PartialTask) : bool :=
  match p_title u, p_description u, p_completed u,
        p_updated_at u, p_is_deleted u, p_server_id u with
  | None, Undefined, None, None, None, Undefined => true
  | _, _, _, _, _, _ => false
  end.

Definition update_tasks (f : TaskRow -> TaskRow) (taskId : string) (d : Database)
  : Database :=
  mkDatabase
    (map (fun r => if String.eqb (row_id r) taskId then f r else r) (tasks d))
    (sync_queue d) (meta d).

Definition updateLocalOnly (taskId : string) (updates : PartialTask) : M World unit :=
  if no_fields updates then ret tt
  else modify (with_db (update_tasks (set_local updates) taskId)).

End TaskService.

(* ================================================================== *)
(** ** SyncService *)
(* ================================================================== *)

Module SyncService.

Import TaskService.

(** [raw] is the text of the [data] column, so the [typeof raw === 'object']
    branch is never taken. *)
Definition safeParseData (raw : string) : JValue :=
  if String.eqb raw "" then JObj []
  else match Json.parse raw with
       | Some v => v
       | None => JObj []
       end.

(** Modelled from the spec: the [sync_queue] schema, which is declared in the
    database module.  A new queue item starts with [retry_count] 0, no error
    message, and its creation time. *)
Definition new_queue_row (qid taskId : string) (operation : Operation)
    (data : string) (now : Z) : QueueRow :=
  mkQueueRow qid taskId operation data now (Some 0) None None.

Definition insert_queue (q : QueueRow) (d : Database) : Database :=
  mkDatabase (tasks d) (sync_queue d ++ [q]) (meta d).

Definition addToSyncQueue (E : Env) (taskId : string) (operation : Operation)
    (data : JValue) : M World unit :=
  qid <- uuid E ;;
  now <- CURRENT_TIMESTAMP E ;;
  modify (with_db (insert_queue
    (new_queue_row qid taskId operation
       (Json.stringify (JObj [("data", data)])) now))).

(** [a >= b] on the results of [getTime()], where [None] is [NaN]. *)
Definition js_ge (a b : option Z) : bool :=
  match a, b with
  | Some x, Some y => y <=? x
  | _, _ => false
  end.

(** [new Date(s).getTime()] *)
Definition getTime (E : Env) (s : string) : option Z := date_parse E s.

(** Which of its two arguments [resolveConflict] returns. *)
Inductive Winner : Type := LocalTask | ServerTask.

Definition winner_task (w : Winner) (localTask serverTask : Task) : Task :=
  match w with LocalTask => localTask | ServerTask => serverTask end.

(** [toISOString()] throws a [RangeError] on an invalid date. *)
Definition toISOString_ok (E : Env) (s : string) : bool :=
  match getTime E s with Some _ => true | None => false end.

Definition RangeError : Exn := mkError "Invalid time value".

(** The log line is built from both tasks' dates before the winner is
    returned; the line itself is not kept. *)
Definition resolveConflict (E : Env) (localTask serverTask : Task) : Exn + Winner :=
  let localUpdated := getTime E (updated_at localTask) in
  let serverUpdated := getTime E (updated_at serverTask) in
  let winner := if js_ge localUpdated serverUpdated then LocalTask else ServerTask in
  let loser := match winner with LocalTask => ServerTask | ServerTask => LocalTask end in
  if toISOString_ok E (updated_at (winner_task winner localTask serverTask)) then
    if toISOString_ok E (updated_at (winner_task loser localTask serverTask)) then
      inr winner
    else inl RangeError
  else inl RangeError.

(** The [SET] list [updateSyncStatus] builds, applied to one row: a server
    property is written unless it is [null] or [undefined]. *)
Definition set_status (st : SyncStatus) (now : string) (serverData : option PartialTask)
    (r : TaskRow) : TaskRow :=
  let d := or_else serverData (mkPartial None Undefined None None None Undefined) in
  mkTaskRow (row_id r)
    (or_else (p_title d) (row_title r))
    (unless_null (p_description d) (row_description r))
    (match p_completed d with Some b => to_int b | None => row_completed r end)
    (row_created_at r)
    (or_else (p_updated_at d) (row_updated_at r))
    (match p_is_deleted d with Some b => to_int b | None => row_is_deleted r end)
    st
    (unless_null (p_server_id d) (row_server_id r))
    (Some now).

Definition updateSyncStatus (E : Env) (taskId : string) (st : SyncStatus)
    (serverData : option PartialTask) : M World unit :=
  now <- new_Date E ;;
  modify (with_db (update_tasks (set_status st now serverData) taskId)).

(** [item.retry_count ?? 0] *)
Definition retry_of (item : SyncQueueItem) : Z := or_else (item_retry_count item) 0.

Definition record_error (qid : string) (nextRetry : Z) (msg now : string)
    (d : Database) : Database :=
  mkDatabase (tasks d)
    (map (fun q => if String.eqb (q_id q) qid
                   then mkQueueRow (q_id q) (q_task_id q) (q_operation q) (q_data q)
                          (q_created_at q) (Some nextRetry) (Some msg) (Some now)
                   else q) (sync_queue d))
    (meta d).

Definition handleSyncError (E : Env) (item : SyncQueueItem) (err : Exn)
  : M World unit :=
  let nextRetry := retry_of item + 1 in
  now <- new_Date E ;;
  modify (with_db (record_error (item_id item) nextRetry (message err) now)) ;;
  if MAX_RETRY E <=? nextRetry
  then updateSyncStatus E (item_task_id item) error None
  else ret tt.

Definition checkConnectivity (E : Env) : M World bool :=
  fun w => (inr (health E (requests w)),
            mkWorld (db w) (ticks w) (uuids w) (S (requests w))).

Definition delete_queue (qid : string) (d : Database) : Database :=
  mkDatabase (tasks d)
    (filter (fun q => negb (String.eqb (q_id q) qid)) (sync_queue d))
    (meta d).

Definition removeQueueItem (queueItemId : string) : M World unit :=
  modify (with_db (delete_queue queueItemId)).

(** [ORDER BY datetime(created_at) ASC]; rows of equal time keep the order
    of the table. *)
Fixpoint insert_by_created (q : QueueRow) (l : list QueueRow) : list QueueRow :=
  match l with
  | [] => [q]
  | x :: l' => if q_created_at q <=? q_created_at x then q :: l
               else x :: insert_by_created q l'
  end.

Fixpoint order_by_created (l : list QueueRow) : list QueueRow :=
  match l with
  | [] => []
  | q :: l' => insert_by_created q (order_by_created l')
  end.

(** [IFNULL(retry_count, 0) < ?] *)
Definition retryable (E : Env) (q : QueueRow) : bool :=
  or_else (q_retry_count q) 0 <? MAX_RETRY E.

Definition item_of_row (q : QueueRow) : SyncQueueItem :=
  mkItem (q_id q) (q_task_id q) (q_operation q) (q_data q)
         (q_created_at q) (q_retry_count q).

Definition eligible_rows (E : Env) (d : Database) : list QueueRow :=
  order_by_created (filter (retryable E) (sync_queue d)).

Definition getQueueItemsToProcess (E : Env) : M World (list SyncQueueItem) :=
  gets (fun w => map item_of_row (eligible_rows E (db w))).

(** [arr.slice(i, j)] for [0 <= i] *)
Definition slice {T} (arr : list T) (i j : Z) : list T :=
  firstn (Z.to_nat (j - i)) (skipn (Z.to_nat i) arr).

(** The loop of [chunk]; it runs at most once per element. *)
Fixpoint chunk_from {T} (fuel : nat) (arr : list T) (size i : Z) : list (list T) :=
  match fuel with
  | O => []
  | S fuel' =>
      if i <? Z.of_nat (List.length arr)
      then slice arr i (i + size) :: chunk_from fuel' arr size (i + size)
      else []
  end.

Definition chunk {T} (arr : list T) (size : Z) : list (list T) :=
  if size <=? 0 then [arr]
  else chunk_from (List.length arr) arr size 0.

(** Oldest first. *)
Definition older_first (a b : QueueRow) : Prop := q_created_at a <= q_created_at b.

(** *** The batch call *)

Definition batch_item (it : SyncQueueItem) : BatchItem :=
  mkBatchItem (item_id it) (item_task_id it) (item_operation it)
              (safeParseData (item_data it)) (item_created_at it) (retry_of it).

Definition axios_post (E : Env) (payload : BatchSyncRequest)
  : M World BatchSyncResponse :=
  fun w =>
    let w' := mkWorld (db w) (ticks w) (uuids w) (S (requests w)) in
    match post E (requests w) payload with
    | Some resp => (inr resp, w')
    | None => (inl (mkError "Network Error"), w')
    end.

(** What [processBatch] throws, whatever axios threw. *)
Definition failed_transport : Exn := mkError "Faield to process batch".

Definition processBatch (E : Env) (batch : list SyncQueueItem)
  : M World BatchSyncResponse :=
  try_catch
    (now <- new_Date E ;;
     axios_post E (mkRequest (map batch_item batch) now))
    (fun _ => throw failed_transport).

(** *** One cycle *)

Definition initial_result : SyncResult := mkResult true 0 0 [].

Definition add_synced (s : SyncState) : SyncState :=
  mkSyncState (world s)
    (mkResult (success (result s)) (synced_items (result s) + 1)
              (failed_items (result s)) (errors (result s))).

Definition add_failed (s : SyncState) : SyncState :=
  mkSyncState (world s)
    (mkResult (success (result s)) (synced_items (result s))
              (failed_items (result s) + 1) (errors (result s))).

Definition set_unsuccessful (s : SyncState) : SyncState :=
  mkSyncState (world s)
    (mkResult false (synced_items (result s))
              (failed_items (result s)) (errors (result s))).

Definition push (e : SyncError) (s : SyncState) : SyncState :=
  mkSyncState (world s)
    (mkResult (success (result s)) (synced_items (result s))
              (failed_items (result s)) (errors (result s) ++ [e])).

(** [result.errors.push({ task_id, operation, error, timestamp: new Date() })] *)
Definition push_error (E : Env) (taskId : string) (operation : Operation)
    (msg : string) : M SyncState unit :=
  now <- in_world (new_Date E) ;;
  modify (push (mkSyncError taskId operation msg now)).

(** [UPDATE meta SET value = ? WHERE key = 'last_sync_timestamp'] *)
Definition set_meta (key value : string) (d : Database) : Database :=
  mkDatabase (tasks d) (sync_queue d)
    (map (fun kv => if String.eqb (fst kv) key then (fst kv, value) else kv) (meta d)).

Definition mark_last_sync (E : Env) : M World unit :=
  now <- new_Date E ;;
  modify (with_db (set_meta "last_sync_timestamp" now)).

(** [byClientId.get(cid)]: the map is filled in batch order, so a later item
    replaces an earlier one of the same id. *)
Definition byClientId_get (batch : list SyncQueueItem) (cid : string)
  : option SyncQueueItem :=
  find (fun it => String.eqb (item_id it) cid) (rev batch).

Definition partial_of_task (t : Task) (sid : Optional) : PartialTask :=
  mkPartial (Some (title t)) (description t) (Some (completed t))
            (Some (updated_at t)) (Some (is_deleted t)) sid.

(** The [server_id] of an answer; [updateSyncStatus], its only reader, takes
    [null] and [undefined] alike. *)
Definition answered_id (processed : ProcessedItem) : Optional :=
  match processed_server_id processed with Some x => Text x | None => Undefined end.

(** [{ ...processed.resolved_data, server_id: processed.server_id }] *)
Definition success_data (processed : ProcessedItem) : PartialTask :=
  match resolved_data processed with
  | Some t => partial_of_task t (answered_id processed)
  | None => mkPartial None Undefined None None None (answered_id processed)
  end.

Definition json_of_nullable (o : option string) : JValue :=
  match o with Some x => JStr x | None => JNull end.

(** One property of an object literal under [JSON.stringify], which leaves
    out a property whose value is [undefined]. *)
Definition json_member (key : string) (v : Optional) : list (string * JValue) :=
  match v with
  | Undefined => []
  | Null => [(key, JNull)]
  | Text x => [(key, JStr x)]
  end.

(** The object literal [sync] requeues when the local copy wins. *)
Definition local_snapshot (l : Task) : JValue :=
  JObj ([("title", JStr (title l))]
        ++ json_member "description" (description l)
        ++ [("completed", JBool (completed l));
            ("updated_at", JStr (updated_at l));
            ("is_deleted", JBool (is_deleted l))]).

(** [x || fallback] on an optional string *)
Definition or_default (o : option string) (fallback : string) : string :=
  match o with
  | Some x => if String.eqb x "" then fallback else x
  | None => fallback
  end.

Definition lift_result {S A} (r : Exn + A) : M S A :=
  match r with
  | inr a => ret a
  | inl e => throw e
  end.

Definition on_success (E : Env) (queueItem : SyncQueueItem) (processed : ProcessedItem)
  : M SyncState unit :=
  in_world (updateSyncStatus E (item_task_id queueItem) synced
              (Some (success_data processed))) ;;
  in_world (removeQueueItem (item_id queueItem)) ;;
  modify add_synced.

Definition on_missing_data (E : Env) (queueItem : SyncQueueItem) : M SyncState unit :=
  in_world (handleSyncError E queueItem (mkError "Conflict but missing data")) ;;
  modify add_failed ;;
  push_error E (item_task_id queueItem) (item_operation queueItem)
             "Conflict: missing data to resolve".

Definition on_local_wins (E : Env) (queueItem : SyncQueueItem) (l : Task)
  : M SyncState unit :=
  in_world (handleSyncError E queueItem
              (mkError "Conflict: local newer, requeueing update")) ;;
  in_world (addToSyncQueue E (id l) update (local_snapshot l)) ;;
  modify add_failed ;;
  push_error E (item_task_id queueItem) update
             "Conflict resolved (local newer). Requeued update.".

Definition on_server_wins (E : Env) (queueItem : SyncQueueItem) (serverTask : Task)
  : M SyncState unit :=
  in_world (updateLocalOnly (item_task_id queueItem)
              (mkPartial (Some (title serverTask)) (description serverTask)
                         (Some (completed serverTask)) (Some (updated_at serverTask))
                         (Some (is_deleted serverTask)) (server_id serverTask))) ;;
  in_world (updateSyncStatus E (item_task_id queueItem) synced
              (Some (partial_of_task serverTask (server_id serverTask)))) ;;
  in_world (removeQueueItem (item_id queueItem)) ;;
  push_error E (item_task_id queueItem) (item_operation queueItem)
             "Conflict resolved using last-write-wins (server newer)" ;;
  modify add_synced.

Definition on_server_error (E : Env) (queueItem : SyncQueueItem)
    (processed : ProcessedItem) : M SyncState unit :=
  let msg := or_default (processed_error processed) "Server error" in
  in_world (handleSyncError E queueItem (mkError msg)) ;;
  modify add_failed ;;
  push_error E (item_task_id queueItem) (item_operation queueItem) msg.

(** The body of the loop over [resp.processed_items].  The two [continue]
    statements leave before the [meta] update at the end of the body. *)
Definition reconcile (E : Env) (batch : list SyncQueueItem) (processed : ProcessedItem)
  : M SyncState unit :=
  match byClientId_get batch (client_id processed) with
  | None => ret tt
  | Some queueItem =>
      match status processed with
      | VSuccess =>
          on_success E queueItem processed ;;
          in_world (mark_last_sync E)
      | VConflict =>
          local <- in_world (getTask (item_task_id queueItem)) ;;
          match local, resolved_data processed with
          | Some l, Some serverTask =>
              winner <- lift_result (resolveConflict E l serverTask) ;;
              match winner with
              | LocalTask => on_local_wins E queueItem l
              | ServerTask => on_server_wins E queueItem serverTask
              end ;;
              in_world (mark_last_sync E)
          | _, _ => on_missing_data E queueItem
          end
      | VOther =>
          on_server_error E queueItem processed ;;
          in_world (mark_last_sync E)
      end
  end.

Definition returned (resp : BatchSyncResponse) : list ProcessedItem :=
  match processed_items resp with Some l => l | None => [] end.

Definition echoed (resp : BatchSyncResponse) (it : SyncQueueItem) : bool :=
  existsb (fun p => String.eqb (client_id p) (item_id it)) (returned resp).

Definition on_unanswered (E : Env) (resp : BatchSyncResponse) (it : SyncQueueItem)
  : M SyncState unit :=
  if echoed resp it then ret tt
  else
    in_world (handleSyncError E it (mkError "No server response for item")) ;;
    modify add_failed ;;
    push_error E (item_task_id it) (item_operation it) "No server response for item".

(** The [try] block of one batch. *)
Definition attempt_batch (E : Env) (batch : list SyncQueueItem) : M SyncState unit :=
  resp <- in_world (processBatch E batch) ;;
  for_each (returned resp) (reconcile E batch) ;;
  for_each batch (on_unanswered E resp).

(** The body of the loop in the [catch] block. *)
Definition fail_item (E : Env) (err : Exn) (it : SyncQueueItem) : M SyncState unit :=
  in_world (handleSyncError E it err) ;;
  modify add_failed ;;
  push_error E (item_task_id it) (item_operation it)
             (if String.eqb (message err) "" then "Batch failed" else message err).

(** The [catch] block of one batch. *)
Definition fail_batch (E : Env) (batch : list SyncQueueItem) (err : Exn)
  : M SyncState unit :=
  for_each batch (fail_item E err) ;;
  modify set_unsuccessful.

Definition sync_batch (E : Env) (batch : list SyncQueueItem) : M SyncState unit :=
  try_catch (attempt_batch E batch) (fail_batch E batch).

Definition sync_cycle (E : Env) : M SyncState unit :=
  online <- in_world (checkConnectivity E) ;;
  if negb online then modify set_unsuccessful
  else
    queued <- in_world (getQueueItemsToProcess E) ;;
    match queued with
    | [] => ret tt
    | _ :: _ => for_each (chunk queued (SYNC_BATCH_SIZE E)) (sync_batch E)
    end.

(** [sync()]: the result object and what the call left behind. *)
Definition sync (E : Env) (w : World) : SyncResult * World :=
  let s := exec (sync_cycle E) (mkSyncState w initial_result) in
  (result s, world s).

End SyncService.

(* ================================================================== *)
(** ** TaskService: the mutations and the listings *)
(* ================================================================== *)

(** [updateTask], [deleteTask], [getAllTasks] and [getTasksNeedingSync].
    They come after [SyncService] because the mutations call
    [addToSyncQueue]. *)
Module TaskRepository.

Import TaskService SyncService.

(** What the mutations need besides the environment of the sync engine: the
    text SQLite writes for [CURRENT_TIMESTAMP], and whether
    [setSyncService] has been called. *)
Record Store : Type := mkStore {
  sync_env : Env;
  timestamp_text : Z -> string;
  syncService : bool
}.

Definition status_text (st : SyncStatus) : string :=
  match st with
  | pending => "pending"
  | synced => "synced"
  | error => "error"
  end.

(** Modelled from the spec: the columns of [tasks], which the database module
    declares, in the order the data model lists the fields of a task.  This
    is the object [getTask] returns, as JSON. *)
Definition json_of_task (t : Task) : JValue :=
  JObj ([("id", JStr (id t))]
        ++ json_member "server_id" (server_id t)
        ++ [("title", JStr (title t))]
        ++ json_member "description" (description t)
        ++ [("completed", JBool (completed t));
            ("is_deleted", JBool (is_deleted t));
            ("created_at", JStr (created_at t));
            ("updated_at", JStr (updated_at t));
            ("sync_status",
             match sync_status t with Some st => JStr (status_text st) | None => JNull end);
            ("last_synced_at", json_of_nullable (last_synced_at t))]).

(** [task!] handed to [addToSyncQueue]: [null] stays [null]. *)
Definition json_of_result (o : option Task) : JValue :=
  match o with Some t => json_of_task t | None => JNull end.

(** The [SET] list [updateTask] builds, applied to one row. *)
Definition set_update (u : PartialTask) (now : string) (r : TaskRow) : TaskRow :=
  mkTaskRow (row_id r)
    (or_else (p_title u) (row_title r))
    (unless_undefined (p_description u) (row_description r))
    (match p_completed u with Some b => to_int b | None => row_completed r end)
    (row_created_at r)
    now
    (row_is_deleted r)
    pending
    (row_server_id r)
    (row_last_synced_at r).

(** [UPDATE tasks SET ... WHERE id = ? AND is_deleted = 0] *)
Definition update_live (f : TaskRow -> TaskRow) (taskId : string) (d : Database)
  : Database :=
  mkDatabase
    (map (fun r => if String.eqb (row_id r) taskId && (row_is_deleted r =? 0)
                   then f r else r) (tasks d))
    (sync_queue d) (meta d).

Definition enqueue (store : Store) (taskId : string) (operation : Operation)
    (data : JValue) : M World unit :=
  if syncService store then addToSyncQueue (sync_env store) taskId operation data
  else ret tt.

Definition updateTask (store : Store) (taskId : string) (updates : PartialTask)
  : M World (option Task) :=
  try_catch
    (now <- CURRENT_TIMESTAMP (sync_env store) ;;
     modify (with_db (update_live (set_update updates (timestamp_text store now)) taskId)) ;;
     updatedTask <- getTask taskId ;;
     enqueue store taskId update (json_of_result updatedTask) ;;
     ret updatedTask)
    (fun _ => throw (mkError "Failed to update task")).

(** [SET is_deleted = 1, updated_at = CURRENT_TIMESTAMP, sync_status = 'pending'] *)
Definition set_deleted (now : string) (r : TaskRow) : TaskRow :=
  mkTaskRow (row_id r) (row_title r) (row_description r) (row_completed r)
            (row_created_at r) now 1 pending (row_server_id r)
            (row_last_synced_at r).

Definition deleteTask (store : Store) (taskId : string) : M World bool :=
  try_catch
    (now <- CURRENT_TIMESTAMP (sync_env store) ;;
     modify (with_db (update_tasks (set_deleted (timestamp_text store now)) taskId)) ;;
     deletedTask <- getTask taskId ;;
     enqueue store taskId delete (json_of_result deletedTask) ;;
     ret (match deletedTask with
          | Some t => is_deleted t
          | None => false
          end))
    (fun _ => throw (mkError "Failed to delete task")).

(** [SELECT * FROM tasks WHERE is_deleted = 0] *)
Definition getAllTasks : M World (list Task) :=
  gets (fun w => map task_of_row
                   (filter (fun r => row_is_deleted r =? 0) (tasks (db w)))).

Definition needs_sync (r : TaskRow) : bool :=
  match row_sync_status r with
  | pending | error => row_is_deleted r =? 0
  | synced => false
  end.

(** [WHERE sync_status IN ('pending', 'error') AND is_deleted = 0] *)
Definition getTasksNeedingSync : M World (list Task) :=
  gets (fun w => map task_of_row (filter needs_sync (tasks (db w)))).

End TaskRepository.

(* ================================================================== *)
(** ** The routes *)
(* ================================================================== *)

Module Routes.

Import TaskService SyncService.

(** A property of a request body, as the handlers test it. *)
Inductive JsVal : Type :=
| JsUndefined
| JsNull
| JsBool (b : bool)
| JsNumber (n : Z)
| JsString (s : string)
| JsObject.

(** [!!v]; [JsObject] stands for any object or array. *)
Definition truthy_val (v : JsVal) : bool :=
  match v with
  | JsUndefined | JsNull => false
  | JsBool b => b
  | JsNumber n => negb (n =? 0)
  | JsString s => negb (String.eqb s "")
  | JsObject => true
  end.

Definition is_string (v : JsVal) : bool :=
  match v with JsString _ => true | _ => false end.

Definition is_boolean (v : JsVal) : bool :=
  match v with JsBool _ => true | _ => false end.

Definition is_undefined (v : JsVal) : bool :=
  match v with JsUndefined => true | _ => false end.

(** The checks of [PUT /:id] on [{ title, description, completed }], in
    order; [Some msg] is the 400 answer, [None] lets the request through. *)
Definition put_validation (title description completed : JsVal) : option string :=
  if negb (truthy_val title) && negb (truthy_val description)
     && negb (is_undefined completed)
  then Some "At least one field (title, description, completed) must be provided for update"
  else if truthy_val title || negb (is_string title)
  then Some "Title must be a string"
  else if truthy_val description || negb (is_string description)
  then Some "Description must be a string"
  else if negb (is_undefined completed) && negb (is_boolean completed)
  then Some "Completed status must be boolean."
  else None.

(** The answer of [GET /status]. *)
Record SyncStatusReply : Type := mkStatusReply {
  pending_sync_count : Z;
  last_sync_timestamp : option string;
  is_online : bool;
  sync_queue_size : Z
}.

(** [SELECT value FROM meta WHERE key = ?], first row. *)
Definition meta_get (key : string) (d : Database) : option string :=
  match find (fun kv => String.eqb (fst kv) key) (meta d) with
  | Some kv => Some (snd kv)
  | None => None
  end.

(** [SELECT COUNT( * ) FROM sync_queue WHERE IFNULL(retry_count,0) < ?] *)
Definition count_pending (E : Env) (d : Database) : Z :=
  Z.of_nat (List.length (filter (retryable E) (sync_queue d))).

Definition get_status (E : Env) : M World SyncStatusReply :=
  pending <- gets (fun w => count_pending E (db w)) ;;
  lastSyncTimestamp <- gets (fun w => meta_get "last_sync_timestamp" (db w)) ;;
  isOnline <- checkConnectivity E ;;
  ret (mkStatusReply pending lastSyncTimestamp isOnline pending).

(** The answer of [POST /sync]: 503 when the probe fails, else the result. *)
Inductive SyncReply : Type :=
| ServiceUnavailable
| Done (r : SyncResult).

Definition post_sync (E : Env) : M World SyncReply :=
  online <- checkConnectivity E ;;
  if negb online then ret ServiceUnavailable
  else fun w => let '(r, w') := sync E w in (inr (Done r), w').

(** The answer of [DELETE /:id]. *)
Inductive DeleteReply : Type :=
| NotFound
| Deleted
| Failed.

(** The handler looks the task up, answers 404 if there is none, and
    otherwise calls [deleteTask] and answers 200 with [{ success: true }]
    whatever [deleteTask] returned. *)
Definition delete_route (store : TaskRepository.Store) (taskId : string)
  : M World DeleteReply :=
  try_catch
    (task <- getTask taskId ;;
     match task with
     | None => ret NotFound
     | Some _ => TaskRepository.deleteTask store taskId ;; ret Deleted
     end)
    (fun _ => ret Failed).

End Routes.

(* ================================================================== *)
(** ** What a cycle keeps *)
(* ================================================================== *)

Module Invariants.

(** [c] keeps [K]: whether it returns or throws, the state it leaves
    satisfies [K] if the state it started from did. *)
Definition preserves {S A} (K : S -> Prop) (c : M S A) : Prop :=
  forall s, K s -> K (snd (c s)).

(** The columns of a task that the sync engine has no statement for. *)
Definition task_key (r : TaskRow) : string * string :=
  (row_id r, row_created_at r).

(** The columns of a queue row that say what is to be sent. *)
Definition payload (q : QueueRow) : string * string * Operation * string * Z :=
  (q_id q, q_task_id q, q_operation q, q_data q, q_created_at q).

(** Every row of [after] carries the payload of a row of [before], or is an
    [update]. *)
Definition queue_kept (before after : list QueueRow) : Prop :=
  forall q', In q' after ->
    (exists q, In q before /\ payload q' = payload q) \/ q_operation q' = update.

(** With respect to the database [d0] a cycle started from. *)
Definition db_kept (d0 d : Database) : Prop :=
  map task_key (tasks d) = map task_key (tasks d0) /\
  map fst (meta d) = map fst (meta d0) /\
  queue_kept (sync_queue d0) (sync_queue d).

(** Every failure has its error record, and only failures and resolved
    conflicts have one. *)
Definition counts_ok (r : SyncResult) : Prop :=
  0 <= synced_items r /\ 0 <= failed_items r /\
  failed_items r <= Z.of_nat (List.length (errors r)) /\
  Z.of_nat (List.length (errors r)) <= failed_items r + synced_items r.

Definition cycle_kept (d0 : Database) (s : SyncState) : Prop :=
  db_kept d0 (db (world s)) /\ counts_ok (result s).

(** [q'] has the retry count of [q], or one more if [q] could be retried. *)
Definition retried_at_most_once (E : Env) (q q' : QueueRow) : Prop :=
  q_retry_count q' = q_retry_count q \/
  (SyncService.retryable E q = true /\
   q_retry_count q' = Some (TaskService.or_else (q_retry_count q) 0 + 1)).

(** With respect to the world [w0] a cycle started from: no uuid has been
    given back, and a row that has the id of a row of [w0] has been retried at
    most once since. *)
Definition retries_kept (E : Env) (w0 w : World) : Prop :=
  (uuids w0 <= uuids w)%nat /\
  forall q', In q' (sync_queue (db w)) ->
    In (q_id q') (map q_id (sync_queue (db w0))) ->
    exists q, In q (sync_queue (db w0)) /\ q_id q = q_id q' /\
              retried_at_most_once E q q'.

(** The items a cycle started from [w0] fetches. *)
Definition fetched_from (E : Env) (w0 : World) (it : SyncQueueItem) : Prop :=
  exists q, In q (SyncService.eligible_rows E (db w0)) /\ it = SyncService.item_of_row q.

(** A server that accepts everything: to every request it answers, in order,
    one [success] entry per item, under the item's id. *)
Definition accepts_everything (E : Env) : Prop :=
  forall n req, exists ps,
    post E n req = Some (mkResponse (Some ps)) /\
    map client_id ps = map bi_id (items req) /\
    Forall (fun p => status p = VSuccess) ps.

(** Where a cycle stands once the items [sent] have all been accepted,
    with respect to the queue [queue0] it started from. *)
Definition all_accepted (queue0 : list QueueRow) (sent : list SyncQueueItem)
    (s : SyncState) : Prop :=
  success (result s) = true /\
  failed_items (result s) = 0 /\
  errors (result s) = [] /\
  synced_items (result s) = Z.of_nat (List.length sent) /\
  (forall q, In q (sync_queue (db (world s))) <->
             In q queue0 /\ ~ In (q_id q) (map item_id sent)) /\
  (forall it r, In it sent -> In r (tasks (db (world s))) ->
                row_id r = item_task_id it -> row_sync_status r = synced).

End Invariants.

(* ================================================================== *)
(** ** A concrete scenario *)
(* ================================================================== *)

(** Calendar dates, a fixed configuration and a small database, on which the
    statements below are exercised. *)
Module Scenario.

Import TaskService SyncService.

Definition digit (c : ascii) : option Z :=
  let n := Z.of_N (N_of_ascii c) in
  if (48 <=? n) && (n <=? 57) then Some (n - 48) else None.

Fixpoint number (acc : Z) (s : list ascii) : option Z :=
  match s with
  | [] => Some acc
  | c :: s' =>
      match digit c with
      | Some d => number (acc * 10 + d) s'
      | None => None
      end
  end.

Definition days_from_civil (y m d : Z) : Z :=
  let y' := if m <=? 2 then y - 1 else y in
  let era := y' / 400 in
  let yoe := y' - era * 400 in
  let doy := (153 * (if 2 <? m then m - 3 else m + 9) + 2) / 5 + d - 1 in
  let doe := yoe * 365 + yoe / 4 - yoe / 100 + doy in
  era * 146097 + doe - 719468.

(** [Date.parse] on the date-only form [YYYY-MM-DD], which is read as UTC;
    every other text is an invalid date here. *)
Definition utc_date (s : string) : option Z :=
  match list_ascii_of_string s with
  | [y1; y2; y3; y4; "-"%char; m1; m2; "-"%char; d1; d2] =>
      match number 0 [y1; y2; y3; y4], number 0 [m1; m2], number 0 [d1; d2] with
      | Some y, Some m, Some d =>
          if (1 <=? m) && (m <=? 12) && (1 <=? d) && (d <=? 31)
          then Some (days_from_civil y m d * 86400000)
          else None
      | _, _, _ => None
      end
  | _ => None
  end.

Definition stamp (n : nat) : string :=
  String.append "2024-01-03T00:00:00.00" (String (ascii_of_nat (48 + n mod 10)) "Z").

(** A server that answers nothing useful until told otherwise. *)
Definition server_down : nat -> BatchSyncRequest -> option BatchSyncResponse :=
  fun _ _ => None.

Definition env (online : bool)
    (server : nat -> BatchSyncRequest -> option BatchSyncResponse) : Env :=
  mkEnv 3 50 utc_date stamp (fun n => 1704240000 + Z.of_nat n)
        (fun n => String.append "uuid-" (String (ascii_of_nat (97 + n mod 26)) ""))
        (fun _ => online) server.

Definition task (tid ttl upd : string) (deleted : Z) : TaskRow :=
  mkTaskRow tid ttl (Some "") 0 "2024-01-01" upd deleted pending None None.

Definition queued (qid tid : string) (op : Operation) (at_ : Z) (retries : Z) : QueueRow :=
  mkQueueRow qid tid op "{}" at_ (Some retries) None None.

Definition row1 : QueueRow := queued "q1" "t1" update 10 0.
Definition row2 : QueueRow := queued "q2" "t2" delete 20 2.
Definition row3 : QueueRow := queued "q3" "t1" update 5 3.

Definition task1 : TaskRow := task "t1" "write" "2024-01-02" 0.
Definition task2 : TaskRow := task "t2" "read" "2024-01-01" 1.

(** Task [t1] is live with one pending update and one poisoned update; task
    [t2] is soft-deleted with a delete that has failed twice. *)
Definition db0 : Database :=
  mkDatabase [task1; task2] [row1; row2; row3]
             [("last_sync_timestamp", "never")].

Definition w0 : World := mkWorld db0 0 0 0.

Definition s0 : SyncState := mkSyncState w0 initial_result.

Definition item1 : SyncQueueItem := item_of_row row1.
Definition item2 : SyncQueueItem := item_of_row row2.

Definition offline : Env := env false server_down.
Definition online : Env := env true server_down.

Definition timeout : Exn := mkError "timeout of 15000ms exceeded".

Definition remote (upd : string) : Task :=
  mkTask "t1" "written" Undefined true "2024-01-01" upd false None (Text "srv-1") None.

Definition answer (cid : string) (v : Verdict) (data : option Task) (sid : option string)
  : ProcessedItem :=
  mkProcessed cid v data sid None.

(** A snapshot as [updateTask] would pass it. *)
Definition snapshot1 : JValue :=
  JObj [("id", JStr "t1"); ("title", JStr "write"); ("completed", JBool false);
        ("server_id", JNull)].

(** A [success] answer for [q1] that names no [server_id]. *)
Definition bare_success : ProcessedItem := answer "q1" VSuccess None None.

Definition full_success : ProcessedItem :=
  answer "q1" VSuccess (Some (remote "2024-01-02")) (Some "srv-1").

(** Conflict answers: the server's copy of [t1] is a day older, and the
    server's copy of the soft-deleted [t2]. *)
Definition stale_conflict : ProcessedItem :=
  answer "q1" VConflict (Some (remote "2024-01-01")) None.

Definition deleted_conflict : ProcessedItem :=
  answer "q2" VConflict (Some (remote "2024-01-03")) None.

(** Three tasks with one pending operation each, and a server that accepts
    whatever it is sent. *)
Definition db3 : Database :=
  mkDatabase
    [task "a" "one" "2024-01-01" 0; task "b" "two" "2024-01-01" 0;
     task "c" "three" "2024-01-02" 1]
    [queued "qa" "a" create 1 0; queued "qb" "b" update 2 0;
     queued "qc" "c" delete 3 0]
    [("last_sync_timestamp", "never")].

Definition accept (bi : BatchItem) : ProcessedItem :=
  mkProcessed (bi_id bi) VSuccess None (Some (String.append "srv-" (bi_task_id bi))) None.

Definition accepting : nat -> BatchSyncRequest -> option BatchSyncResponse :=
  fun _ req => Some (mkResponse (Some (map accept (items req)))).

End Scenario.

(** More of the scenario: the task repository wired to the sync service, an
    overwrite that brings [t2] back, and a few answers of the server. *)
Module MoreScenarios.

Import TaskService SyncService TaskRepository Routes Scenario.

Definition sql_text (z : Z) : string :=
  String.append "2024-01-03 00:00:0" (String (ascii_of_nat (48 + Z.to_nat (z mod 10))) "").

Definition store0 : Store := mkStore online sql_text true.

Definition revive : PartialTask :=
  mkPartial (Some "read again") Undefined None None (Some false) Undefined.

Definition retitle : PartialTask :=
  mkPartial (Some "rewrite") Undefined (Some true) None None Undefined.

(** An overwrite that passes [null] as the description. *)
Definition forget : PartialTask :=
  mkPartial None Null None None None Undefined.

(** The server's copy of [t1] is a day newer than the local one. *)
Definition newer_conflict : ProcessedItem :=
  answer "q1" VConflict (Some (remote "2024-01-03")) None.

(** The server's copy of [t1] carries a date that does not parse. *)
Definition undated_conflict : ProcessedItem :=
  answer "q1" VConflict (Some (remote "yesterday")) None.

Definition rejected : ProcessedItem :=
  mkProcessed "q1" VOther None None (Some "title too long").


(** A server that accepts [q1] and then reports a conflict on it with an
    undated copy. *)
Definition confused : nat -> BatchSyncRequest -> option BatchSyncResponse :=
  fun _ _ => Some (mkResponse (Some [full_success; undated_conflict])).

(** Every row of the queue has used up its retries. *)
Definition db_poisoned : Database :=
  mkDatabase [task1; task2] [row3; queued "q4" "t2" delete 30 5]
             [("last_sync_timestamp", "never")].

End MoreScenarios.

(* ================================================================== *)
(** ** JSON: printing then parsing *)
(* ================================================================== *)

Module JsonFacts.

Import Json.

(** Induction over values that reaches the members of an object. *)
Lemma JValue_members_ind (P : JValue -> Prop) :
  P JNull -> (forall b, P (JBool b)) -> (forall s, P (JStr s)) ->
  (forall fields, Forall (fun kv => P (snd kv)) fields -> P (JObj fields)) ->
  forall v, P v.
Proof.
  intros Hnull Hbool Hstr Hobj. fix IH 1.
  intros [|b|s|fields]; [exact Hnull | apply Hbool | apply Hstr |].
  apply Hobj. induction fields as [|kv l IHl]; constructor; [apply IH | exact IHl].
Qed.

Lemma print_obj fields :
  print (JObj fields) = "{"%char :: print_members fields ++ ["}"%char].
Proof. reflexivity. Qed.

Lemma wf_obj fields :
  wf (JObj fields) <-> NoDup (map fst fields) /\ Forall (fun kv => wf (snd kv)) fields.
Proof.
  simpl. apply and_iff_compat_l.
  induction fields as [|kv l IH].
  - split; intros; [constructor | exact I].
  - split.
    + intros [H1 H2]. constructor; [exact H1 | apply IH, H2].
    + intros H. inversion H; subst. split; [assumption | apply IH; assumption].
Qed.

(** Reading back one escaped code unit. *)
Lemma parse_body_escape_char c fuel tl :
  parse_body (S fuel) (escape_char c ++ tl) =
  match parse_body fuel tl with
  | Some (xs, rest) => Some (c :: xs, rest)
  | None => None
  end.
Proof.
  destruct c as [[] [] [] [] [] [] [] []]; reflexivity.
Qed.

Lemma parse_body_escape s : forall fuel rest,
  (List.length s < fuel)%nat ->
  parse_body fuel (escape s ++ dquote :: rest) = Some (s, rest).
Proof.
  induction s as [|c s IH]; intros fuel rest Hf.
  - destruct fuel; [lia|]. reflexivity.
  - destruct fuel; [simpl in Hf; lia|].
    simpl escape. rewrite <- app_assoc, parse_body_escape_char.
    rewrite IH by (simpl in Hf; lia). reflexivity.
Qed.

Lemma escape_length s : (List.length s <= List.length (escape s))%nat.
Proof.
  induction s as [|c s IH]; [simpl; lia|].
  simpl. rewrite length_app.
  assert (1 <= List.length (escape_char c))%nat.
  { destruct c as [[] [] [] [] [] [] [] []]; simpl; lia. }
  lia.
Qed.

Lemma parse_string_quote s rest :
  parse_string (quote s ++ rest) = Some (s, rest).
Proof.
  unfold quote. rewrite <- app_comm_cons, <- app_assoc.
  change ([dquote] ++ rest) with (dquote :: rest).
  unfold parse_string. rewrite Ascii.eqb_refl, parse_body_escape.
  - rewrite string_of_list_ascii_of_string. reflexivity.
  - rewrite length_app. pose proof (escape_length (list_ascii_of_string s)).
    simpl. lia.
Qed.

Lemma quote_head s tl : exists tl', quote s ++ tl = dquote :: tl'.
Proof. unfold quote. simpl. eauto. Qed.

Lemma quote_length s : (2 <= List.length (quote s))%nat.
Proof. unfold quote. simpl. rewrite length_app. simpl. lia. Qed.

(** A printed value starts with a character that is neither white space nor
    a closing brace. *)
Lemma print_head v tl :
  exists c tl', print v ++ tl = c :: tl' /\ is_ws c = false
                /\ Ascii.eqb c "}"%char = false.
Proof.
  destruct v as [|[]|s|fields]; simpl; eauto 6.
Qed.

Lemma skip_ws_print v tl : skip_ws (print v ++ tl) = print v ++ tl.
Proof.
  destruct (print_head v tl) as (c & tl' & -> & Hws & _).
  simpl. rewrite Hws. reflexivity.
Qed.

Lemma print_length v : (2 <= List.length (print v))%nat.
Proof.
  destruct v as [|[]|s|fields]; try (simpl; lia).
  - apply quote_length.
  - rewrite print_obj. simpl. rewrite length_app. simpl. lia.
Qed.

Lemma obj_set_fresh acc k v :
  ~ In k (map fst acc) -> obj_set acc k v = acc ++ [(k, v)].
Proof.
  induction acc as [|[k' v'] acc IH]; intros Hk; [reflexivity|].
  simpl in *. destruct (String.eqb_spec k' k) as [->|Hne].
  - exfalso. apply Hk. now left.
  - rewrite IH; [reflexivity|]. intros Hin. apply Hk. now right.
Qed.

Lemma parse_members_step fuel acc s :
  parse_members (S fuel) acc s =
  match parse_string s with
  | None => None
  | Some (k, s1) =>
      match skip_ws s1 with
      | c :: s2 =>
          if Ascii.eqb c ":"%char then
            match parse_value fuel (skip_ws s2) with
            | None => None
            | Some (v, s3) =>
                match skip_ws s3 with
                | d :: s4 =>
                    if Ascii.eqb d "}"%char then Some (JObj (obj_set acc k v), s4)
                    else if Ascii.eqb d ","%char then
                      parse_members fuel (obj_set acc k v) (skip_ws s4)
                    else None
                | [] => None
                end
            end
          else None
      | [] => None
      end
  end.
Proof. reflexivity. Qed.

Lemma parse_value_object fuel s1 :
  parse_value (S fuel) ("{"%char :: s1) =
  match skip_ws s1 with
  | c2 :: s2 =>
      if Ascii.eqb c2 "}"%char then Some (JObj [], s2)
      else parse_members fuel [] (c2 :: s2)
  | [] => None
  end.
Proof. reflexivity. Qed.

Lemma print_members_head kv l tl :
  exists tl', print_members (kv :: l) ++ tl = dquote :: tl'.
Proof.
  cbn [print_members]. unfold quote. rewrite <- !app_comm_cons. eauto.
Qed.

Lemma parse_members_print fields :
  Forall (fun kv => reads_back (snd kv)) fields ->
  fields <> [] ->
  forall acc fuel rest,
    NoDup (map fst acc ++ map fst fields) ->
    (List.length (print_members fields) < fuel)%nat ->
    parse_members fuel acc (print_members fields ++ "}"%char :: rest)
    = Some (JObj (acc ++ fields), rest).
Proof.
  induction 1 as [|[k v] l Hv Hl IH]; intros Hne acc fuel rest Hdup Hfuel;
    [congruence|].
  destruct fuel as [|fuel]; [lia|].
  assert (Hk : ~ In k (map fst acc)).
  { intros Hin. simpl in Hdup. apply NoDup_remove_2 in Hdup.
    apply Hdup, in_or_app. now left. }
  cbn [print_members fst snd] in *.
  rewrite length_app in Hfuel. cbn [List.length] in Hfuel.
  rewrite length_app in Hfuel. pose proof (quote_length k) as Hq.
  rewrite parse_members_step.
  rewrite <- app_assoc, parse_string_quote.
  rewrite <- app_comm_cons.
  change (skip_ws (":"%char :: ?x)) with (":"%char :: x).
  cbv beta iota.
  rewrite Ascii.eqb_refl, <- app_assoc, skip_ws_print.
  rewrite (Hv fuel) by lia.
  rewrite (obj_set_fresh _ _ _ Hk).
  destruct l as [|kv' l'].
  - reflexivity.
  - rewrite <- app_comm_cons.
    change (skip_ws (","%char :: ?x)) with (","%char :: x).
    cbv beta iota.
    change (Ascii.eqb ","%char "}"%char) with false.
    rewrite Ascii.eqb_refl. cbv iota.
    destruct (print_members_head kv' l' ("}"%char :: rest)) as [tl' Htl].
    rewrite Htl. change (skip_ws (dquote :: tl')) with (dquote :: tl').
    rewrite <- Htl.
    rewrite IH.
    + rewrite <- app_assoc. reflexivity.
    + discriminate.
    + rewrite map_app, <- app_assoc. exact Hdup.
    + cbn [List.length] in Hfuel. lia.
Qed.

Lemma parse_value_print v : wf v -> reads_back v.
Proof.
  induction v as [|b|s|fields IH] using JValue_members_ind;
    intros Hwf fuel rest Hfuel.
  - destruct fuel; [simpl in Hfuel; lia|]. reflexivity.
  - destruct fuel; [destruct b; simpl in Hfuel; lia|]. destruct b; reflexivity.
  - pose proof (quote_length s). destruct fuel; [simpl in Hfuel; lia|].
    cbn [print]. destruct (quote_head s rest) as [tl Htl].
    rewrite Htl. cbn [parse_value]. rewrite Ascii.eqb_refl.
    change (Ascii.eqb dquote "{"%char) with false. cbv iota.
    rewrite <- Htl, parse_string_quote. reflexivity.
  - apply wf_obj in Hwf. destruct Hwf as [Hdup Hall].
    rewrite print_obj in *. cbn [List.length] in Hfuel.
    rewrite length_app in Hfuel. cbn [List.length] in Hfuel.
    destruct fuel as [|fuel]; [lia|].
    rewrite <- app_comm_cons, parse_value_object, <- app_assoc.
    change (["}"%char] ++ rest) with ("}"%char :: rest).
    destruct fields as [|kv l].
    + reflexivity.
    + destruct (print_members_head kv l ("}"%char :: rest)) as [tl Htl].
      rewrite Htl. change (skip_ws (dquote :: tl)) with (dquote :: tl).
      change (Ascii.eqb dquote "}"%char) with false. cbv iota.
      rewrite <- Htl. apply (parse_members_print (kv :: l)).
      * rewrite Forall_forall in *. intros x Hx. apply IH; [exact Hx|].
        apply Hall, Hx.
      * discriminate.
      * exact Hdup.
      * lia.
Qed.

(** [JSON.parse(JSON.stringify(v))] gives [v] back. *)
Lemma parse_stringify v : wf v -> parse (stringify v) = Some v.
Proof.
  intros Hwf. unfold parse, stringify.
  rewrite list_ascii_of_string_of_list_ascii.
  rewrite <- (app_nil_r (print v)) at 2.
  rewrite skip_ws_print, app_nil_r.
  rewrite <- (app_nil_r (print v)) at 2.
  rewrite (parse_value_print v Hwf) by lia. reflexivity.
Qed.

Lemma stringify_not_empty v : String.eqb (stringify v) "" = false.
Proof.
  unfold stringify. destruct (print_head v []) as (c & tl & H & _).
  rewrite app_nil_r in H. rewrite H. reflexivity.
Qed.

End JsonFacts.

(* ================================================================== *)
(** ** Running computations *)
(* ================================================================== *)

Module Run.

Lemma bind_value {S A B} (c : M S A) (k : A -> M S B) s a s' :
  c s = (inr a, s') -> bind c k s = k a s'.
Proof. unfold bind. intros ->. reflexivity. Qed.


Lemma in_world_value {A} (c : M World A) s a w' :
  c (world s) = (inr a, w') ->
  in_world c s = (inr a, mkSyncState w' (result s)).
Proof. unfold in_world. intros ->. reflexivity. Qed.


(** A loop whose body never throws runs to its end. *)
Lemma for_each_total {S A} (body : A -> M S unit) :
  (forall x s, fst (body x s) = inr tt) ->
  forall xs s, fst (for_each xs body s) = inr tt.
Proof.
  intros Hbody xs. induction xs as [|x xs IH]; intros s; [reflexivity|].
  simpl. unfold bind. specialize (Hbody x s).
  destruct (body x s) as [[e|[]] s']; simpl in Hbody; [discriminate|].
  apply IH.
Qed.

Lemma for_each_cons {S A} (body : A -> M S unit) x xs s :
  fst (body x s) = inr tt ->
  for_each (x :: xs) body s = for_each xs body (exec (body x) s).
Proof.
  intros H. simpl. unfold bind, exec.
  destruct (body x s) as [[e|[]] s']; simpl in *; [discriminate|reflexivity].
Qed.

Lemma total_run {S} (c : M S unit) s :
  fst (c s) = inr tt -> c s = (inr tt, exec c s).
Proof.
  unfold exec. destruct (c s) as [[e|[]] s']; simpl; intros H;
    [discriminate|reflexivity].
Qed.

End Run.

(* ================================================================== *)
(** ** Tables *)
(* ================================================================== *)

Module Tables.

Import TaskService SyncService.

Lemma update_tasks_ids f taskId d :
  (forall r, row_id (f r) = row_id r) ->
  map row_id (tasks (update_tasks f taskId d)) = map row_id (tasks d).
Proof.
  intros Hf. simpl. rewrite map_map. apply map_ext.
  intros r. destruct (String.eqb (row_id r) taskId); [apply Hf|reflexivity].
Qed.

Lemma update_tasks_in f taskId d r' :
  In r' (tasks (update_tasks f taskId d)) ->
  exists r, In r (tasks d) /\
            r' = if String.eqb (row_id r) taskId then f r else r.
Proof.
  simpl. rewrite in_map_iff. intros (r & <- & Hin). eauto.
Qed.

Lemma set_status_id st now data r : row_id (set_status st now data r) = row_id r.
Proof. reflexivity. Qed.

Lemma set_local_id u r : row_id (set_local u r) = row_id r.
Proof. reflexivity. Qed.

(** After [UPDATE tasks SET sync_status = ?, last_synced_at = ?, ...], every
    row of that id carries the status and the time of the call. *)
Lemma update_status_rows st now data taskId d r :
  In r (tasks (update_tasks (set_status st now data) taskId d)) ->
  row_id r = taskId ->
  row_sync_status r = st /\ row_last_synced_at r = Some now.
Proof.
  intros Hin Hid. apply update_tasks_in in Hin. destruct Hin as (r0 & _ & ->).
  destruct (String.eqb_spec (row_id r0) taskId) as [_|Hne]; [split; reflexivity|].
  contradiction.
Qed.

Lemma record_error_ids qid n msg now d :
  map q_id (sync_queue (record_error qid n msg now d)) = map q_id (sync_queue d).
Proof.
  simpl. rewrite map_map. apply map_ext.
  intros q. destruct (String.eqb (q_id q) qid); reflexivity.
Qed.

Lemma record_error_in qid n msg now d q' :
  In q' (sync_queue (record_error qid n msg now d)) ->
  exists q, In q (sync_queue d) /\ q_id q' = q_id q /\
    ((q_id q = qid /\ q_retry_count q' = Some n /\ q_last_error q' = Some msg
      /\ q_updated_at q' = Some now)
     \/ (q_id q <> qid /\ q' = q)).
Proof.
  simpl. rewrite in_map_iff. intros (q & <- & Hin). exists q. split; [exact Hin|].
  destruct (String.eqb_spec (q_id q) qid) as [Heq|Hne]; simpl; auto 10.
Qed.

Lemma record_error_hit qid n msg now d q :
  In q (sync_queue d) -> q_id q = qid ->
  In (mkQueueRow (q_id q) (q_task_id q) (q_operation q) (q_data q) (q_created_at q)
                 (Some n) (Some msg) (Some now))
     (sync_queue (record_error qid n msg now d)).
Proof.
  intros Hin Hid. simpl. apply in_map_iff. exists q. split; [|exact Hin].
  rewrite <- Hid, String.eqb_refl. reflexivity.
Qed.

Lemma record_error_miss qid n msg now d q :
  In q (sync_queue d) -> q_id q <> qid ->
  In q (sync_queue (record_error qid n msg now d)).
Proof.
  intros Hin Hid. simpl. apply in_map_iff. exists q. split; [|exact Hin].
  destruct (String.eqb_spec (q_id q) qid); [contradiction|reflexivity].
Qed.

Lemma record_error_tasks qid n msg now d :
  tasks (record_error qid n msg now d) = tasks d.
Proof. reflexivity. Qed.

Lemma delete_queue_in qid d q :
  In q (sync_queue (delete_queue qid d)) <-> In q (sync_queue d) /\ q_id q <> qid.
Proof.
  simpl. rewrite filter_In.
  destruct (String.eqb_spec (q_id q) qid); simpl; intuition congruence.
Qed.

(** What [handleSyncError] leaves behind, spelled out. *)
Lemma handleSyncError_run E item err w :
  handleSyncError E item err w =
  (inr tt,
   let d := record_error (item_id item) (retry_of item + 1) (message err)
                         (iso_now E (ticks w)) (db w) in
   if MAX_RETRY E <=? retry_of item + 1
   then mkWorld (update_tasks (set_status error (iso_now E (S (ticks w))) None)
                              (item_task_id item) d)
                (S (S (ticks w))) (uuids w) (requests w)
   else mkWorld d (S (ticks w)) (uuids w) (requests w)).
Proof.
  unfold handleSyncError, bind, new_Date, modify, with_db. simpl.
  destruct (MAX_RETRY E <=? retry_of item + 1); reflexivity.
Qed.

Lemma handleSyncError_total E item err w :
  fst (handleSyncError E item err w) = inr tt.
Proof. rewrite handleSyncError_run. reflexivity. Qed.

Lemma handleSyncError_queue E item err w :
  sync_queue (db (exec (handleSyncError E item err) w)) =
  sync_queue (record_error (item_id item) (retry_of item + 1) (message err)
                           (iso_now E (ticks w)) (db w)).
Proof.
  unfold exec. rewrite handleSyncError_run. simpl.
  destruct (MAX_RETRY E <=? retry_of item + 1); reflexivity.
Qed.

Lemma handleSyncError_task_ids E item err w :
  map row_id (tasks (db (exec (handleSyncError E item err) w))) =
  map row_id (tasks (db w)).
Proof.
  unfold exec. rewrite handleSyncError_run. cbn [snd].
  destruct (MAX_RETRY E <=? retry_of item + 1); cbn [db]; [|reflexivity].
  rewrite update_tasks_ids; [reflexivity|]. intros; apply set_status_id.
Qed.

Lemma handleSyncError_poisoned E item err w r :
  MAX_RETRY E <= retry_of item + 1 ->
  In r (tasks (db (exec (handleSyncError E item err) w))) ->
  row_id r = item_task_id item ->
  row_sync_status r = error /\ row_last_synced_at r = Some (iso_now E (S (ticks w))).
Proof.
  intros Hmax. unfold exec. rewrite handleSyncError_run. cbn [snd].
  apply Z.leb_le in Hmax. rewrite Hmax. cbn [db].
  apply update_status_rows.
Qed.

Lemma handleSyncError_below E item err w :
  retry_of item + 1 < MAX_RETRY E ->
  tasks (db (exec (handleSyncError E item err) w)) = tasks (db w).
Proof.
  intros Hlt. unfold exec. rewrite handleSyncError_run. cbn [snd].
  apply Z.leb_gt in Hlt. rewrite Hlt. reflexivity.
Qed.

End Tables.

(* ================================================================== *)
(** ** Conflict resolution, the offline cycle and retry accounting *)
(* ================================================================== *)

Module SyncFacts.

Import TaskService SyncService Run Tables.

Section WithEnv.

Variable E : Env.

Lemma resolveConflict_valid localTask serverTask t1 t2 :
  getTime E (updated_at localTask) = Some t1 ->
  getTime E (updated_at serverTask) = Some t2 ->
  resolveConflict E localTask serverTask
  = inr (if t2 <=? t1 then LocalTask else ServerTask).
Proof.
  intros H1 H2. unfold resolveConflict, toISOString_ok, js_ge.
  rewrite H1, H2. destruct (t2 <=? t1); simpl; rewrite H1, H2; reflexivity.
Qed.

Lemma resolveConflict_returns localTask serverTask w :
  resolveConflict E localTask serverTask = inr w ->
  exists t1 t2,
    getTime E (updated_at localTask) = Some t1 /\
    getTime E (updated_at serverTask) = Some t2.
Proof.
  unfold resolveConflict, toISOString_ok, js_ge, getTime.
  destruct (date_parse E (updated_at localTask)) as [t1|] eqn:H1;
    destruct (date_parse E (updated_at serverTask)) as [t2|] eqn:H2;
    simpl; try (destruct (t2 <=? t1); simpl); rewrite ?H1, ?H2;
    intros H; try discriminate; eauto.
Qed.

(** C1.  [resolveConflict] returns the local task exactly when both
    [updated_at] values are dates and the local one is not earlier than the
    remote one, and the remote task exactly when the remote date is strictly
    later; the outcome depends on nothing but the two [updated_at] values. *)
Theorem resolveConflict_lww (localTask serverTask : Task) :
  (resolveConflict E localTask serverTask = inr LocalTask <->
   exists t1 t2, getTime E (updated_at localTask) = Some t1 /\
                 getTime E (updated_at serverTask) = Some t2 /\ t1 >= t2) /\
  (resolveConflict E localTask serverTask = inr ServerTask <->
   exists t1 t2, getTime E (updated_at localTask) = Some t1 /\
                 getTime E (updated_at serverTask) = Some t2 /\ t1 < t2) /\
  (forall localTask' serverTask',
     updated_at localTask' = updated_at localTask ->
     updated_at serverTask' = updated_at serverTask ->
     resolveConflict E localTask' serverTask' = resolveConflict E localTask serverTask).
Proof.
  split; [|split].
  - split.
    + intros H. destruct (resolveConflict_returns _ _ _ H) as (t1 & t2 & H1 & H2).
      exists t1, t2. rewrite (resolveConflict_valid _ _ _ _ H1 H2) in H.
      destruct (Z.leb_spec t2 t1); [auto with zarith | discriminate].
    + intros (t1 & t2 & H1 & H2 & Hge).
      rewrite (resolveConflict_valid _ _ _ _ H1 H2).
      destruct (Z.leb_spec t2 t1); [reflexivity | lia].
  - split.
    + intros H. destruct (resolveConflict_returns _ _ _ H) as (t1 & t2 & H1 & H2).
      exists t1, t2. rewrite (resolveConflict_valid _ _ _ _ H1 H2) in H.
      destruct (Z.leb_spec t2 t1); [discriminate | auto].
    + intros (t1 & t2 & H1 & H2 & Hlt).
      rewrite (resolveConflict_valid _ _ _ _ H1 H2).
      destruct (Z.leb_spec t2 t1); [lia | reflexivity].
  - intros l' s' Hl Hs. unfold resolveConflict.
    destruct (js_ge _ _) eqn:Hge1; rewrite Hl, Hs in Hge1; rewrite Hge1;
      simpl; rewrite Hl, Hs; reflexivity.
Qed.

(** C2.  When the connectivity check fails, [sync] returns at once with
    [success = false] and both counts at zero, and the three tables, the
    clock and the uuid generator are as they were. *)
Theorem sync_offline (w : World) :
  health E (requests w) = false ->
  fst (sync E w) = mkResult false 0 0 [] /\
  db (snd (sync E w)) = db w /\
  tasks (db (snd (sync E w))) = tasks (db w) /\
  sync_queue (db (snd (sync E w))) = sync_queue (db w) /\
  meta (db (snd (sync E w))) = meta (db w) /\
  ticks (snd (sync E w)) = ticks w /\
  uuids (snd (sync E w)) = uuids w.
Proof.
  intros Hoff.
  unfold sync, exec, sync_cycle, bind, in_world, checkConnectivity. simpl.
  rewrite Hoff. simpl. repeat split; reflexivity.
Qed.

(** C3.  For a queue item and an error, [handleSyncError] returns
    normally; every row of the item's id now carries the item's
    [retry_count] plus one, the error message and the time of the call, so a
    row the item was read from has its own count raised by exactly one; no
    row is removed and the rows of other ids are untouched; when the new
    count reaches [MAX_RETRY] every task row of the item's task has status
    [error], and below it the tasks are untouched. *)
Theorem handleSyncError_accounting (w : World) (item : SyncQueueItem) (err : Exn) :
  let w' := exec (handleSyncError E item err) w in
  let next := retry_of item + 1 in
  fst (handleSyncError E item err w) = inr tt /\
  (forall q', In q' (sync_queue (db w')) -> q_id q' = item_id item ->
     q_retry_count q' = Some next /\
     q_last_error q' = Some (message err) /\
     q_updated_at q' = Some (iso_now E (ticks w))) /\
  (forall q, In q (sync_queue (db w)) -> q_id q = item_id item ->
     q_retry_count q = item_retry_count item ->
     In (mkQueueRow (q_id q) (q_task_id q) (q_operation q) (q_data q)
                    (q_created_at q) (Some (or_else (q_retry_count q) 0 + 1))
                    (Some (message err)) (Some (iso_now E (ticks w))))
        (sync_queue (db w'))) /\
  map q_id (sync_queue (db w')) = map q_id (sync_queue (db w)) /\
  (forall o, In o (sync_queue (db w)) -> q_id o <> item_id item ->
     In o (sync_queue (db w'))) /\
  map row_id (tasks (db w')) = map row_id (tasks (db w)) /\
  (MAX_RETRY E <= next ->
   forall r, In r (tasks (db w')) -> row_id r = item_task_id item ->
     row_sync_status r = error) /\
  (next < MAX_RETRY E -> tasks (db w') = tasks (db w)).
Proof.
  intros w' next. subst w' next.
  split; [apply handleSyncError_total|].
  rewrite handleSyncError_queue.
  split; [|split; [|split; [|split; [|split; [|split]]]]].
  - intros q' Hq' Hid. apply record_error_in in Hq'.
    destruct Hq' as (q0 & _ & Hid0 & [(_ & H1 & H2 & H3) | (Hne & ->)]).
    + auto.
    + contradiction.
  - intros q Hin Hid Hcount. rewrite Hcount.
    apply record_error_hit; assumption.
  - apply record_error_ids.
  - intros o Ho Hne. apply record_error_miss; assumption.
  - apply handleSyncError_task_ids.
  - intros Hmax r Hr Hid.
    apply (handleSyncError_poisoned E item err w r Hmax Hr Hid).
  - apply handleSyncError_below.
Qed.

(** C9, as the code has it.  The retry ceiling marks the task through
    [updateSyncStatus], and [updateSyncStatus] stamps [last_synced_at] with
    the time of the call whatever the status.  After the transition every
    row of the item's task has status [error] and [last_synced_at] equal to
    the time of this failed attempt, with its other columns as they were: a
    task that was never synced now has a time, and for a task that a
    [success] answer had marked [synced] the time of that success is
    replaced.  The step counts one failure and no success.  The rows of
    other tasks are untouched, so it is for the item's task, not for every
    task, that [last_synced_at] stops being the time of the last successful
    sync. *)
Theorem handleSyncError_poison_stamps_last_synced_at
    (w : World) (item : SyncQueueItem) (err : Exn) :
  MAX_RETRY E <= retry_of item + 1 ->
  let w' := exec (handleSyncError E item err) w in
  let recorded :=
    mkWorld (record_error (item_id item) (retry_of item + 1) (message err)
                          (iso_now E (ticks w)) (db w))
            (S (ticks w)) (uuids w) (requests w) in
  let failed_at := iso_now E (S (ticks w)) in
  w' = exec (updateSyncStatus E (item_task_id item) error None) recorded /\
  (forall st data w0 r,
     In r (tasks (db (exec (updateSyncStatus E (item_task_id item) st data) w0))) ->
     row_id r = item_task_id item ->
     row_last_synced_at r = Some (iso_now E (ticks w0))) /\
  map row_id (tasks (db w')) = map row_id (tasks (db w)) /\
  (forall r, In r (tasks (db w')) -> row_id r = item_task_id item ->
     row_sync_status r = error /\
     row_last_synced_at r = Some failed_at) /\
  (forall r0, In r0 (tasks (db w)) -> row_id r0 = item_task_id item ->
     In (mkTaskRow (row_id r0) (row_title r0) (row_description r0)
                   (row_completed r0) (row_created_at r0) (row_updated_at r0)
                   (row_is_deleted r0) error (row_server_id r0) (Some failed_at))
        (tasks (db w'))) /\
  (forall r, row_id r <> item_task_id item ->
     (In r (tasks (db w')) <-> In r (tasks (db w)))) /\
  (forall s, world s = w ->
     let s' := exec (fail_item E err item) s in
     tasks (db (world s')) = tasks (db w') /\
     synced_items (result s') = synced_items (result s) /\
     failed_items (result s') = failed_items (result s) + 1) /\
  (forall batch p qi s0,
     byClientId_get batch (client_id p) = Some qi ->
     status p = VSuccess ->
     item_task_id qi = item_task_id item ->
     world (exec (reconcile E batch p) s0) = w ->
     let synced_at := iso_now E (ticks (world s0)) in
     synced_items (result (exec (reconcile E batch p) s0))
     = synced_items (result s0) + 1 /\
     (forall r, In r (tasks (db w)) -> row_id r = item_task_id item ->
        row_sync_status r = synced /\ row_last_synced_at r = Some synced_at) /\
     failed_at = iso_now E (3 + ticks (world s0)) /\
     (failed_at <> synced_at ->
      forall r, In r (tasks (db w')) -> row_id r = item_task_id item ->
        row_last_synced_at r <> Some synced_at)).
Proof.
  intros Hmax w' recorded failed_at.
  assert (Hw' : w' = mkWorld (update_tasks (set_status error failed_at None)
                                (item_task_id item)
                                (record_error (item_id item) (retry_of item + 1)
                                   (message err) (iso_now E (ticks w)) (db w)))
                             (S (S (ticks w))) (uuids w) (requests w)).
  { subst w'. unfold exec. rewrite handleSyncError_run. cbn [snd].
    apply Z.leb_le in Hmax. rewrite Hmax. reflexivity. }
  assert (Hstamped : forall r, In r (tasks (db w')) -> row_id r = item_task_id item ->
            row_sync_status r = error /\ row_last_synced_at r = Some failed_at).
  { intros r. apply handleSyncError_poisoned. exact Hmax. }
  split; [rewrite Hw'; reflexivity|].
  split.
  { intros st data w0 r Hr Hid.
    apply (update_status_rows st _ data _ _ r Hr Hid). }
  split; [apply handleSyncError_task_ids|].
  split; [exact Hstamped|].
  split.
  { intros r0 Hr0 Hid. rewrite Hw'. cbn [db update_tasks tasks record_error].
    apply in_map_iff. exists r0. split; [|exact Hr0].
    destruct (String.eqb_spec (row_id r0) (item_task_id item));
      [reflexivity | contradiction]. }
  split.
  { intros r Hne. rewrite Hw'. cbn [db update_tasks tasks record_error]. split.
    - intros Hr. apply in_map_iff in Hr. destruct Hr as (r0 & Heq & Hr0).
      destruct (String.eqb_spec (row_id r0) (item_task_id item)) as [Hid|_].
      + exfalso. subst r. apply Hne. exact Hid.
      + subst r. exact Hr0.
    - intros Hr. apply in_map_iff. exists r.
      rewrite (proj2 (String.eqb_neq _ _) Hne). auto. }
  split.
  { intros s Hs s'.
    assert (Hrun : fail_item E err item s
              = (inr tt,
                 mkSyncState (tick (exec (handleSyncError E item err) (world s)))
                   (mkResult (success (result s)) (synced_items (result s))
                      (failed_items (result s) + 1)
                      (errors (result s)
                       ++ [mkSyncError (item_task_id item) (item_operation item)
                             (if String.eqb (message err) ""
                              then "Batch failed" else message err)
                             (iso_now E (ticks (exec (handleSyncError E item err)
                                                     (world s))))])))).
    { unfold fail_item. unfold bind at 1.
      rewrite (in_world_value _ s tt (exec (handleSyncError E item err) (world s)))
        by (apply total_run, handleSyncError_total).
      reflexivity. }
    assert (Hs' : s' = snd (fail_item E err item s)) by reflexivity.
    rewrite Hrun in Hs'. cbn [snd] in Hs'. rewrite Hs in Hs'. fold w' in Hs'.
    rewrite Hs'. repeat split. }
  intros batch p qi s0 Hget Hst Htask Hw synced_at.
  assert (Hafter : exec (reconcile E batch p) s0
            = mkSyncState
                (with_db (set_meta "last_sync_timestamp"
                            (iso_now E (S (ticks (world s0)))))
                   (tick (with_db (delete_queue (item_id qi))
                            (with_db (update_tasks
                                        (set_status synced synced_at
                                           (Some (success_data p)))
                                        (item_task_id qi))
                                     (tick (world s0))))))
                (mkResult (success (result s0)) (synced_items (result s0) + 1)
                          (failed_items (result s0)) (errors (result s0)))).
  { unfold exec, reconcile. rewrite Hget, Hst. reflexivity. }
  rewrite Hafter in Hw. cbn [world] in Hw.
  assert (Hat : failed_at = iso_now E (3 + ticks (world s0))).
  { subst failed_at. rewrite <- Hw. reflexivity. }
  split; [rewrite Hafter; reflexivity|].
  split.
  { intros r Hr Hid. rewrite <- Hw in Hr.
    cbn [db with_db tick set_meta delete_queue tasks] in Hr.
    rewrite <- Htask in Hid.
    apply (update_status_rows synced synced_at _ _ _ r Hr Hid). }
  split; [exact Hat|].
  intros Hne r Hr Hid Heq.
  destruct (Hstamped r Hr Hid) as [_ Hlast]. rewrite Hlast in Heq.
  apply Hne. congruence.
Qed.

End WithEnv.

Import Scenario.

(** A day later, the same day and a day earlier; and two local tasks with the
    same [updated_at]. *)
Lemma resolveConflict_lww_witness :
  resolveConflict online (task_of_row task1) (remote "2024-01-01") = inr LocalTask /\
  resolveConflict online (task_of_row task1) (remote "2024-01-02") = inr LocalTask /\
  resolveConflict online (task_of_row task1) (remote "2024-01-03") = inr ServerTask /\
  resolveConflict online (task_of_row task2) (remote "2024-01-03")
  = resolveConflict online (remote "2024-01-01") (remote "2024-01-03").
Proof.
  split; [|split; [|split]].
  - apply (proj1 (resolveConflict_lww online _ _)).
    eexists _, _. split; [vm_compute; reflexivity | split; [vm_compute; reflexivity | vm_compute; congruence]].
  - apply (proj1 (resolveConflict_lww online _ _)).
    eexists _, _. split; [vm_compute; reflexivity | split; [vm_compute; reflexivity | vm_compute; congruence]].
  - apply (proj1 (proj2 (resolveConflict_lww online _ _))).
    eexists _, _. split; [vm_compute; reflexivity | split; [vm_compute; reflexivity | vm_compute; congruence]].
  - apply (proj2 (proj2 (resolveConflict_lww online _ _))); reflexivity.
Defined.

(** The scenario database behind an unreachable server. *)
Lemma sync_offline_witness :
  health offline (requests w0) = false /\
  fst (sync offline w0) = mkResult false 0 0 [] /\
  db (snd (sync offline w0)) = db0.
Proof.
  split; [reflexivity|].
  destruct (sync_offline offline w0 eq_refl) as (Hres & Hdb & _).
  split; [exact Hres | exact Hdb].
Defined.

(** The delete of [t2] fails for the third time. *)
Lemma handleSyncError_accounting_witness :
  In row2 (sync_queue (db w0)) /\
  MAX_RETRY online <= retry_of item2 + 1 /\
  In (mkQueueRow "q2" "t2" delete "{}" 20 (Some 3) (Some (message timeout))
                 (Some (iso_now online 0)))
     (sync_queue (db (exec (handleSyncError online item2 timeout) w0))) /\
  (forall r, In r (tasks (db (exec (handleSyncError online item2 timeout) w0))) ->
             row_id r = "t2" -> row_sync_status r = error).
Proof.
  assert (Hin : In row2 (sync_queue (db w0))) by (simpl; auto).
  assert (Hmax : MAX_RETRY online <= retry_of item2 + 1) by (simpl; lia).
  split; [exact Hin | split; [exact Hmax|]].
  destruct (handleSyncError_accounting online w0 item2 timeout)
    as (_ & _ & Hrow & _ & _ & _ & Hpoison & _).
  split; [exact (Hrow row2 Hin eq_refl eq_refl) | exact (Hpoison Hmax)].
Defined.

(** Task [t2] was never synced, and its third failure stamps it; task [t1]
    is synced by the answer to [q1], and the failure of its poisoned item
    [q3] then replaces the time of that success. *)
Lemma handleSyncError_poison_stamps_last_synced_at_witness :
  MAX_RETRY online <= retry_of item2 + 1 /\
  row_last_synced_at task2 = None /\
  (forall r, In r (tasks (db (exec (handleSyncError online item2 timeout) w0))) ->
             row_id r = "t2" ->
             row_sync_status r = error /\
             row_last_synced_at r = Some (iso_now online 1)) /\
  In (mkTaskRow "t2" "read" (Some "") 0 "2024-01-01" "2024-01-01" 1 error None
                (Some "2024-01-03T00:00:00.001Z"))
     (tasks (db (exec (handleSyncError online item2 timeout) w0))) /\
  MAX_RETRY online <= retry_of (item_of_row row3) + 1 /\
  (forall r,
     In r (tasks (db (world (exec (reconcile online [item1; item2] full_success) s0))))
     -> row_id r = "t1" ->
     row_sync_status r = synced /\
     row_last_synced_at r = Some "2024-01-03T00:00:00.000Z") /\
  (forall r,
     In r (tasks (db (exec (handleSyncError online (item_of_row row3) timeout)
                        (world (exec (reconcile online [item1; item2] full_success)
                                     s0)))))
     -> row_id r = "t1" ->
     row_last_synced_at r <> Some "2024-01-03T00:00:00.000Z").
Proof.
  assert (Hmax : MAX_RETRY online <= retry_of item2 + 1) by (simpl; lia).
  assert (Hmax3 : MAX_RETRY online <= retry_of (item_of_row row3) + 1)
    by (simpl; lia).
  split; [exact Hmax | split; [reflexivity|]].
  destruct (handleSyncError_poison_stamps_last_synced_at online w0 item2 timeout Hmax)
    as (_ & _ & _ & Hrows & Hhit & _).
  split; [exact Hrows|].
  split; [exact (Hhit task2 (or_intror (or_introl eq_refl)) eq_refl)|].
  split; [exact Hmax3|].
  destruct (handleSyncError_poison_stamps_last_synced_at online
              (world (exec (reconcile online [item1; item2] full_success) s0))
              (item_of_row row3) timeout Hmax3)
    as (_ & _ & _ & _ & _ & _ & _ & Hafter).
  destruct (Hafter [item1; item2] full_success item1 s0 eq_refl eq_refl eq_refl eq_refl)
    as (_ & Hsynced & _ & Hreplaced).
  split; [exact Hsynced|].
  apply Hreplaced. vm_compute. discriminate.
Defined.

(** After the answer to [q1] task [t1] is [synced], and its [last_synced_at]
    is the time of that success; it still is after the third failure of
    [q2] has poisoned task [t2]. *)
Lemma last_synced_at_of_a_synced_task_counterexample :
  MAX_RETRY online <= retry_of item2 + 1 /\
  synced_items (result (exec (reconcile online [item1; item2] full_success) s0)) = 1 /\
  (forall r,
     In r (tasks (db (world (exec (reconcile online [item1; item2] full_success) s0))))
     -> row_id r = "t1" ->
     row_sync_status r = synced /\ row_last_synced_at r = Some (iso_now online 0)) /\
  exists r,
    In r (tasks (db (exec (handleSyncError online item2 timeout)
                       (world (exec (reconcile online [item1; item2] full_success)
                                    s0)))))
    /\ row_id r = "t1"
    /\ row_sync_status r = synced
    /\ row_last_synced_at r = Some (iso_now online 0).
Proof.
  split; [simpl; lia|]. split; [reflexivity|]. split.
  - intros r [<-|[<-|[]]] Hid; [split; reflexivity | discriminate Hid].
  - eexists. split; [left; reflexivity|]. repeat split.
Qed.

End SyncFacts.

(* ================================================================== *)
(** ** The items of a cycle and their batches *)
(* ================================================================== *)

Module QueueFacts.

Import TaskService SyncService Run Tables.

Lemma insert_by_created_perm q l : Permutation (insert_by_created q l) (q :: l).
Proof.
  induction l as [|x l IH]; [reflexivity|].
  simpl. destruct (q_created_at q <=? q_created_at x); [reflexivity|].
  rewrite IH. apply perm_swap.
Qed.

Lemma order_by_created_perm l : Permutation (order_by_created l) l.
Proof.
  induction l as [|q l IH]; [reflexivity|].
  simpl. rewrite insert_by_created_perm. now constructor.
Qed.

Lemma insert_by_created_sorted q l :
  StronglySorted older_first l -> StronglySorted older_first (insert_by_created q l).
Proof.
  induction 1 as [|x l Hs IH Hall]; simpl.
  - repeat constructor.
  - destruct (Z.leb_spec (q_created_at q) (q_created_at x)) as [Hle|Hgt].
    + constructor; [constructor; assumption|].
      constructor; [exact Hle|].
      rewrite Forall_forall in *. intros y Hy. specialize (Hall y Hy).
      unfold older_first in *. lia.
    + constructor; [exact IH|].
      rewrite Forall_forall in *. intros y Hy.
      apply (Permutation_in _ (insert_by_created_perm q l)) in Hy.
      destruct Hy as [<-|Hy]; [unfold older_first; lia | apply Hall, Hy].
Qed.

Lemma order_by_created_sorted l : StronglySorted older_first (order_by_created l).
Proof.
  induction l as [|q l IH]; simpl; [constructor|].
  apply insert_by_created_sorted, IH.
Qed.

Lemma retryable_spec E q :
  retryable E q = true <-> or_else (q_retry_count q) 0 < MAX_RETRY E.
Proof. unfold retryable. apply Z.ltb_lt. Qed.

Lemma eligible_rows_in E d q :
  In q (eligible_rows E d) <->
  In q (sync_queue d) /\ or_else (q_retry_count q) 0 < MAX_RETRY E.
Proof.
  unfold eligible_rows. rewrite <- retryable_spec, <- filter_In.
  split; apply Permutation_in;
    [|symmetry]; apply order_by_created_perm.
Qed.

(** The loop of [chunk] from index [i] on yields the rest of the array. *)
Lemma chunk_from_concat {T} (arr : list T) size :
  0 < size ->
  forall fuel i,
    0 <= i -> (List.length arr - Z.to_nat i <= fuel)%nat ->
    List.concat (chunk_from fuel arr size i) = skipn (Z.to_nat i) arr.
Proof.
  intros Hsize fuel. induction fuel as [|fuel IH]; intros i Hi Hfuel.
  - simpl. symmetry. apply skipn_all2. lia.
  - simpl. destruct (Z.ltb_spec i (Z.of_nat (List.length arr))) as [Hlt|Hge].
    + simpl. rewrite IH by lia. unfold slice.
      replace (i + size - i) with size by lia.
      replace (Z.to_nat (i + size)) with (Z.to_nat size + Z.to_nat i)%nat by lia.
      rewrite <- skipn_skipn. apply firstn_skipn.
    + simpl. symmetry. apply skipn_all2. lia.
Qed.

Lemma chunk_concat {T} (arr : list T) size : List.concat (chunk arr size) = arr.
Proof.
  unfold chunk. destruct (Z.leb_spec size 0) as [Hle|Hgt].
  - simpl. apply app_nil_r.
  - rewrite chunk_from_concat; [reflexivity | lia | lia | simpl; lia].
Qed.

Lemma chunk_from_sizes {T} (arr : list T) size fuel : forall i batch,
  0 < size ->
  In batch (chunk_from fuel arr size i) ->
  (List.length batch <= Z.to_nat size)%nat.
Proof.
  induction fuel as [|fuel IH]; intros i batch Hsize Hin; [destruct Hin|].
  simpl in Hin. destruct (i <? Z.of_nat (List.length arr)); [|destruct Hin].
  destruct Hin as [<-|Hin]; [|eapply IH; eassumption].
  unfold slice. rewrite length_firstn. lia.
Qed.

Lemma chunk_member {T} (arr : list T) size batch x :
  In batch (chunk arr size) -> In x batch -> In x arr.
Proof.
  intros Hb Hx. rewrite <- (chunk_concat arr size).
  apply in_concat. eauto.
Qed.

Section WithEnv.

Variable E : Env.

(** C6.  The items of a cycle are exactly the queue rows whose
    [retry_count] (0 when NULL) is below [MAX_RETRY], oldest [created_at]
    first whatever their task; the batches are consecutive pieces of that
    list, so a row at or above the ceiling is in no batch; and an online cycle
    with something to send runs [sync_batch] over those batches in order. *)
Theorem getQueueItemsToProcess_fifo (w : World) :
  let rows := eligible_rows E (db w) in
  let batches := chunk (map item_of_row rows) (SYNC_BATCH_SIZE E) in
  getQueueItemsToProcess E w = (inr (map item_of_row rows), w) /\
  Permutation rows (filter (retryable E) (sync_queue (db w))) /\
  (forall q, In q rows <->
             In q (sync_queue (db w)) /\ or_else (q_retry_count q) 0 < MAX_RETRY E) /\
  StronglySorted older_first rows /\
  List.concat batches = map item_of_row rows /\
  (forall batch it, In batch batches -> In it batch -> retry_of it < MAX_RETRY E) /\
  (forall q batch, In q (sync_queue (db w)) ->
     MAX_RETRY E <= or_else (q_retry_count q) 0 ->
     In batch batches -> ~ In (item_of_row q) batch) /\
  (forall res, health E (requests w) = true -> rows <> [] ->
     sync_cycle E (mkSyncState w res)
     = for_each batches (sync_batch E)
         (mkSyncState (mkWorld (db w) (ticks w) (uuids w) (S (requests w))) res)).
Proof.
  intros rows batches.
  assert (Hitems : forall batch it, In batch batches -> In it batch ->
            exists q, In q rows /\ it = item_of_row q).
  { intros batch it Hb Hit.
    pose proof (chunk_member _ _ _ _ Hb Hit) as Hin.
    apply in_map_iff in Hin. destruct Hin as (q & <- & Hq). eauto. }
  split; [reflexivity|].
  split; [apply order_by_created_perm|].
  split; [intros q; apply eligible_rows_in|].
  split; [apply order_by_created_sorted|].
  split; [apply chunk_concat|].
  split; [|split].
  - intros batch it Hb Hit.
    destruct (Hitems batch it Hb Hit) as (q & Hq & ->).
    apply eligible_rows_in in Hq. exact (proj2 Hq).
  - intros q batch _ Hmax Hb Hit.
    destruct (Hitems batch _ Hb Hit) as (q' & Hq' & Heq).
    apply eligible_rows_in in Hq'. destruct Hq' as [_ Hlt].
    assert (q_retry_count q = q_retry_count q')
      by (apply (f_equal item_retry_count) in Heq; exact Heq).
    unfold or_else in *. destruct (q_retry_count q), (q_retry_count q');
      try discriminate; try lia.
    injection H as ->. lia.
  - intros res Hon Hne.
    unfold sync_cycle, bind, in_world, checkConnectivity, getQueueItemsToProcess, gets.
    cbn [world result fst snd db requests]. rewrite Hon.
    cbn [negb world result fst snd db]. subst batches. fold rows.
    destruct rows as [|q rows']; [congruence|]. reflexivity.
Qed.

End WithEnv.

Import Scenario.

(** The scenario queue: [q1] and [q2] in that order, never [q3]. *)
Lemma getQueueItemsToProcess_fifo_witness :
  fst (getQueueItemsToProcess online w0) = inr [item1; item2] /\
  In row3 (sync_queue (db w0)) /\
  MAX_RETRY online <= or_else (q_retry_count row3) 0 /\
  (forall batch, In batch (chunk [item1; item2] (SYNC_BATCH_SIZE online)) ->
                 ~ In (item_of_row row3) batch).
Proof.
  assert (Hin : In row3 (sync_queue (db w0))) by (simpl; auto).
  assert (Hmax : MAX_RETRY online <= or_else (q_retry_count row3) 0) by (simpl; lia).
  destruct (getQueueItemsToProcess_fifo online w0)
    as (Hrun & _ & _ & _ & _ & _ & Hout & _).
  split; [rewrite Hrun; reflexivity|].
  split; [exact Hin | split; [exact Hmax|]].
  intros batch Hb. exact (Hout row3 batch Hin Hmax Hb).
Defined.

End QueueFacts.

(* ================================================================== *)
(** ** Reconciling one answer *)
(* ================================================================== *)

Module ReconcileFacts.

Import TaskService SyncService Run Tables.

Section WithEnv.

Variable E : Env.

(** Retry accounting, the failed count and the error record, in one go:
    the shape shared by every failure path of [sync]. *)
Lemma failure_run it err taskId op msg s :
  (in_world (handleSyncError E it err) ;;
   modify add_failed ;;
   push_error E taskId op msg) s
  = (inr tt,
     let w1 := exec (handleSyncError E it err) (world s) in
     mkSyncState (tick w1)
       (mkResult (success (result s)) (synced_items (result s))
                 (failed_items (result s) + 1)
                 (errors (result s)
                  ++ [mkSyncError taskId op msg (iso_now E (ticks w1))]))).
Proof.
  unfold bind at 1.
  rewrite (in_world_value _ s tt (exec (handleSyncError E it err) (world s)))
    by (apply total_run, handleSyncError_total).
  reflexivity.
Qed.

(** Retry accounting as the tables show it: the rows of the item's id carry
    the item's count plus one, the message and the time of the call, every
    other row and every id stands, and the tasks are touched only at the
    ceiling, where the rows of the item's task become [error]. *)
Lemma handleSyncError_effect it err w :
  let w' := exec (handleSyncError E it err) w in
  let next := retry_of it + 1 in
  map q_id (sync_queue (db w')) = map q_id (sync_queue (db w)) /\
  (forall q, In q (sync_queue (db w)) -> q_id q = item_id it ->
     In (mkQueueRow (q_id q) (q_task_id q) (q_operation q) (q_data q)
                    (q_created_at q) (Some next) (Some (message err))
                    (Some (iso_now E (ticks w))))
        (sync_queue (db w'))) /\
  (forall q', In q' (sync_queue (db w')) -> q_id q' = item_id it ->
     q_retry_count q' = Some next /\
     q_last_error q' = Some (message err) /\
     q_updated_at q' = Some (iso_now E (ticks w))) /\
  (forall o, In o (sync_queue (db w)) -> q_id o <> item_id it ->
     In o (sync_queue (db w'))) /\
  (MAX_RETRY E <= next ->
   forall r, In r (tasks (db w')) -> row_id r = item_task_id it ->
     row_sync_status r = error) /\
  (next < MAX_RETRY E -> tasks (db w') = tasks (db w)) /\
  ticks w' = (ticks w + (if (MAX_RETRY E <=? next)%Z then 2 else 1))%nat /\
  uuids w' = uuids w.
Proof.
  intros w' next. subst w' next. rewrite handleSyncError_queue.
  split; [apply record_error_ids|].
  split; [intros q Hq Hid; apply record_error_hit; assumption|].
  split.
  { intros q' Hq' Hid. apply record_error_in in Hq'.
    destruct Hq' as (q0 & _ & Hid0 & [(_ & H1 & H2 & H3) | (Hne & ->)]);
      [auto | contradiction]. }
  split; [intros o Ho Hne; apply record_error_miss; assumption|].
  split.
  { intros Hmax r Hr Hid.
    apply (handleSyncError_poisoned E it err w r Hmax Hr Hid). }
  split; [apply handleSyncError_below|].
  unfold exec. rewrite handleSyncError_run. cbn [snd].
  destruct (MAX_RETRY E <=? retry_of it + 1); cbn [ticks uuids];
    split; [lia | reflexivity | lia | reflexivity].
Qed.

Lemma on_success_run qi p s :
  on_success E qi p s
  = (inr tt,
     mkSyncState
       (with_db (delete_queue (item_id qi))
          (with_db (update_tasks
                      (set_status synced (iso_now E (ticks (world s)))
                                  (Some (success_data p)))
                      (item_task_id qi))
                   (tick (world s))))
       (mkResult (success (result s)) (synced_items (result s) + 1)
                 (failed_items (result s)) (errors (result s)))).
Proof. reflexivity. Qed.

Lemma mark_last_sync_run s :
  in_world (mark_last_sync E) s
  = (inr tt,
     mkSyncState
       (with_db (set_meta "last_sync_timestamp" (iso_now E (ticks (world s))))
                (tick (world s)))
       (result s)).
Proof. reflexivity. Qed.

Lemma set_status_server_id st now d r :
  row_server_id (set_status st now (Some d) r)
  = unless_null (p_server_id d) (row_server_id r).
Proof. reflexivity. Qed.

Lemma success_data_server_id p old :
  unless_null (p_server_id (success_data p)) old
  = match processed_server_id p with Some x => Some x | None => old end.
Proof.
  unfold success_data, answered_id.
  destruct (resolved_data p), (processed_server_id p); reflexivity.
Qed.

(** C4, as the code has it.  For an answer with status [success] that
    matches a batch item, the loop body returns normally; every task row of
    the item's task has status [synced] and [last_synced_at] equal to the time
    of the call, and [server_id] equal to the answer's when the answer names
    one, while an answer without [server_id] leaves that column as it was; the
    queue loses exactly the rows of the item's id; the synced count goes up by
    one and the failed count, the error list and [success] stay. *)
Theorem sync_success_verdict (batch : list SyncQueueItem) (p : ProcessedItem)
    (qi : SyncQueueItem) (s : SyncState) :
  byClientId_get batch (client_id p) = Some qi ->
  status p = VSuccess ->
  let s' := exec (reconcile E batch p) s in
  fst (reconcile E batch p s) = inr tt /\
  map row_id (tasks (db (world s'))) = map row_id (tasks (db (world s))) /\
  (forall r, In r (tasks (db (world s'))) -> row_id r = item_task_id qi ->
     row_sync_status r = synced /\
     row_last_synced_at r = Some (iso_now E (ticks (world s))) /\
     (forall sid, processed_server_id p = Some sid -> row_server_id r = Some sid)) /\
  (processed_server_id p = None ->
     map row_server_id (tasks (db (world s')))
     = map row_server_id (tasks (db (world s)))) /\
  (forall q, In q (sync_queue (db (world s'))) <->
             In q (sync_queue (db (world s))) /\ q_id q <> item_id qi) /\
  synced_items (result s') = synced_items (result s) + 1 /\
  failed_items (result s') = failed_items (result s) /\
  errors (result s') = errors (result s) /\
  success (result s') = success (result s).
Proof.
  intros Hget Hst s'. subst s'.
  assert (Hrun : reconcile E batch p s
                 = bind (on_success E qi p) (fun _ => in_world (mark_last_sync E)) s).
  { unfold reconcile. rewrite Hget, Hst. reflexivity. }
  unfold exec. rewrite Hrun.
  rewrite (bind_value _ _ _ _ _ (on_success_run qi p s)), mark_last_sync_run.
  cbn [fst snd world result db with_db tick set_meta delete_queue
       tasks sync_queue synced_items failed_items errors success].
  split; [reflexivity|].
  split; [apply update_tasks_ids; intros; apply set_status_id|].
  split; [|split; [|split; [|repeat split]]].
  - intros r Hr Hid.
    destruct (update_status_rows _ _ _ _ _ _ Hr Hid) as [H1 H2].
    split; [exact H1 | split; [exact H2|]].
    intros sid Hsid. apply update_tasks_in in Hr. destruct Hr as (r0 & _ & ->).
    destruct (String.eqb_spec (row_id r0) (item_task_id qi)) as [_|Hne];
      [|contradiction].
    rewrite set_status_server_id, success_data_server_id, Hsid. reflexivity.
  - intros Hnone. cbn [update_tasks tasks]. rewrite map_map. apply map_ext.
    intros r. destruct (String.eqb (row_id r) (item_task_id qi)); [|reflexivity].
    rewrite set_status_server_id, success_data_server_id, Hnone. reflexivity.
  - intros q. apply (delete_queue_in (item_id qi)
      (update_tasks (set_status synced (iso_now E (ticks (world s)))
                                (Some (success_data p)))
                    (item_task_id qi) (db (world s)))).
Qed.

Lemma find_none_iff {A} (f : A -> bool) l :
  find f l = None <-> forall x, In x l -> f x = false.
Proof.
  split; [apply find_none|].
  induction l as [|a l IH]; intros H; [reflexivity|].
  simpl. rewrite (H a) by (now left). apply IH. intros x Hx. apply H. now right.
Qed.

Lemma getTask_soft_deleted taskId w :
  (forall r, In r (tasks (db w)) -> row_id r = taskId -> row_is_deleted r <> 0) ->
  getTask taskId w = (inr None, w).
Proof.
  intros Hdel. unfold getTask, gets, select_live.
  replace (find _ (tasks (db w))) with (@None TaskRow); [reflexivity|].
  symmetry. apply find_none_iff. intros r Hr.
  destruct (String.eqb_spec (row_id r) taskId) as [Heq|]; [|reflexivity].
  simpl. apply Z.eqb_neq. apply Hdel; assumption.
Qed.

Lemma getTask_live taskId w row :
  select_live taskId (db w) = Some row ->
  getTask taskId w = (inr (Some (task_of_row row)), w).
Proof. intros H. unfold getTask, gets. rewrite H. reflexivity. Qed.

Lemma select_live_some taskId d row :
  select_live taskId d = Some row ->
  In row (tasks d) /\ row_id row = taskId /\ row_is_deleted row = 0.
Proof.
  unfold select_live. intros H. apply find_some in H. destruct H as [Hin Hp].
  apply andb_prop in Hp. destruct Hp as [H1 H2].
  apply String.eqb_eq in H1. apply Z.eqb_eq in H2. auto.
Qed.

Lemma on_local_wins_run qi l s :
  on_local_wins E qi l s
  = (inr tt,
     let w1 := exec (handleSyncError E qi
                       (mkError "Conflict: local newer, requeueing update"))
                    (world s) in
     let fresh := new_queue_row (uuidv4 E (uuids w1)) (id l) update
                    (Json.stringify (JObj [("data", local_snapshot l)]))
                    (sql_now E (ticks w1)) in
     mkSyncState
       (mkWorld (insert_queue fresh (db w1)) (S (S (ticks w1))) (S (uuids w1))
                (requests w1))
       (mkResult (success (result s)) (synced_items (result s))
                 (failed_items (result s) + 1)
                 (errors (result s)
                  ++ [mkSyncError (item_task_id qi) update
                        "Conflict resolved (local newer). Requeued update."
                        (iso_now E (S (ticks w1)))]))).
Proof.
  unfold on_local_wins. unfold bind at 1.
  rewrite (in_world_value _ s tt
             (exec (handleSyncError E qi
                      (mkError "Conflict: local newer, requeueing update")) (world s)))
    by (apply total_run, handleSyncError_total).
  reflexivity.
Qed.

Lemma handleSyncError_uuids it err w :
  uuids (exec (handleSyncError E it err) w) = uuids w.
Proof.
  unfold exec. rewrite handleSyncError_run. cbn [snd].
  destruct (MAX_RETRY E <=? retry_of it + 1); reflexivity.
Qed.

Lemma local_snapshot_wf l : Json.wf (JObj [("data", local_snapshot l)]).
Proof.
  unfold local_snapshot.
  destruct (description l); simpl;
    (split; [repeat constructor; simpl; tauto|]);
    (split; [|exact I]);
    (split; [repeat constructor; simpl; intuition discriminate | tauto]).
Qed.

(** C7.  For a conflict answer whose task is live locally and for which
    [resolveConflict] returns the local task, the loop body returns normally.
    The original item goes through retry accounting: every queue row of its
    id now carries the item's [retry_count] plus one, the message of a
    requeued conflict and the time of the call, no row is removed and the
    other rows stand; at the ceiling the rows of its task become [error], and
    below it the tasks are untouched.  After those rows the queue holds one
    new row: a fresh uuid, the local task's id, operation [update], no
    retries, and as data the serialised title, description, completed flag,
    [updated_at] and [is_deleted] of the local row.  The failed count goes up
    by one, the synced count stays, and one error record is added. *)
Theorem sync_conflict_local_wins (batch : list SyncQueueItem) (p : ProcessedItem)
    (qi : SyncQueueItem) (s : SyncState) (row : TaskRow) (serverTask : Task) :
  byClientId_get batch (client_id p) = Some qi ->
  status p = VConflict ->
  select_live (item_task_id qi) (db (world s)) = Some row ->
  resolved_data p = Some serverTask ->
  resolveConflict E (task_of_row row) serverTask = inr LocalTask ->
  let requeued := mkError "Conflict: local newer, requeueing update" in
  let next := retry_of qi + 1 in
  let w1 := exec (handleSyncError E qi requeued) (world s) in
  let snapshot :=
    JObj [("title", JStr (row_title row));
          ("description", json_of_nullable (row_description row));
          ("completed", JBool (truthy (row_completed row)));
          ("updated_at", JStr (row_updated_at row));
          ("is_deleted", JBool false)] in
  let fresh :=
    mkQueueRow (uuidv4 E (uuids (world s))) (item_task_id qi) update
               (Json.stringify (JObj [("data", snapshot)]))
               (sql_now E (ticks w1)) (Some 0) None None in
  let s' := exec (reconcile E batch p) s in
  fst (reconcile E batch p s) = inr tt /\
  sync_queue (db (world s')) = sync_queue (db w1) ++ [fresh] /\
  tasks (db (world s')) = tasks (db w1) /\
  Json.parse (q_data fresh) = Some (JObj [("data", snapshot)]) /\
  failed_items (result s') = failed_items (result s) + 1 /\
  synced_items (result s') = synced_items (result s) /\
  success (result s') = success (result s) /\
  errors (result s')
  = errors (result s)
    ++ [mkSyncError (item_task_id qi) update
          "Conflict resolved (local newer). Requeued update."
          (iso_now E (S (ticks w1)))] /\
  map q_id (sync_queue (db (world s')))
  = map q_id (sync_queue (db (world s))) ++ [uuidv4 E (uuids (world s))] /\
  (forall q, In q (sync_queue (db (world s))) -> q_id q = item_id qi ->
     In (mkQueueRow (q_id q) (q_task_id q) (q_operation q) (q_data q)
                    (q_created_at q) (Some next)
                    (Some "Conflict: local newer, requeueing update")
                    (Some (iso_now E (ticks (world s)))))
        (sync_queue (db (world s')))) /\
  (forall q', In q' (sync_queue (db (world s'))) -> q_id q' = item_id qi ->
     q' = fresh \/
     (q_retry_count q' = Some next /\
      q_last_error q' = Some "Conflict: local newer, requeueing update" /\
      q_updated_at q' = Some (iso_now E (ticks (world s))))) /\
  (forall o, In o (sync_queue (db (world s))) -> q_id o <> item_id qi ->
     In o (sync_queue (db (world s')))) /\
  (MAX_RETRY E <= next ->
   forall r, In r (tasks (db (world s'))) -> row_id r = item_task_id qi ->
     row_sync_status r = error) /\
  (next < MAX_RETRY E -> tasks (db (world s')) = tasks (db (world s))) /\
  ticks w1 = (ticks (world s) + (if (MAX_RETRY E <=? next)%Z then 2 else 1))%nat.
Proof.
  intros Hget Hst Hrow Hdata Hwin requeued next w1 snapshot fresh s'.
  destruct (select_live_some _ _ _ Hrow) as (_ & Hid & Hdel).
  assert (Hsnap : local_snapshot (task_of_row row) = snapshot).
  { unfold local_snapshot, snapshot. cbn [task_of_row title description completed
      updated_at is_deleted]. unfold truthy at 2. rewrite Hdel.
    destruct (row_description row); reflexivity. }
  assert (Hrun : reconcile E batch p s
            = bind (on_local_wins E qi (task_of_row row))
                   (fun _ => in_world (mark_last_sync E)) s).
  { unfold reconcile. rewrite Hget, Hst. unfold bind at 1.
    rewrite (in_world_value _ s _ _ (getTask_live _ _ _ Hrow)).
    rewrite Hdata. cbn [result world]. unfold bind at 1. rewrite Hwin.
    cbn [lift_result ret]. destruct s; reflexivity. }
  destruct (handleSyncError_effect qi requeued (world s))
    as (Hids & Hhit & Hrows & Hmiss & Hpoison & Hbelow & Hticks & Huuids).
  fold w1 in Hids, Hhit, Hrows, Hmiss, Hpoison, Hbelow, Hticks, Huuids.
  fold next in Hhit, Hrows, Hpoison, Hbelow, Hticks.
  assert (Hqueue : sync_queue (db (world s')) = sync_queue (db w1) ++ [fresh]).
  { subst s'. unfold exec. rewrite Hrun.
    rewrite (bind_value _ _ _ _ _ (on_local_wins_run qi (task_of_row row) s)).
    rewrite mark_last_sync_run. fold requeued. fold w1.
    cbn [fst snd world result db with_db tick set_meta insert_queue
         tasks sync_queue].
    rewrite Hsnap. subst fresh. unfold new_queue_row.
    rewrite Huuids. cbn [task_of_row id]. rewrite Hid. reflexivity. }
  assert (Htasks : tasks (db (world s')) = tasks (db w1)).
  { subst s'. unfold exec. rewrite Hrun.
    rewrite (bind_value _ _ _ _ _ (on_local_wins_run qi (task_of_row row) s)).
    rewrite mark_last_sync_run. reflexivity. }
  split.
  { rewrite Hrun.
    rewrite (bind_value _ _ _ _ _ (on_local_wins_run qi (task_of_row row) s)).
    reflexivity. }
  split; [exact Hqueue|]. split; [exact Htasks|].
  split.
  { subst fresh. cbn [q_data]. apply JsonFacts.parse_stringify.
    rewrite <- Hsnap. apply local_snapshot_wf. }
  assert (Hres : result s'
                 = mkResult (success (result s)) (synced_items (result s))
                     (failed_items (result s) + 1)
                     (errors (result s)
                      ++ [mkSyncError (item_task_id qi) update
                            "Conflict resolved (local newer). Requeued update."
                            (iso_now E (S (ticks w1)))])).
  { subst s'. unfold exec. rewrite Hrun.
    rewrite (bind_value _ _ _ _ _ (on_local_wins_run qi (task_of_row row) s)).
    rewrite mark_last_sync_run. reflexivity. }
  rewrite Hres. cbn [failed_items synced_items success errors].
  split; [reflexivity|]. split; [reflexivity|]. split; [reflexivity|].
  split; [reflexivity|].
  rewrite Hqueue, Htasks.
  split; [rewrite map_app, Hids; reflexivity|].
  split; [intros q Hq Hqid; apply in_or_app; left; apply Hhit; assumption|].
  split.
  { intros q' Hq' Hqid. apply in_app_or in Hq'. destruct Hq' as [Hq'|[<-|[]]].
    - right. apply Hrows; assumption.
    - left. reflexivity. }
  split; [intros o Ho Hne; apply in_or_app; left; apply Hmiss; assumption|].
  split; [exact Hpoison|]. split; [exact Hbelow | exact Hticks].
Qed.

(** C10.  For a conflict answer whose task is soft-deleted locally,
    [getTask] returns null and the loop body is the missing-data path,
    whatever [Date] parsing would say, so last-write-wins plays no part in
    it.  The item goes through retry accounting: every queue row of its id
    now carries the item's [retry_count] plus one, the message of missing
    data and the time of the call, no row is removed or added and the other
    rows stand; at the ceiling the rows of its task become [error], and below
    it the tasks are untouched.  The failed count goes up by one, the synced
    count stays, the error record "Conflict: missing data to resolve" is
    added, and [meta] is not written. *)
Theorem sync_conflict_soft_deleted (batch : list SyncQueueItem) (p : ProcessedItem)
    (qi : SyncQueueItem) (s : SyncState) :
  byClientId_get batch (client_id p) = Some qi ->
  status p = VConflict ->
  (forall r, In r (tasks (db (world s))) -> row_id r = item_task_id qi ->
             row_is_deleted r <> 0) ->
  let next := retry_of qi + 1 in
  let w1 := exec (handleSyncError E qi (mkError "Conflict but missing data"))
                 (world s) in
  let s' := exec (reconcile E batch p) s in
  getTask (item_task_id qi) (world s) = (inr None, world s) /\
  reconcile E batch p s = on_missing_data E qi s /\
  reconcile E batch p s
  = (inr tt,
     mkSyncState (tick w1)
       (mkResult (success (result s)) (synced_items (result s))
                 (failed_items (result s) + 1)
                 (errors (result s)
                  ++ [mkSyncError (item_task_id qi) (item_operation qi)
                        "Conflict: missing data to resolve"
                        (iso_now E (ticks w1))]))) /\
  (forall f, reconcile (with_date_parse f E) batch p s = reconcile E batch p s) /\
  map q_id (sync_queue (db (world s'))) = map q_id (sync_queue (db (world s))) /\
  (forall q, In q (sync_queue (db (world s))) -> q_id q = item_id qi ->
     In (mkQueueRow (q_id q) (q_task_id q) (q_operation q) (q_data q)
                    (q_created_at q) (Some next)
                    (Some "Conflict but missing data")
                    (Some (iso_now E (ticks (world s)))))
        (sync_queue (db (world s')))) /\
  (forall q', In q' (sync_queue (db (world s'))) -> q_id q' = item_id qi ->
     q_retry_count q' = Some next /\
     q_last_error q' = Some "Conflict but missing data" /\
     q_updated_at q' = Some (iso_now E (ticks (world s)))) /\
  (forall o, In o (sync_queue (db (world s))) -> q_id o <> item_id qi ->
     In o (sync_queue (db (world s')))) /\
  (MAX_RETRY E <= next ->
   forall r, In r (tasks (db (world s'))) -> row_id r = item_task_id qi ->
     row_sync_status r = error) /\
  (next < MAX_RETRY E -> tasks (db (world s')) = tasks (db (world s))) /\
  meta (db (world s')) = meta (db (world s)) /\
  failed_items (result s') = failed_items (result s) + 1 /\
  synced_items (result s') = synced_items (result s) /\
  ticks w1 = (ticks (world s) + (if (MAX_RETRY E <=? next)%Z then 2 else 1))%nat.
Proof.
  intros Hget Hst Hdel next w1 s'.
  pose proof (getTask_soft_deleted _ _ Hdel) as Hnull.
  assert (Hrun : forall E', reconcile E' batch p s = on_missing_data E' qi s).
  { intros E'. unfold reconcile. rewrite Hget, Hst. unfold bind at 1.
    rewrite (in_world_value _ s _ _ Hnull). destruct s; reflexivity. }
  assert (Hout : reconcile E batch p s
    = (inr tt,
       mkSyncState (tick w1)
         (mkResult (success (result s)) (synced_items (result s))
                   (failed_items (result s) + 1)
                   (errors (result s)
                    ++ [mkSyncError (item_task_id qi) (item_operation qi)
                          "Conflict: missing data to resolve"
                          (iso_now E (ticks w1))])))).
  { rewrite Hrun. unfold on_missing_data. apply failure_run. }
  destruct (handleSyncError_effect qi (mkError "Conflict but missing data") (world s))
    as (Hids & Hhit & Hrows & Hmiss & Hpoison & Hbelow & Hticks & _).
  fold w1 in Hids, Hhit, Hrows, Hmiss, Hpoison, Hbelow, Hticks.
  fold next in Hhit, Hrows, Hpoison, Hbelow, Hticks.
  split; [exact Hnull|]. split; [apply Hrun|]. split; [exact Hout|].
  split; [intros f; rewrite !Hrun; reflexivity|].
  assert (Hs' : s' = snd (reconcile E batch p s)) by reflexivity.
  rewrite Hout in Hs'. cbn [snd] in Hs'. rewrite Hs'.
  cbn [world result db tick tasks sync_queue meta failed_items synced_items].
  split; [exact Hids|]. split; [exact Hhit|]. split; [exact Hrows|].
  split; [exact Hmiss|]. split; [exact Hpoison|]. split; [exact Hbelow|].
  split.
  { unfold w1, exec. rewrite handleSyncError_run. cbn [snd].
    destruct (MAX_RETRY E <=? retry_of qi + 1); reflexivity. }
  split; [reflexivity|]. split; [reflexivity | exact Hticks].
Qed.

End WithEnv.

Import Scenario.

(** A [success] answer without [server_id]: the task is [synced] and its
    [server_id] is still NULL. *)
Lemma sync_success_verdict_counterexample :
  status bare_success = VSuccess /\
  byClientId_get [item1; item2] (client_id bare_success) = Some item1 /\
  exists r,
    In r (tasks (db (world (exec (reconcile online [item1; item2] bare_success) s0))))
    /\ row_id r = item_task_id item1
    /\ row_sync_status r = synced
    /\ row_server_id r = None.
Proof.
  split; [reflexivity|]. split; [reflexivity|].
  eexists. split; [left; reflexivity|]. repeat split.
Qed.

(** A [success] answer that names [srv-1]. *)
Lemma sync_success_verdict_witness :
  byClientId_get [item1; item2] (client_id full_success) = Some item1 /\
  status full_success = VSuccess /\
  (forall r,
     In r (tasks (db (world (exec (reconcile online [item1; item2] full_success) s0))))
     -> row_id r = "t1" ->
     row_sync_status r = synced /\ row_server_id r = Some "srv-1") /\
  ~ In row1 (sync_queue (db (world
       (exec (reconcile online [item1; item2] full_success) s0)))).
Proof.
  split; [reflexivity|]. split; [reflexivity|].
  destruct (sync_success_verdict online [item1; item2] full_success item1 s0
              eq_refl eq_refl) as (_ & _ & Hrows & _ & Hq & _).
  split.
  - intros r Hr Hid. destruct (Hrows r Hr Hid) as (H1 & _ & H3).
    split; [exact H1 | exact (H3 "srv-1" eq_refl)].
  - intros Hin. apply Hq in Hin. destruct Hin as [_ Hne]. apply Hne. reflexivity.
Defined.

(** The local copy of [t1] is a day newer than the server's: [q1] has
    failed once, and a fifth row is queued. *)
Lemma sync_conflict_local_wins_witness :
  byClientId_get [item1; item2] (client_id stale_conflict) = Some item1 /\
  select_live "t1" db0 = Some task1 /\
  resolveConflict online (task_of_row task1) (remote "2024-01-01") = inr LocalTask /\
  failed_items (result (exec (reconcile online [item1; item2] stale_conflict) s0)) = 1 /\
  synced_items (result (exec (reconcile online [item1; item2] stale_conflict) s0)) = 0 /\
  In (mkQueueRow "q1" "t1" update "{}" 10 (Some 1)
                 (Some "Conflict: local newer, requeueing update")
                 (Some (iso_now online 0)))
     (sync_queue (db (world (exec (reconcile online [item1; item2] stale_conflict) s0))))
  /\
  map q_id
    (sync_queue (db (world (exec (reconcile online [item1; item2] stale_conflict) s0))))
  = ["q1"; "q2"; "q3"; "uuid-a"].
Proof.
  assert (Hwin : resolveConflict online (task_of_row task1) (remote "2024-01-01")
                 = inr LocalTask) by (vm_compute; reflexivity).
  split; [reflexivity|]. split; [reflexivity|]. split; [exact Hwin|].
  destruct (sync_conflict_local_wins online [item1; item2] stale_conflict item1 s0
              task1 (remote "2024-01-01") eq_refl eq_refl eq_refl eq_refl Hwin)
    as (_ & _ & _ & _ & Hfailed & Hsynced & _ & _ & Hids & Hhit & _).
  split; [exact Hfailed|]. split; [exact Hsynced|].
  split; [exact (Hhit row1 (or_introl eq_refl) eq_refl) | exact Hids].
Defined.

(** A conflict on the delete of the soft-deleted [t2]: the third failure
    of [q2]. *)
Lemma sync_conflict_soft_deleted_witness :
  byClientId_get [item1; item2] (client_id deleted_conflict) = Some item2 /\
  (forall r, In r (tasks db0) -> row_id r = "t2" -> row_is_deleted r <> 0) /\
  reconcile online [item1; item2] deleted_conflict s0
  = on_missing_data online item2 s0 /\
  In (mkQueueRow "q2" "t2" delete "{}" 20 (Some 3)
                 (Some "Conflict but missing data") (Some (iso_now online 0)))
     (sync_queue (db (world (exec (reconcile online [item1; item2] deleted_conflict)
                                  s0)))) /\
  failed_items (result (exec (reconcile online [item1; item2] deleted_conflict) s0)) = 1.
Proof.
  assert (Hdel : forall r, In r (tasks db0) -> row_id r = "t2" -> row_is_deleted r <> 0).
  { intros r [<-|[<-|[]]] Hid; [discriminate Hid | discriminate]. }
  split; [reflexivity|]. split; [exact Hdel|].
  destruct (sync_conflict_soft_deleted online [item1; item2] deleted_conflict item2 s0
              eq_refl eq_refl Hdel)
    as (_ & Hpath & _ & _ & _ & Hhit & _ & _ & _ & _ & _ & Hfailed & _).
  split; [exact Hpath|].
  split; [exact (Hhit row2 (or_intror (or_introl eq_refl)) eq_refl) | exact Hfailed].
Defined.

End ReconcileFacts.

(* ================================================================== *)
(** ** A batch whose transport fails, and the outbox payload *)
(* ================================================================== *)

Module BatchFacts.

Import TaskService SyncService Run Tables ReconcileFacts.

Section WithEnv.

Variable E : Env.


Lemma fail_item_run err it s :
  fail_item E err it s
  = (inr tt,
     let w1 := exec (handleSyncError E it err) (world s) in
     mkSyncState (tick w1)
       (mkResult (success (result s)) (synced_items (result s))
                 (failed_items (result s) + 1)
                 (errors (result s)
                  ++ [mkSyncError (item_task_id it) (item_operation it)
                        (if String.eqb (message err) "" then "Batch failed"
                         else message err)
                        (iso_now E (ticks w1))]))).
Proof. apply failure_run. Qed.

Lemma fail_item_queue err it s :
  sync_queue (db (world (exec (fail_item E err it) s)))
  = sync_queue (record_error (item_id it) (retry_of it + 1) (message err)
                             (iso_now E (ticks (world s))) (db (world s))).
Proof.
  unfold exec. rewrite fail_item_run. cbn [snd world tick db].
  apply handleSyncError_queue.
Qed.

(** The loop of the [catch] block, from any state. *)
Lemma fail_loop err batch : forall s,
  let s' := exec (for_each batch (fail_item E err)) s in
  for_each batch (fail_item E err) s = (inr tt, s') /\
  map q_id (sync_queue (db (world s'))) = map q_id (sync_queue (db (world s))) /\
  failed_items (result s') = failed_items (result s) + Z.of_nat (List.length batch) /\
  synced_items (result s') = synced_items (result s) /\
  success (result s') = success (result s) /\
  List.length (errors (result s'))
  = (List.length (errors (result s)) + List.length batch)%nat /\
  (forall q', In q' (sync_queue (db (world s'))) ->
              ~ In (q_id q') (map item_id batch) ->
              In q' (sync_queue (db (world s)))) /\
  (NoDup (map item_id batch) ->
   forall it q', In it batch -> In q' (sync_queue (db (world s'))) ->
     q_id q' = item_id it ->
     q_retry_count q' = Some (retry_of it + 1) /\
     q_last_error q' = Some (message err)).
Proof.
  induction batch as [|it0 l IH]; intros s s'.
  - subst s'. cbn. repeat split; try lia; try tauto.
  - assert (Hcons : for_each (it0 :: l) (fail_item E err) s
                    = for_each l (fail_item E err) (exec (fail_item E err it0) s)).
    { apply for_each_cons. rewrite fail_item_run. reflexivity. }
    assert (Hs' : s' = exec (for_each l (fail_item E err)) (exec (fail_item E err it0) s)).
    { subst s'. unfold exec at 1. rewrite Hcons. reflexivity. }
    set (s1 := exec (fail_item E err it0) s) in *.
    specialize (IH s1). cbv zeta in IH. rewrite <- Hs' in IH.
    destruct IH as (Hrun & Hids & Hfailed & Hsynced & Hsucc & Hlen & Hframe & Hhit).
    assert (Hq1 : sync_queue (db (world s1))
                  = sync_queue (record_error (item_id it0) (retry_of it0 + 1)
                      (message err) (iso_now E (ticks (world s))) (db (world s))))
      by apply fail_item_queue.
    assert (Hr1 : result s1
                  = mkResult (success (result s)) (synced_items (result s))
                      (failed_items (result s) + 1)
                      (errors (result s)
                       ++ [mkSyncError (item_task_id it0) (item_operation it0)
                             (if String.eqb (message err) "" then "Batch failed"
                              else message err)
                             (iso_now E (ticks (exec (handleSyncError E it0 err)
                                                     (world s))))])).
    { unfold s1, exec. rewrite fail_item_run. reflexivity. }
    split; [rewrite Hcons; exact Hrun|].
    split; [rewrite Hids, Hq1; apply record_error_ids|].
    split; [rewrite Hfailed, Hr1; cbn [failed_items List.length]; lia|].
    split; [rewrite Hsynced, Hr1; reflexivity|].
    split; [rewrite Hsucc, Hr1; reflexivity|].
    split; [rewrite Hlen, Hr1; cbn [errors List.length]; rewrite length_app;
            cbn [List.length]; lia|].
    split.
    + intros q' Hq' Hnot. cbn [map] in Hnot.
      assert (Hin1 : In q' (sync_queue (db (world s1)))).
      { apply Hframe; [exact Hq'|]. intros H. apply Hnot. now right. }
      rewrite Hq1 in Hin1. apply record_error_in in Hin1.
      destruct Hin1 as (q0 & Hq0 & Hid & [(Heq & _) | (_ & ->)]); [|exact Hq0].
      exfalso. apply Hnot. left. congruence.
    + intros Hnd it q' Hit Hq' Hid. cbn [map] in Hnd.
      apply NoDup_cons_iff in Hnd. destruct Hnd as [Hfresh Hnd].
      destruct Hit as [<-|Hit]; [|apply (Hhit Hnd it q' Hit Hq' Hid)].
      assert (Hin1 : In q' (sync_queue (db (world s1)))).
      { apply Hframe; [exact Hq'|]. rewrite Hid. exact Hfresh. }
      rewrite Hq1 in Hin1. apply record_error_in in Hin1.
      destruct Hin1 as (q0 & _ & Hid0 & [(_ & H1 & H2 & _) | (Hne & ->)]);
        [auto | contradiction].
Qed.


(** C8, as the code has it.  [addToSyncQueue] appends one row with a fresh
    uuid, the task id and the operation, whose [data] column, read back by
    [safeParseData] as the batch request does, is an object with the single
    property [data] holding the snapshot. *)
Theorem addToSyncQueue_safeParseData (taskId : string) (op : Operation)
    (data : JValue) (w : World) :
  Json.wf data ->
  let w' := exec (addToSyncQueue E taskId op data) w in
  exists q,
    sync_queue (db w') = sync_queue (db w) ++ [q] /\
    tasks (db w') = tasks (db w) /\
    q_id q = uuidv4 E (uuids w) /\
    q_task_id q = taskId /\
    q_operation q = op /\
    safeParseData (q_data q) = JObj [("data", data)] /\
    bi_data (batch_item (item_of_row q)) = JObj [("data", data)] /\
    Json.get (safeParseData (q_data q)) "data" = Some data.
Proof.
  intros Hwf w'.
  assert (Hparse : safeParseData (Json.stringify (JObj [("data", data)]))
                   = JObj [("data", data)]).
  { unfold safeParseData. rewrite JsonFacts.stringify_not_empty.
    rewrite JsonFacts.parse_stringify; [reflexivity|].
    apply JsonFacts.wf_obj. split.
    - repeat constructor. simpl. tauto.
    - repeat constructor. exact Hwf. }
  eexists. split; [reflexivity|]. cbn [q_id q_task_id q_operation q_data
    new_queue_row batch_item item_of_row item_data bi_data].
  rewrite Hparse. repeat split.
Qed.

End WithEnv.

Import Scenario.


(** Reading the stored text back gives the snapshot wrapped in an object,
    not the snapshot. *)
Lemma addToSyncQueue_roundtrip_counterexample :
  exists q,
    sync_queue (db (exec (addToSyncQueue online "t1" update snapshot1) w0))
    = sync_queue (db w0) ++ [q] /\
    safeParseData (q_data q) = JObj [("data", snapshot1)] /\
    safeParseData (q_data q) <> snapshot1.
Proof.
  eexists. split; [reflexivity|].
  split; [vm_compute; reflexivity | vm_compute; discriminate].
Qed.

(** The snapshot is found again under [data]. *)
Lemma addToSyncQueue_safeParseData_witness :
  Json.wf snapshot1 /\
  exists q,
    sync_queue (db (exec (addToSyncQueue online "t1" update snapshot1) w0))
    = sync_queue (db w0) ++ [q] /\
    Json.get (safeParseData (q_data q)) "data" = Some snapshot1.
Proof.
  assert (Hwf : Json.wf snapshot1).
  { simpl. split; [|tauto]. repeat constructor; simpl; intuition discriminate. }
  split; [exact Hwf|].
  destruct (addToSyncQueue_safeParseData online "t1" update snapshot1 w0 Hwf)
    as (q & Hq & _ & _ & _ & _ & _ & _ & Hget).
  exists q. split; [exact Hq | exact Hget].
Defined.

End BatchFacts.

(* ================================================================== *)
(** ** Whole cycles on the scenario *)
(* ================================================================== *)

Module CycleExamples.

Import TaskService SyncService Scenario.

(** Three items for three tasks, all accepted: three synced, none failed,
    and the queue is empty afterwards. *)
Example all_accepted :
  let out := sync (env true accepting) (mkWorld db3 0 0 0) in
  success (fst out) = true /\ synced_items (fst out) = 3 /\
  failed_items (fst out) = 0 /\ sync_queue (db (snd out)) = [] /\
  map row_sync_status (tasks (db (snd out))) = [synced; synced; synced] /\
  map row_server_id (tasks (db (snd out)))
  = [Some "srv-a"; Some "srv-b"; Some "srv-c"].
Proof. vm_compute. repeat split. Qed.

(** A transport failure: both eligible items are retried, nothing is
    removed, and the delete that reaches the ceiling puts its task in [error]
    with [last_synced_at] set although nothing was synced. *)
Example transport_down :
  let out := sync online w0 in
  success (fst out) = false /\ synced_items (fst out) = 0 /\
  failed_items (fst out) = 2 /\
  map q_retry_count (sync_queue (db (snd out))) = [Some 1; Some 3; Some 3] /\
  map row_sync_status (tasks (db (snd out))) = [pending; error] /\
  map row_last_synced_at (tasks (db (snd out)))
  = [None; Some "2024-01-03T00:00:00.004Z"].
Proof. vm_compute. repeat split. Qed.

(** A conflict the local copy wins: counted as failed, and a new update is
    queued behind the original item. *)
Example local_newer :
  let server := fun (_ : nat) (_ : BatchSyncRequest) =>
                  Some (mkResponse (Some [stale_conflict; deleted_conflict])) in
  let out := sync (env true server) w0 in
  success (fst out) = true /\ synced_items (fst out) = 0 /\
  failed_items (fst out) = 2 /\
  map q_id (sync_queue (db (snd out))) = ["q1"; "q2"; "q3"; "uuid-a"] /\
  map err_error (errors (fst out))
  = ["Conflict resolved (local newer). Requeued update.";
     "Conflict: missing data to resolve"].
Proof. vm_compute. repeat split. Qed.

End CycleExamples.

(* ================================================================== *)
(** ** Batches *)
(* ================================================================== *)

Module ChunkFacts.

Import SyncService QueueFacts.

Lemma slice_length {T} (arr : list T) i size :
  0 <= i -> 0 < size ->
  List.length (slice arr i (i + size))
  = Nat.min (Z.to_nat size) (List.length arr - Z.to_nat i).
Proof.
  intros Hi Hsize. unfold slice. rewrite length_firstn, length_skipn.
  replace (i + size - i) with size by lia. reflexivity.
Qed.

Lemma chunk_from_count {T} (arr : list T) size :
  0 < size ->
  forall fuel i,
    0 <= i -> (List.length arr - Z.to_nat i <= fuel)%nat ->
    Z.of_nat (List.length (chunk_from fuel arr size i))
    = (Z.max 0 (Z.of_nat (List.length arr) - i) + size - 1) / size.
Proof.
  intros Hsize fuel. induction fuel as [|fuel IH]; intros i Hi Hfuel.
  - simpl. replace (Z.max 0 (Z.of_nat (List.length arr) - i)) with 0 by lia.
    symmetry. apply Z.div_small. lia.
  - simpl. destruct (Z.ltb_spec i (Z.of_nat (List.length arr))) as [Hlt|Hge].
    + cbn [List.length]. rewrite Nat2Z.inj_succ, IH by lia.
      destruct (Z.le_gt_cases (i + size) (Z.of_nat (List.length arr))) as [Hfull|Hlast].
      * replace (Z.max 0 (Z.of_nat (List.length arr) - (i + size)))
          with (Z.of_nat (List.length arr) - i - size) by lia.
        replace (Z.max 0 (Z.of_nat (List.length arr) - i))
          with (Z.of_nat (List.length arr) - i) by lia.
        replace (Z.of_nat (List.length arr) - i + size - 1)
          with (Z.of_nat (List.length arr) - i - size + size - 1 + 1 * size) by lia.
        rewrite Z.div_add by lia. lia.
      * replace (Z.max 0 (Z.of_nat (List.length arr) - (i + size))) with 0 by lia.
        replace (Z.max 0 (Z.of_nat (List.length arr) - i))
          with (Z.of_nat (List.length arr) - i) by lia.
        rewrite (Z.div_small (0 + size - 1)) by lia.
        change (Z.succ 0) with 1.
        apply (Z.div_unique _ _ 1 (Z.of_nat (List.length arr) - i - 1)); lia.
    + simpl. replace (Z.max 0 (Z.of_nat (List.length arr) - i)) with 0 by lia.
      symmetry. apply Z.div_small. lia.
Qed.

Lemma chunk_from_bounds {T} (arr : list T) size fuel : forall i,
  0 <= i -> 0 < size ->
  Forall (fun b => (1 <= List.length b <= Z.to_nat size)%nat)
         (chunk_from fuel arr size i).
Proof.
  induction fuel as [|fuel IH]; intros i Hi Hsize; [constructor|].
  simpl. destruct (Z.ltb_spec i (Z.of_nat (List.length arr))) as [Hlt|Hge];
    [|constructor].
  constructor; [|apply IH; lia].
  rewrite slice_length by lia. lia.
Qed.

Lemma chunk_from_full {T} (arr : list T) size fuel : forall i,
  0 <= i -> 0 < size ->
  Forall (fun b => List.length b = Z.to_nat size)
         (removelast (chunk_from fuel arr size i)).
Proof.
  induction fuel as [|fuel IH]; intros i Hi Hsize; [constructor|].
  cbn [chunk_from].
  destruct (Z.ltb_spec i (Z.of_nat (List.length arr))) as [Hlt|Hge];
    [|constructor].
  cbn [removelast].
  destruct (chunk_from fuel arr size (i + size)) as [|b rest] eqn:Hrest;
    [constructor|].
  constructor; [|rewrite <- Hrest; apply IH; lia].
  rewrite slice_length by lia.
  destruct fuel as [|fuel']; [discriminate|].
  cbn [chunk_from] in Hrest.
  destruct (Z.ltb_spec (i + size) (Z.of_nat (List.length arr))); [lia|discriminate].
Qed.

(** X1.  With a positive batch size, [chunk] cuts the array into
    ceil(N / size) consecutive batches: glued together they are the array,
    none is empty or longer than [size], and all but the last are full. *)
Theorem chunk_partition {T} (arr : list T) (size : Z) :
  0 < size ->
  List.concat (chunk arr size) = arr /\
  Z.of_nat (List.length (chunk arr size))
  = (Z.of_nat (List.length arr) + size - 1) / size /\
  Forall (fun b => (1 <= List.length b <= Z.to_nat size)%nat) (chunk arr size) /\
  Forall (fun b => List.length b = Z.to_nat size) (removelast (chunk arr size)).
Proof.
  intros Hsize. split; [apply chunk_concat|].
  unfold chunk. destruct (Z.leb_spec size 0) as [Hle|_]; [lia|].
  split; [|split].
  - rewrite (chunk_from_count arr size Hsize) by (simpl; lia).
    f_equal. lia.
  - apply chunk_from_bounds; lia.
  - apply chunk_from_full; lia.
Qed.

Lemma chunk_partition_witness :
  chunk [1; 2; 3; 4; 5] 2 = [[1; 2]; [3; 4]; [5]] /\
  List.concat (chunk [1; 2; 3; 4; 5] 2) = [1; 2; 3; 4; 5] /\
  Z.of_nat (List.length (chunk [1; 2; 3; 4; 5] 2)) = 3.
Proof.
  split; [reflexivity|].
  destruct (chunk_partition [1; 2; 3; 4; 5] 2 ltac:(lia)) as (Hcat & Hcount & _).
  split; [exact Hcat | exact Hcount].
Defined.

End ChunkFacts.

(* ================================================================== *)
(** ** Conflict resolution: the error case *)
(* ================================================================== *)

Module ConflictFacts.

Import TaskService SyncService.

(** X2.  [resolveConflict] throws exactly when one of the two [updated_at]
    values is not a date, and what it throws is the [RangeError] of
    [toISOString]; so it never names a winner on the strength of an invalid
    date. *)
Theorem resolveConflict_throws (E : Env) (localTask serverTask : Task) :
  (resolveConflict E localTask serverTask = inl RangeError <->
   getTime E (updated_at localTask) = None \/
   getTime E (updated_at serverTask) = None) /\
  (forall e, resolveConflict E localTask serverTask = inl e -> e = RangeError) /\
  (forall w, resolveConflict E localTask serverTask = inr w ->
     getTime E (updated_at localTask) <> None /\
     getTime E (updated_at serverTask) <> None).
Proof.
  unfold resolveConflict, toISOString_ok, js_ge, getTime.
  destruct (date_parse E (updated_at localTask)) as [t1|] eqn:H1;
    destruct (date_parse E (updated_at serverTask)) as [t2|] eqn:H2;
    simpl; try (destruct (t2 <=? t1); simpl); rewrite ?H1, ?H2;
    (split; [split; [intros H; try discriminate; auto
                    | intros [H|H]; try discriminate; reflexivity]
            | split; [intros e H; now inversion H
                     | intros w H; try discriminate; split; discriminate]]).
Qed.

(** A server copy whose [updated_at] is not a date. *)
Lemma resolveConflict_throws_witness :
  resolveConflict Scenario.online (task_of_row Scenario.task1)
                  (Scenario.remote "yesterday") = inl RangeError.
Proof.
  apply (proj1 (resolveConflict_throws Scenario.online _ _)).
  right. reflexivity.
Defined.

End ConflictFacts.

(* ================================================================== *)
(** ** Reading and overwriting tasks *)
(* ================================================================== *)

Module TaskFacts.

Import TaskService SyncService TaskRepository Run Tables ReconcileFacts.

(** X3.  [getTask] changes nothing; a task it returns has the id asked
    for, is not deleted, and is the image of a row of the table; and it
    returns null exactly when every row of that id is soft-deleted (or there
    is none). *)
Theorem getTask_live_only (taskId : string) (w : World) :
  snd (getTask taskId w) = w /\
  (forall t, fst (getTask taskId w) = inr (Some t) ->
     id t = taskId /\ is_deleted t = false /\
     exists r, In r (tasks (db w)) /\ row_is_deleted r = 0 /\ t = task_of_row r) /\
  (fst (getTask taskId w) = inr None <->
   forall r, In r (tasks (db w)) -> row_id r = taskId -> row_is_deleted r <> 0).
Proof.
  split; [reflexivity|]. unfold getTask, gets. cbn [fst].
  destruct (select_live taskId (db w)) as [row|] eqn:Hsel.
  - destruct (select_live_some _ _ _ Hsel) as (Hin & Hid & Hdel).
    split.
    + intros t Ht. injection Ht as <-. cbn [task_of_row id is_deleted].
      split; [exact Hid|]. split; [unfold truthy; rewrite Hdel; reflexivity|].
      exists row. auto.
    + split; [discriminate|]. intros Hall. exfalso.
      apply (Hall row Hin Hid Hdel).
  - split; [discriminate|]. split; [|reflexivity].
    intros _ r Hr Hid Hdel. unfold select_live in Hsel.
    apply (find_none _ _ Hsel) in Hr.
    rewrite Hid, String.eqb_refl, Hdel in Hr. discriminate.
Qed.

(** The first live row of an id, when the id names one row. *)
Lemma select_live_unique taskId d row :
  In row (tasks d) -> row_id row = taskId ->
  (forall r, In r (tasks d) -> row_id r = taskId -> r = row) ->
  select_live taskId d = if row_is_deleted row =? 0 then Some row else None.
Proof.
  intros Hin Hid Huniq. unfold select_live.
  destruct (row_is_deleted row =? 0) eqn:Hdel.
  - destruct (find _ (tasks d)) as [r|] eqn:Hfind.
    + apply find_some in Hfind. destruct Hfind as [Hr Hp].
      apply andb_prop in Hp. destruct Hp as [Hp _].
      apply String.eqb_eq in Hp. rewrite (Huniq r Hr Hp). reflexivity.
    + apply (find_none _ _ Hfind) in Hin.
      rewrite Hid, String.eqb_refl, Hdel in Hin. discriminate.
  - apply find_none_iff. intros r Hr.
    destruct (String.eqb_spec (row_id r) taskId) as [Heq|]; [|reflexivity].
    rewrite (Huniq r Hr Heq), Hdel. reflexivity.
Qed.

Lemma update_tasks_unique f taskId d row :
  In row (tasks d) -> row_id row = taskId ->
  (forall r, row_id (f r) = row_id r) ->
  (forall r, In r (tasks d) -> row_id r = taskId -> r = row) ->
  In (f row) (tasks (update_tasks f taskId d)) /\
  (forall r, In r (tasks (update_tasks f taskId d)) -> row_id r = taskId -> r = f row).
Proof.
  intros Hin Hid Hf Huniq. split.
  - simpl. apply in_map_iff. exists row. rewrite Hid, String.eqb_refl. auto.
  - intros r Hr Hrid. apply update_tasks_in in Hr. destruct Hr as (r0 & Hr0 & ->).
    destruct (String.eqb_spec (row_id r0) taskId) as [Heq|Hne].
    + rewrite (Huniq r0 Hr0 Heq). reflexivity.
    + contradiction.
Qed.

(** X4.  Overwrite then read.  [updateLocalOnly] returns normally and
    leaves the queue, the [meta] table, the clock and the generators alone;
    every task row keeps its id, [created_at], [sync_status] and
    [last_synced_at], whether or not it ends up deleted, and the rows of
    other ids are untouched.  When [taskId] names one row, [getTask]
    afterwards gives the task with the properties that were passed and the
    others as they were, whether or not the row was deleted before; a [null]
    description or [server_id] reads back as [null]; and if the row ends up
    deleted [getTask] gives null. *)
Theorem updateLocalOnly_then_getTask (taskId : string) (u : PartialTask)
    (w : World) :
  let w' := exec (updateLocalOnly taskId u) w in
  fst (updateLocalOnly taskId u w) = inr tt /\
  sync_queue (db w') = sync_queue (db w) /\
  meta (db w') = meta (db w) /\
  (ticks w', uuids w', requests w') = (ticks w, uuids w, requests w) /\
  map row_id (tasks (db w')) = map row_id (tasks (db w)) /\
  map row_created_at (tasks (db w')) = map row_created_at (tasks (db w)) /\
  map row_sync_status (tasks (db w')) = map row_sync_status (tasks (db w)) /\
  map row_last_synced_at (tasks (db w')) = map row_last_synced_at (tasks (db w)) /\
  (forall r, row_id r <> taskId ->
     (In r (tasks (db w')) <-> In r (tasks (db w)))) /\
  (forall row,
     In row (tasks (db w)) -> row_id row = taskId ->
     (forall r, In r (tasks (db w)) -> row_id r = taskId -> r = row) ->
     let deleted' := match p_is_deleted u with
                     | Some b => b
                     | None => truthy (row_is_deleted row)
                     end in
     (forall r', In r' (tasks (db w')) -> row_id r' = taskId ->
        row_sync_status r' = row_sync_status row /\
        row_last_synced_at r' = row_last_synced_at row /\
        truthy (row_is_deleted r') = deleted') /\
     fst (getTask taskId w')
     = inr (if deleted' then None
            else Some (mkTask taskId
                         (or_else (p_title u) (row_title row))
                         (match p_description u with
                          | Undefined => of_column (row_description row)
                          | passed => passed
                          end)
                         (match p_completed u with
                          | Some b => b
                          | None => truthy (row_completed row)
                          end)
                         (row_created_at row)
                         (or_else (p_updated_at u) (row_updated_at row))
                         false
                         (Some (row_sync_status row))
                         (match p_server_id u with
                          | Undefined => of_column (row_server_id row)
                          | passed => passed
                          end)
                         (row_last_synced_at row)))).
Proof.
  intros w'.
  assert (Hw' : (db w' = update_tasks (set_local u) taskId (db w)
                 /\ w' = with_db (update_tasks (set_local u) taskId) w)
                \/ (no_fields u = true /\ w' = w)).
  { subst w'. unfold exec, updateLocalOnly.
    destruct (no_fields u) eqn:Hno; [right; split; reflexivity | left; split; reflexivity]. }
  assert (Hsame : forall row, no_fields u = true -> set_local u row = row).
  { intros row. unfold no_fields, set_local.
    destruct (p_title u), (p_description u), (p_completed u), (p_updated_at u),
      (p_is_deleted u), (p_server_id u); try discriminate.
    intros _. destruct row; reflexivity. }
  assert (Hcol : forall (A : Type) (col : TaskRow -> A),
             (forall r, col (set_local u r) = col r) ->
             map col (tasks (db w')) = map col (tasks (db w))).
  { intros A col Hkeep. destruct Hw' as [[Hdb _] | [_ ->]]; [|reflexivity].
    rewrite Hdb. cbn [update_tasks tasks]. rewrite map_map. apply map_ext.
    intros r. destruct (String.eqb (row_id r) taskId); [apply Hkeep | reflexivity]. }
  split.
  { unfold updateLocalOnly. destruct (no_fields u); reflexivity. }
  split.
  { destruct Hw' as [[Hdb _] | [_ ->]]; [rewrite Hdb|]; reflexivity. }
  split.
  { destruct Hw' as [[Hdb _] | [_ ->]]; [rewrite Hdb|]; reflexivity. }
  split.
  { destruct Hw' as [[_ ->] | [_ ->]]; reflexivity. }
  split; [apply Hcol; reflexivity|].
  split; [apply Hcol; reflexivity|].
  split; [apply Hcol; reflexivity|].
  split; [apply Hcol; reflexivity|].
  split.
  { intros r Hne. destruct Hw' as [[Hdb _] | [_ ->]]; [|reflexivity].
    rewrite Hdb. cbn [update_tasks tasks]. rewrite in_map_iff. split.
    - intros (r0 & Heq & Hr0).
      destruct (String.eqb_spec (row_id r0) taskId) as [Hid0|_].
      + exfalso. subst r. apply Hne. rewrite set_local_id. exact Hid0.
      + subst r. exact Hr0.
    - intros Hr. exists r.
      destruct (String.eqb_spec (row_id r) taskId); [contradiction | auto]. }
  intros row Hin Hid Huniq deleted'.
  assert (Hrows : forall r', In r' (tasks (db w')) -> row_id r' = taskId ->
                             r' = set_local u row).
  { destruct Hw' as [[Hdb _] | [Hno ->]].
    - rewrite Hdb.
      apply (update_tasks_unique (set_local u) taskId (db w) row Hin Hid
               (set_local_id u) Huniq).
    - rewrite (Hsame row Hno). exact Huniq. }
  assert (Hsel : select_live taskId (db w')
                 = if row_is_deleted (set_local u row) =? 0
                   then Some (set_local u row) else None).
  { destruct Hw' as [[Hdb _] | [Hno ->]].
    - rewrite Hdb.
      destruct (update_tasks_unique (set_local u) taskId (db w) row Hin Hid
                  (set_local_id u) Huniq) as [Hin' Huniq'].
      apply select_live_unique; [exact Hin' | rewrite set_local_id; exact Hid
                                | exact Huniq'].
    - rewrite (Hsame row Hno). apply select_live_unique; assumption. }
  assert (Hdeleted : truthy (row_is_deleted (set_local u row)) = deleted').
  { subst deleted'. unfold set_local. cbn [row_is_deleted].
    destruct (p_is_deleted u) as [[|]|]; reflexivity. }
  split.
  { intros r' Hr' Hid'. rewrite (Hrows r' Hr' Hid').
    split; [reflexivity | split; [reflexivity | exact Hdeleted]]. }
  unfold getTask, gets. cbn [fst]. rewrite Hsel.
  rewrite <- Hdeleted. unfold truthy at 1.
  destruct (row_is_deleted (set_local u row) =? 0) eqn:Hdel; cbn [negb];
    [|reflexivity].
  unfold task_of_row. rewrite set_local_id, Hid.
  unfold truthy at 2. rewrite Hdel. cbn [negb].
  unfold set_local.
  cbn [row_title row_description row_completed row_created_at row_updated_at
       row_sync_status row_server_id row_last_synced_at].
  destruct (p_description u), (p_server_id u), (p_completed u) as [[|]|];
    reflexivity.
Qed.

Lemma enqueue_run store taskId op data w :
  enqueue store taskId op data w
  = (inr tt,
     if syncService store
     then mkWorld (insert_queue
                     (new_queue_row (uuidv4 (sync_env store) (uuids w)) taskId op
                        (Json.stringify (JObj [("data", data)]))
                        (sql_now (sync_env store) (ticks w)))
                     (db w))
                  (S (ticks w)) (S (uuids w)) (requests w)
     else w).
Proof. unfold enqueue. destruct (syncService store); reflexivity. Qed.

Lemma update_live_none f taskId d :
  (forall r, In r (tasks d) -> row_id r = taskId -> row_is_deleted r <> 0) ->
  update_live f taskId d = d.
Proof.
  intros Hnone. unfold update_live. destruct d as [ts q m]. cbn [tasks sync_queue meta] in *.
  f_equal. rewrite <- (map_id ts) at 2. apply map_ext_in. intros r Hr.
  destruct (String.eqb_spec (row_id r) taskId) as [Heq|]; [|reflexivity].
  cbn [andb]. destruct (Z.eqb_spec (row_is_deleted r) 0) as [H0|]; [|reflexivity].
  exfalso. apply (Hnone r Hr Heq H0).
Qed.

(** What [deleteTask] returns and leaves behind, spelled out. *)
Lemma deleteTask_run store taskId w :
  deleteTask store taskId w
  = (inr false,
     snd (enqueue store taskId delete JNull
            (with_db (update_tasks
                        (set_deleted (timestamp_text store
                                        (sql_now (sync_env store) (ticks w))))
                        taskId)
                     (tick w)))).
Proof.
  set (now := timestamp_text store (sql_now (sync_env store) (ticks w))).
  set (w1 := with_db (update_tasks (set_deleted now) taskId) (tick w)).
  assert (Hnull : getTask taskId w1 = (inr None, w1)).
  { apply getTask_soft_deleted. intros r Hr Hid.
    apply update_tasks_in in Hr. destruct Hr as (r0 & _ & ->).
    destruct (String.eqb (row_id r0) taskId) eqn:Heq.
    - cbn. discriminate.
    - apply String.eqb_neq in Heq. contradiction. }
  unfold deleteTask, try_catch. unfold bind at 1. cbn [CURRENT_TIMESTAMP].
  unfold bind at 1. cbn [modify]. fold now. fold w1.
  unfold bind at 1. rewrite Hnull. cbn [json_of_result].
  unfold bind at 1. rewrite enqueue_run. reflexivity.
Qed.

(** X5.  [deleteTask] marks every row of the id deleted and pending,
    stamps it with the time of the call and leaves the other rows alone; it
    then reads the task back, which is now always null, so it returns false
    in every case and, when the sync service is set, queues a [delete] item
    whose data is null, also for an id that names no task. *)
Theorem deleteTask_returns_false (store : Store) (taskId : string) (w : World) :
  let E := sync_env store in
  let w' := exec (deleteTask store taskId) w in
  let queued :=
    mkQueueRow (uuidv4 E (uuids w)) taskId delete
               (Json.stringify (JObj [("data", JNull)]))
               (sql_now E (S (ticks w))) (Some 0) None None in
  fst (deleteTask store taskId w) = inr false /\
  map row_id (tasks (db w')) = map row_id (tasks (db w)) /\
  (forall r, In r (tasks (db w')) -> row_id r = taskId ->
     row_is_deleted r = 1 /\ row_sync_status r = pending /\
     row_updated_at r = timestamp_text store (sql_now E (ticks w))) /\
  (forall r, In r (tasks (db w')) -> row_id r <> taskId -> In r (tasks (db w))) /\
  sync_queue (db w')
  = (if syncService store then sync_queue (db w) ++ [queued] else sync_queue (db w)) /\
  safeParseData (q_data queued) = JObj [("data", JNull)].
Proof.
  intros E w' queued.
  set (now := timestamp_text store (sql_now E (ticks w))).
  set (w1 := with_db (update_tasks (set_deleted now) taskId) (tick w)).
  assert (Hrun : deleteTask store taskId w
                 = (inr false, snd (enqueue store taskId delete JNull w1)))
    by apply deleteTask_run.
  subst w'. unfold exec. rewrite Hrun. cbn [fst snd].
  rewrite enqueue_run. cbn [snd].
  assert (Htasks : tasks (db (if syncService store
            then mkWorld (insert_queue
                     (new_queue_row (uuidv4 (sync_env store) (uuids w1)) taskId delete
                        (Json.stringify (JObj [("data", JNull)]))
                        (sql_now (sync_env store) (ticks w1))) (db w1))
                   (S (ticks w1)) (S (uuids w1)) (requests w1)
            else w1))
          = tasks (update_tasks (set_deleted now) taskId (db w))).
  { destruct (syncService store); reflexivity. }
  rewrite Htasks.
  split; [reflexivity|].
  split; [apply update_tasks_ids; reflexivity|].
  split; [|split; [|split]].
  - intros r Hr Hid. apply update_tasks_in in Hr. destruct Hr as (r0 & _ & ->).
    destruct (String.eqb_spec (row_id r0) taskId); [repeat split | contradiction].
  - intros r Hr Hne. apply update_tasks_in in Hr. destruct Hr as (r0 & Hr0 & ->).
    destruct (String.eqb_spec (row_id r0) taskId) as [Heq|]; [|exact Hr0].
    exfalso. apply Hne. exact Heq.
  - destruct (syncService store); reflexivity.
  - vm_compute. reflexivity.
Qed.

Lemma json_of_task_wf t : Json.wf (JObj [("data", json_of_task t)]).
Proof.
  unfold json_of_task.
  destruct (server_id t), (description t), (sync_status t), (last_synced_at t);
    simpl;
    (split; [repeat constructor; simpl; tauto|]);
    (split; [|exact I]);
    (split; [repeat constructor; simpl; intuition discriminate | tauto]).
Qed.

(** X6.  [updateTask] on an id with no live row (unknown, or soft-deleted)
    changes no task and returns null, and still queues an [update] item, with
    null as its data, when the sync service is set. *)
Theorem updateTask_without_live_row (store : Store) (taskId : string)
    (updates : PartialTask) (w : World) :
  (forall r, In r (tasks (db w)) -> row_id r = taskId -> row_is_deleted r <> 0) ->
  let E := sync_env store in
  let w' := exec (updateTask store taskId updates) w in
  let queued :=
    mkQueueRow (uuidv4 E (uuids w)) taskId update
               (Json.stringify (JObj [("data", JNull)]))
               (sql_now E (S (ticks w))) (Some 0) None None in
  fst (updateTask store taskId updates w) = inr None /\
  tasks (db w') = tasks (db w) /\
  sync_queue (db w')
  = (if syncService store then sync_queue (db w) ++ [queued] else sync_queue (db w)).
Proof.
  intros Hnone E w' queued.
  set (now := timestamp_text store (sql_now E (ticks w))).
  assert (Hw1 : with_db (update_live (set_update updates now) taskId) (tick w) = tick w).
  { unfold with_db. cbn [db tick]. rewrite (update_live_none _ _ _ Hnone).
    reflexivity. }
  assert (Hnull : getTask taskId (tick w) = (inr None, tick w))
    by (apply getTask_soft_deleted; exact Hnone).
  assert (Hrun : updateTask store taskId updates w
                 = (inr None, snd (enqueue store taskId update JNull (tick w)))).
  { unfold updateTask, try_catch. unfold bind at 1. cbn [CURRENT_TIMESTAMP].
    unfold bind at 1. cbn [modify]. fold E. fold now. rewrite Hw1.
    unfold bind at 1. rewrite Hnull. cbn [json_of_result].
    unfold bind at 1. rewrite enqueue_run. reflexivity. }
  subst w'. unfold exec. rewrite Hrun. cbn [fst snd].
  rewrite enqueue_run. cbn [snd].
  split; [reflexivity|].
  destruct (syncService store); split; reflexivity.
Qed.

Lemma update_live_unique f taskId d row :
  In row (tasks d) -> row_id row = taskId -> row_is_deleted row = 0 ->
  (forall r, row_id (f r) = row_id r) ->
  (forall r, In r (tasks d) -> row_id r = taskId -> r = row) ->
  In (f row) (tasks (update_live f taskId d)) /\
  (forall r, In r (tasks (update_live f taskId d)) -> row_id r = taskId -> r = f row).
Proof.
  intros Hin Hid Hdel Hf Huniq. split.
  - simpl. apply in_map_iff. exists row.
    rewrite Hid, String.eqb_refl, Hdel. auto.
  - intros r Hr Hrid. simpl in Hr. apply in_map_iff in Hr.
    destruct Hr as (r0 & <- & Hr0).
    destruct (String.eqb_spec (row_id r0) taskId) as [Heq|Hne]; cbn [andb] in *.
    + rewrite (Huniq r0 Hr0 Heq), Hdel. reflexivity.
    + contradiction.
Qed.

(** X7.  [updateTask] on the one live row of an id returns the task with
    the fields that were passed, [updated_at] set to the time of the call and
    [sync_status] pending, leaves the other rows alone, and, when the sync
    service is set, queues an [update] item whose data reads back as the
    task returned. *)
Theorem updateTask_live_row (store : Store) (taskId : string)
    (updates : PartialTask) (w : World) (row : TaskRow) :
  In row (tasks (db w)) -> row_id row = taskId -> row_is_deleted row = 0 ->
  (forall r, In r (tasks (db w)) -> row_id r = taskId -> r = row) ->
  let E := sync_env store in
  let w' := exec (updateTask store taskId updates) w in
  let t :=
    mkTask taskId
      (or_else (p_title updates) (row_title row))
      (match p_description updates with
       | Undefined => of_column (row_description row)
       | passed => passed
       end)
      (match p_completed updates with
       | Some b => b
       | None => truthy (row_completed row)
       end)
      (row_created_at row)
      (timestamp_text store (sql_now E (ticks w)))
      false (Some pending) (of_column (row_server_id row))
      (row_last_synced_at row) in
  fst (updateTask store taskId updates w) = inr (Some t) /\
  fst (getTask taskId w') = inr (Some t) /\
  (forall r, In r (tasks (db w')) -> row_id r <> taskId -> In r (tasks (db w))) /\
  (syncService store = true ->
   exists q, sync_queue (db w') = sync_queue (db w) ++ [q] /\
             q_task_id q = taskId /\ q_operation q = update /\
             Json.get (safeParseData (q_data q)) "data" = Some (json_of_task t)).
Proof.
  intros Hin Hid Hdel Huniq E w' t.
  set (now := timestamp_text store (sql_now E (ticks w))).
  set (w1 := with_db (update_live (set_update updates now) taskId) (tick w)).
  destruct (update_live_unique (set_update updates now) taskId (db w) row
              Hin Hid Hdel (fun _ => eq_refl) Huniq) as [Hin1 Huniq1].
  assert (Hsel : select_live taskId (db w1) = Some (set_update updates now row)).
  { rewrite (select_live_unique taskId (db w1) (set_update updates now row)
               Hin1 Hid Huniq1).
    cbn [set_update row_is_deleted]. rewrite Hdel. reflexivity. }
  assert (Ht : task_of_row (set_update updates now row) = t).
  { subst t. unfold task_of_row, set_update. cbn. rewrite Hid, Hdel.
    destruct (p_description updates), (p_completed updates) as [[|]|];
      reflexivity. }
  assert (Hget : getTask taskId w1 = (inr (Some t), w1)).
  { rewrite (getTask_live _ _ _ Hsel), Ht. reflexivity. }
  assert (Hrun : updateTask store taskId updates w
                 = (inr (Some t),
                    snd (enqueue store taskId update (json_of_task t) w1))).
  { unfold updateTask, try_catch. unfold bind at 1. cbn [CURRENT_TIMESTAMP].
    unfold bind at 1. cbn [modify]. fold E. fold now. fold w1.
    unfold bind at 1. rewrite Hget. cbn [json_of_result].
    unfold bind at 1. rewrite enqueue_run. reflexivity. }
  assert (Htasks : tasks (db w') = tasks (db w1)).
  { subst w'. unfold exec. rewrite Hrun. cbn [snd]. rewrite enqueue_run. cbn [snd].
    destruct (syncService store); reflexivity. }
  split; [rewrite Hrun; reflexivity|].
  split.
  { assert (Hsel' : select_live taskId (db w') = Some (set_update updates now row)).
    { unfold select_live in *. rewrite Htasks. exact Hsel. }
    rewrite (getTask_live _ _ _ Hsel'), Ht. reflexivity. }
  split.
  { intros r Hr Hne. rewrite Htasks in Hr. simpl in Hr. apply in_map_iff in Hr.
    destruct Hr as (r0 & <- & Hr0).
    destruct (String.eqb_spec (row_id r0) taskId) as [Heq|]; [|exact Hr0].
    exfalso. apply Hne. cbn [andb].
    destruct (row_is_deleted r0 =? 0); [exact Heq | exact Heq]. }
  intros Hsync. subst w'. unfold exec. rewrite Hrun. cbn [snd].
  rewrite enqueue_run, Hsync. cbn [snd db insert_queue sync_queue].
  eexists. split; [reflexivity|].
  cbn [new_queue_row q_task_id q_operation q_data].
  split; [reflexivity|]. split; [reflexivity|].
  unfold safeParseData. rewrite JsonFacts.stringify_not_empty.
  rewrite JsonFacts.parse_stringify by apply json_of_task_wf.
  cbn [Json.get Json.obj_get]. reflexivity.
Qed.

Import Scenario MoreScenarios.

(** [t1] is live, [t2] is soft-deleted. *)
Lemma getTask_live_only_witness :
  fst (getTask "t2" w0) = inr None /\
  (forall t, fst (getTask "t1" w0) = inr (Some t) -> id t = "t1" /\ is_deleted t = false).
Proof.
  split.
  - apply (proj2 (proj2 (getTask_live_only "t2" w0))).
    intros r [<-|[<-|[]]] Hid; [discriminate Hid | discriminate].
  - intros t Ht.
    destruct (proj1 (proj2 (getTask_live_only "t1" w0)) t Ht) as (H1 & H2 & _).
    split; [exact H1 | exact H2].
Defined.

Lemma unique_t1 : forall r, In r (tasks (db w0)) -> row_id r = "t1" -> r = task1.
Proof. intros r [<-|[<-|[]]] Hid; [reflexivity | discriminate Hid]. Qed.

Lemma unique_t2 : forall r, In r (tasks (db w0)) -> row_id r = "t2" -> r = task2.
Proof. intros r [<-|[<-|[]]] Hid; [discriminate Hid | reflexivity]. Qed.

(** Overwriting the soft-deleted [t2] with [is_deleted: false] brings it
    back; overwriting [t1] with a [null] description empties the column. *)
Lemma updateLocalOnly_then_getTask_witness :
  In task2 (tasks (db w0)) /\
  fst (getTask "t2" w0) = inr None /\
  fst (getTask "t2" (exec (updateLocalOnly "t2" revive) w0))
  = inr (Some (mkTask "t2" "read again" (Text "") false "2024-01-01" "2024-01-01"
                      false (Some pending) Null None)) /\
  map row_sync_status (tasks (db (exec (updateLocalOnly "t2" revive) w0)))
  = [pending; pending] /\
  fst (getTask "t1" (exec (updateLocalOnly "t1" forget) w0))
  = inr (Some (mkTask "t1" "write" Null false "2024-01-01" "2024-01-02"
                      false (Some pending) Null None)).
Proof.
  assert (Hin : In task2 (tasks (db w0))) by (simpl; auto).
  split; [exact Hin|]. split; [reflexivity|].
  destruct (updateLocalOnly_then_getTask "t2" revive w0)
    as (_ & _ & _ & _ & _ & _ & Hstatus & _ & _ & Hone).
  split; [exact (proj2 (Hone task2 Hin eq_refl unique_t2))|].
  split; [exact Hstatus|].
  destruct (updateLocalOnly_then_getTask "t1" forget w0)
    as (_ & _ & _ & _ & _ & _ & _ & _ & _ & Hone1).
  exact (proj2 (Hone1 task1 (or_introl eq_refl) eq_refl unique_t1)).
Defined.

(** Updating the soft-deleted [t2] returns null and queues an update. *)
Lemma updateTask_without_live_row_witness :
  (forall r, In r (tasks (db w0)) -> row_id r = "t2" -> row_is_deleted r <> 0) /\
  fst (updateTask store0 "t2" retitle w0) = inr None /\
  List.length (sync_queue (db (exec (updateTask store0 "t2" retitle) w0))) = 4%nat.
Proof.
  assert (Hdel : forall r, In r (tasks (db w0)) -> row_id r = "t2" ->
                           row_is_deleted r <> 0).
  { intros r Hr Hid. rewrite (unique_t2 r Hr Hid). discriminate. }
  split; [exact Hdel|].
  destruct (updateTask_without_live_row store0 "t2" retitle w0 Hdel)
    as (Hret & _ & Hq).
  split; [exact Hret|]. rewrite Hq. reflexivity.
Defined.

(** Updating the live [t1]. *)
Lemma updateTask_live_row_witness :
  In task1 (tasks (db w0)) /\
  fst (updateTask store0 "t1" retitle w0)
  = inr (Some (mkTask "t1" "rewrite" (Text "") true "2024-01-01"
                      "2024-01-03 00:00:00" false (Some pending) Null None)).
Proof.
  assert (Hin : In task1 (tasks (db w0))) by (simpl; auto).
  split; [exact Hin|].
  exact (proj1 (updateTask_live_row store0 "t1" retitle w0 task1
                  Hin eq_refl eq_refl unique_t1)).
Defined.

End TaskFacts.

(* ================================================================== *)
(** ** The routes *)
(* ================================================================== *)

Module RouteFacts.

Import TaskService SyncService Routes Run Tables QueueFacts.

(** X8.  The checks of [PUT /:id] let a body through only when [title] and
    [description] are both the empty string and [completed] is absent: every
    other body, and so every update that would change something to a
    non-empty text or set [completed], is answered 400. *)
Theorem put_validation_passes (title description completed : JsVal) :
  put_validation title description completed = None <->
  title = JsString "" /\ description = JsString "" /\ completed = JsUndefined.
Proof.
  split.
  - unfold put_validation.
    destruct title as [| |[]|n|[|c s]|], description as [| |[]|m|[|c' s']|],
      completed as [| |b|k|s2|]; cbn;
      repeat match goal with
             | |- context [?x =? 0] => destruct (x =? 0); cbn
             end;
      try discriminate; auto.
  - intros (-> & -> & ->). reflexivity.
Qed.

Lemma put_validation_passes_witness :
  put_validation (JsString "") (JsString "") JsUndefined = None /\
  put_validation (JsString "write") JsUndefined JsUndefined
  = Some "Title must be a string" /\
  put_validation JsUndefined JsUndefined (JsBool true)
  = Some "At least one field (title, description, completed) must be provided for update".
Proof.
  split; [|split; reflexivity].
  apply (proj2 (put_validation_passes _ _ _)). repeat split.
Defined.

Lemma order_by_created_length l :
  List.length (order_by_created l) = List.length l.
Proof. apply Permutation_length, order_by_created_perm. Qed.

(** X9.  [GET /status] leaves the three tables as they are, and the pending
    count it reports (twice, as [pending_sync_count] and [sync_queue_size])
    is the number of items the next cycle would fetch, so rows at the retry
    ceiling are not counted. *)
Theorem get_status_counts (E : Env) (w : World) :
  exists reply,
    get_status E w
    = (inr reply, mkWorld (db w) (ticks w) (uuids w) (S (requests w))) /\
    (forall fetched, fst (getQueueItemsToProcess E w) = inr fetched ->
       pending_sync_count reply = Z.of_nat (List.length fetched)) /\
    sync_queue_size reply = pending_sync_count reply /\
    (pending_sync_count reply
     <= Z.of_nat (List.length (sync_queue (db w)))) /\
    is_online reply = health E (requests w).
Proof.
  eexists. split; [reflexivity|]. cbn [pending_sync_count sync_queue_size is_online].
  split; [|split; [reflexivity | split; [|reflexivity]]].
  - intros fetched Hf. unfold getQueueItemsToProcess, gets in Hf. cbn [fst] in Hf.
    injection Hf as <-. unfold count_pending, eligible_rows.
    rewrite length_map, order_by_created_length. reflexivity.
  - unfold count_pending. apply inj_le. apply filter_length_le.
Qed.

(** X10.  [POST /sync] probes the server and then runs [sync], which probes
    again: it answers 503, with nothing touched, when the first probe fails;
    and when the first probe succeeds and the second fails it answers with a
    result whose [success] is false and whose counts are zero, nothing
    touched either. *)
Theorem post_sync_replies (E : Env) (w : World) :
  (health E (requests w) = false ->
   post_sync E w
   = (inr ServiceUnavailable, mkWorld (db w) (ticks w) (uuids w) (S (requests w)))) /\
  (health E (requests w) = true -> health E (S (requests w)) = false ->
   post_sync E w
   = (inr (Done (mkResult false 0 0 [])),
      mkWorld (db w) (ticks w) (uuids w) (S (S (requests w))))) /\
  (health E (requests w) = true ->
   post_sync E w
   = (inr (Done (fst (sync E (mkWorld (db w) (ticks w) (uuids w) (S (requests w)))))),
      snd (sync E (mkWorld (db w) (ticks w) (uuids w) (S (requests w)))))).
Proof.
  unfold post_sync, bind, checkConnectivity.
  split; [|split].
  - intros ->. reflexivity.
  - intros -> Hoff. cbn [negb].
    unfold sync, exec, sync_cycle, bind, in_world, checkConnectivity.
    cbn [world result requests db ticks uuids]. rewrite Hoff. reflexivity.
  - intros ->. cbn [negb].
    destruct (sync E _) as [r w']. reflexivity.
Qed.

Lemma post_sync_replies_witness :
  health Scenario.offline (requests Scenario.w0) = false /\
  fst (post_sync Scenario.offline Scenario.w0) = inr ServiceUnavailable /\
  db (snd (post_sync Scenario.offline Scenario.w0)) = Scenario.db0.
Proof.
  split; [reflexivity|].
  rewrite (proj1 (post_sync_replies Scenario.offline Scenario.w0) eq_refl).
  split; reflexivity.
Defined.

End RouteFacts.

(* ================================================================== *)
(** ** Poisoned rows and idle cycles *)
(* ================================================================== *)

Module PoisonFacts.

Import TaskService SyncService TaskRepository Run Tables QueueFacts.

Lemma filter_none {A} (p : A -> bool) l :
  (forall x, In x l -> p x = false) -> filter p l = [].
Proof.
  induction l as [|a l IH]; intros H; [reflexivity|].
  simpl. rewrite (H a) by (now left). apply IH. intros x Hx. apply H. now right.
Qed.

(** X11.  An online cycle over a queue that is empty, or whose rows have all
    reached the retry ceiling, sends nothing: it returns [success = true]
    with both counts at zero, and the tables, the clock and the uuid
    generator are as they were. *)
Theorem sync_nothing_to_send (E : Env) (w : World) :
  health E (requests w) = true ->
  (forall q, In q (sync_queue (db w)) -> MAX_RETRY E <= or_else (q_retry_count q) 0) ->
  sync E w
  = (mkResult true 0 0 [], mkWorld (db w) (ticks w) (uuids w) (S (requests w))).
Proof.
  intros Hon Hall.
  assert (Hnone : eligible_rows E (db w) = []).
  { unfold eligible_rows. rewrite filter_none; [reflexivity|].
    intros q Hq. unfold retryable. apply Z.ltb_ge. apply Hall, Hq. }
  unfold sync, exec, sync_cycle, bind, in_world, checkConnectivity,
    getQueueItemsToProcess, gets.
  cbn [world result requests db ticks uuids fst snd]. rewrite Hon.
  cbn [negb world result db fst snd]. rewrite Hnone. reflexivity.
Qed.

Lemma sync_nothing_to_send_witness :
  health Scenario.online 0 = true /\
  sync_queue MoreScenarios.db_poisoned <> [] /\
  fst (sync Scenario.online (mkWorld MoreScenarios.db_poisoned 0 0 0))
  = mkResult true 0 0 [] /\
  db (snd (sync Scenario.online (mkWorld MoreScenarios.db_poisoned 0 0 0)))
  = MoreScenarios.db_poisoned.
Proof.
  split; [reflexivity|]. split; [discriminate|].
  rewrite (sync_nothing_to_send Scenario.online
             (mkWorld MoreScenarios.db_poisoned 0 0 0) eq_refl).
  - split; reflexivity.
  - intros q [<-|[<-|[]]]; simpl; lia.
Defined.

(** X12.  Right after [handleSyncError] has brought an item to the retry
    ceiling, [getQueueItemsToProcess] returns no row of its id, while the
    row itself stays in the table; and its task, if live, is listed by
    [getTasksNeedingSync] with status [error].  The exclusion rests on the
    stored count alone, and [handleSyncError] writes the count of the item
    it is handed, not of the row: a later call with a copy of the item whose
    count is still below the ceiling lowers the stored count, and the row is
    fetched again. *)
Theorem poisoned_row_is_excluded (E : Env) (item : SyncQueueItem) (err : Exn)
    (w : World) :
  MAX_RETRY E <= retry_of item + 1 ->
  let w' := exec (handleSyncError E item err) w in
  (forall fetched it, fst (getQueueItemsToProcess E w') = inr fetched ->
     In it fetched -> item_id it <> item_id item) /\
  map q_id (sync_queue (db w')) = map q_id (sync_queue (db w)) /\
  (forall r, In r (tasks (db w)) -> row_id r = item_task_id item ->
     row_is_deleted r = 0 ->
     exists t, In t (match fst (getTasksNeedingSync w') with
                     | inr l => l
                     | inl _ => []
                     end)
               /\ id t = item_task_id item /\ sync_status t = Some error) /\
  (forall stale err' q,
     item_id stale = item_id item ->
     retry_of stale + 1 < MAX_RETRY E ->
     In q (sync_queue (db w)) -> q_id q = item_id item ->
     exists it fetched,
       fst (getQueueItemsToProcess E (exec (handleSyncError E stale err') w'))
       = inr fetched /\
       In it fetched /\ item_id it = item_id item /\
       item_retry_count it = Some (retry_of stale + 1)).
Proof.
  intros Hmax w'. split; [|split; [|split]].
  - intros fetched it Hf Hit Hid.
    unfold getQueueItemsToProcess, gets in Hf. cbn [fst] in Hf. injection Hf as <-.
    apply in_map_iff in Hit. destruct Hit as (q & <- & Hq).
    apply eligible_rows_in in Hq. destruct Hq as [Hq Hlt].
    subst w'. rewrite handleSyncError_queue in Hq.
    apply record_error_in in Hq.
    destruct Hq as (q0 & _ & Hid0 & [(_ & Hretry & _) | (Hne & ->)]).
    + rewrite Hretry in Hlt. cbn [or_else] in Hlt. lia.
    + apply Hne. exact Hid.
  - subst w'. rewrite handleSyncError_queue. apply record_error_ids.
  - intros r Hr Hid Hdel.
    set (r' := set_status error (iso_now E (S (ticks w))) None r).
    assert (Hr' : In r' (tasks (db w'))).
    { subst w'. unfold exec. rewrite handleSyncError_run. cbn [snd].
      apply Z.leb_le in Hmax. rewrite Hmax. cbn [db update_tasks tasks].
      apply in_map_iff. exists r. rewrite Hid, String.eqb_refl. auto. }
    exists (task_of_row r'). split; [|split].
    + unfold getTasksNeedingSync, gets. cbn [fst]. apply in_map, filter_In.
      split; [exact Hr'|]. unfold needs_sync, r'.
      cbn [set_status row_sync_status row_is_deleted or_else p_is_deleted].
      rewrite Hdel. reflexivity.
    + cbn. exact Hid.
    + reflexivity.
  - intros stale err' q Hstale Hlow Hq Hqid.
    set (q1 := mkQueueRow (q_id q) (q_task_id q) (q_operation q) (q_data q)
                 (q_created_at q) (Some (retry_of item + 1)) (Some (message err))
                 (Some (iso_now E (ticks w)))).
    assert (Hq1 : In q1 (sync_queue (db w'))).
    { subst w'. rewrite handleSyncError_queue.
      apply record_error_hit; assumption. }
    set (q2 := mkQueueRow (q_id q1) (q_task_id q1) (q_operation q1) (q_data q1)
                 (q_created_at q1) (Some (retry_of stale + 1))
                 (Some (message err')) (Some (iso_now E (ticks w')))).
    assert (Hq2 : In q2 (sync_queue (db (exec (handleSyncError E stale err') w')))).
    { rewrite handleSyncError_queue. apply record_error_hit; [exact Hq1|].
      rewrite Hstale. exact Hqid. }
    exists (item_of_row q2), (map item_of_row
      (eligible_rows E (db (exec (handleSyncError E stale err') w')))).
    split; [reflexivity|]. split; [|split; [exact Hqid | reflexivity]].
    apply in_map, eligible_rows_in. split; [exact Hq2 | exact Hlow].
Qed.

(** The third failure of [q2] poisons it; a failure reported with a copy of
    [q2] that still counts no retries brings it back. *)
Lemma poisoned_row_is_excluded_witness :
  MAX_RETRY Scenario.online <= retry_of Scenario.item2 + 1 /\
  (forall fetched it,
     fst (getQueueItemsToProcess Scenario.online
            (exec (handleSyncError Scenario.online Scenario.item2 Scenario.timeout)
                  Scenario.w0)) = inr fetched ->
     In it fetched -> item_id it <> "q2") /\
  exists it fetched,
    fst (getQueueItemsToProcess Scenario.online
           (exec (handleSyncError Scenario.online
                    (mkItem "q2" "t2" delete "{}" 20 (Some 0)) Scenario.timeout)
                 (exec (handleSyncError Scenario.online Scenario.item2 Scenario.timeout)
                       Scenario.w0)))
    = inr fetched /\
    In it fetched /\ item_id it = "q2" /\ item_retry_count it = Some 1.
Proof.
  assert (Hmax : MAX_RETRY Scenario.online <= retry_of Scenario.item2 + 1)
    by (simpl; lia).
  split; [exact Hmax|].
  destruct (poisoned_row_is_excluded Scenario.online Scenario.item2
              Scenario.timeout Scenario.w0 Hmax) as (Hout & _ & _ & Hback).
  split; [exact Hout|].
  apply (Hback (mkItem "q2" "t2" delete "{}" 20 (Some 0)) Scenario.timeout
               Scenario.row2).
  - reflexivity.
  - simpl. lia.
  - simpl. auto.
  - reflexivity.
Defined.

End PoisonFacts.

(* ================================================================== *)
(** ** The other verdicts, and batches that go wrong half-way *)
(* ================================================================== *)

Module VerdictFacts.

Import TaskService SyncService Run Tables ReconcileFacts BatchFacts.

Section WithEnv.

Variable E : Env.

Lemma on_server_wins_run qi serverTask s :
  on_server_wins E qi serverTask s
  = (inr tt,
     let u := mkPartial (Some (title serverTask)) (description serverTask)
                (Some (completed serverTask)) (Some (updated_at serverTask))
                (Some (is_deleted serverTask)) (server_id serverTask) in
     let now := iso_now E (ticks (world s)) in
     mkSyncState
       (mkWorld
          (delete_queue (item_id qi)
             (update_tasks (set_status synced now (Some u)) (item_task_id qi)
                (update_tasks (set_local u) (item_task_id qi) (db (world s)))))
          (S (S (ticks (world s)))) (uuids (world s)) (requests (world s)))
       (mkResult (success (result s)) (synced_items (result s) + 1)
                 (failed_items (result s))
                 (errors (result s)
                  ++ [mkSyncError (item_task_id qi) (item_operation qi)
                        "Conflict resolved using last-write-wins (server newer)"
                        (iso_now E (S (ticks (world s))))]))).
Proof. reflexivity. Qed.

(** X13.  For a conflict answer whose task is live locally and for which
    [resolveConflict] returns the server's task, the loop body overwrites the
    rows of the task with the server's title, completed flag, [updated_at]
    and [is_deleted], and with its description and [server_id] when it has
    them (a string is written, [null] writes NULL, an absent property leaves
    the column),
    marks them [synced] with [last_synced_at] the time of the call, removes
    the rows of the item's id from the queue and queues nothing, counts the
    item as synced, not failed, and still adds one record to the error list. *)
Theorem sync_conflict_server_wins (batch : list SyncQueueItem) (p : ProcessedItem)
    (qi : SyncQueueItem) (s : SyncState) (row : TaskRow) (serverTask : Task) :
  byClientId_get batch (client_id p) = Some qi ->
  status p = VConflict ->
  select_live (item_task_id qi) (db (world s)) = Some row ->
  resolved_data p = Some serverTask ->
  resolveConflict E (task_of_row row) serverTask = inr ServerTask ->
  let s' := exec (reconcile E batch p) s in
  fst (reconcile E batch p s) = inr tt /\
  map row_id (tasks (db (world s'))) = map row_id (tasks (db (world s))) /\
  (forall r, In r (tasks (db (world s'))) -> row_id r = item_task_id qi ->
     row_title r = title serverTask /\
     row_completed r = to_int (completed serverTask) /\
     row_updated_at r = updated_at serverTask /\
     row_is_deleted r = to_int (is_deleted serverTask) /\
     row_sync_status r = synced /\
     row_last_synced_at r = Some (iso_now E (ticks (world s))) /\
     (forall d, description serverTask = Text d -> row_description r = Some d) /\
     (description serverTask = Null -> row_description r = None) /\
     (forall sid, server_id serverTask = Text sid -> row_server_id r = Some sid) /\
     (server_id serverTask = Null -> row_server_id r = None)) /\
  (description serverTask = Undefined ->
     map row_description (tasks (db (world s')))
     = map row_description (tasks (db (world s)))) /\
  (server_id serverTask = Undefined ->
     map row_server_id (tasks (db (world s')))
     = map row_server_id (tasks (db (world s)))) /\
  (forall r, In r (tasks (db (world s'))) -> row_id r <> item_task_id qi ->
     In r (tasks (db (world s)))) /\
  (forall q, In q (sync_queue (db (world s'))) <->
             In q (sync_queue (db (world s))) /\ q_id q <> item_id qi) /\
  synced_items (result s') = synced_items (result s) + 1 /\
  failed_items (result s') = failed_items (result s) /\
  success (result s') = success (result s) /\
  errors (result s')
  = errors (result s)
    ++ [mkSyncError (item_task_id qi) (item_operation qi)
          "Conflict resolved using last-write-wins (server newer)"
          (iso_now E (S (ticks (world s))))].
Proof.
  intros Hget Hst Hrow Hdata Hwin s'.
  assert (Hrun : reconcile E batch p s
            = bind (on_server_wins E qi serverTask)
                   (fun _ => in_world (mark_last_sync E)) s).
  { unfold reconcile. rewrite Hget, Hst. unfold bind at 1.
    rewrite (in_world_value _ s _ _ (getTask_live _ _ _ Hrow)).
    rewrite Hdata. cbn [result world]. unfold bind at 1. rewrite Hwin.
    cbn [lift_result ret]. destruct s; reflexivity. }
  subst s'. unfold exec. rewrite Hrun.
  rewrite (bind_value _ _ _ _ _ (on_server_wins_run qi serverTask s)).
  rewrite mark_last_sync_run.
  cbn [fst snd world result db with_db tick set_meta delete_queue
       tasks sync_queue synced_items failed_items errors success].
  split; [reflexivity|].
  split.
  { rewrite !update_tasks_ids; [reflexivity | intros; apply set_local_id
                               | intros; apply set_status_id]. }
  split.
  { intros r Hr Hid. apply update_tasks_in in Hr. destruct Hr as (r1 & Hr1 & ->).
    apply update_tasks_in in Hr1. destruct Hr1 as (r0 & _ & ->).
    destruct (String.eqb_spec (row_id r0) (item_task_id qi)) as [Heq|Hne].
    - rewrite set_local_id, Heq, String.eqb_refl. cbn.
      destruct (description serverTask), (server_id serverTask); cbn;
        repeat split; intros; congruence.
    - exfalso. rewrite (proj2 (String.eqb_neq _ _) Hne) in Hid. contradiction. }
  assert (Hcol : forall (A : Type) (col : TaskRow -> A) u,
            (forall r, col (set_status synced (iso_now E (ticks (world s))) (Some u)
                              (set_local u r)) = col r) ->
            map col (tasks (update_tasks
                              (set_status synced (iso_now E (ticks (world s))) (Some u))
                              (item_task_id qi)
                              (update_tasks (set_local u) (item_task_id qi)
                                            (db (world s)))))
            = map col (tasks (db (world s)))).
  { intros A col u Hkeep. cbn [update_tasks tasks]. rewrite !map_map.
    apply map_ext. intros r.
    destruct (String.eqb_spec (row_id r) (item_task_id qi)) as [Heq|Hne].
    - rewrite set_local_id, Heq, String.eqb_refl. apply Hkeep.
    - rewrite (proj2 (String.eqb_neq _ _) Hne). reflexivity. }
  split.
  { intros Hnone. apply Hcol. intros r. cbn. rewrite Hnone. reflexivity. }
  split.
  { intros Hnone. apply Hcol. intros r. cbn. rewrite Hnone. reflexivity. }
  split.
  { intros r Hr Hne. apply update_tasks_in in Hr. destruct Hr as (r1 & Hr1 & ->).
    apply update_tasks_in in Hr1. destruct Hr1 as (r0 & Hr0 & ->).
    destruct (String.eqb_spec (row_id r0) (item_task_id qi)) as [Heq|Hne0].
    - exfalso. rewrite set_local_id, Heq, String.eqb_refl in Hne.
      apply Hne. exact Heq.
    - rewrite (proj2 (String.eqb_neq _ _) Hne0). exact Hr0. }
  split; [|repeat split].
  intros q. rewrite filter_In.
  destruct (String.eqb_spec (q_id q) (item_id qi)); simpl; intuition congruence.
Qed.

(** X14.  For an answer whose status is neither [success] nor [conflict],
    the loop body returns normally; the item goes through retry accounting
    with the server's error text, or with "Server error" when the answer
    gives none or an empty one; no queue row is removed; the failed count
    goes up by one and the same text is recorded in the error list. *)
Theorem sync_error_verdict (batch : list SyncQueueItem) (p : ProcessedItem)
    (qi : SyncQueueItem) (s : SyncState) :
  byClientId_get batch (client_id p) = Some qi ->
  status p = VOther ->
  let msg := match processed_error p with
             | Some e => if String.eqb e "" then "Server error" else e
             | None => "Server error"
             end in
  let w1 := exec (handleSyncError E qi (mkError msg)) (world s) in
  let s' := exec (reconcile E batch p) s in
  fst (reconcile E batch p s) = inr tt /\
  tasks (db (world s')) = tasks (db w1) /\
  sync_queue (db (world s')) = sync_queue (db w1) /\
  map q_id (sync_queue (db (world s'))) = map q_id (sync_queue (db (world s))) /\
  (forall q', In q' (sync_queue (db (world s'))) -> q_id q' = item_id qi ->
     q_retry_count q' = Some (retry_of qi + 1) /\ q_last_error q' = Some msg) /\
  failed_items (result s') = failed_items (result s) + 1 /\
  synced_items (result s') = synced_items (result s) /\
  success (result s') = success (result s) /\
  errors (result s')
  = errors (result s)
    ++ [mkSyncError (item_task_id qi) (item_operation qi) msg (iso_now E (ticks w1))].
Proof.
  intros Hget Hst msg w1 s'.
  assert (Hmsg : or_default (processed_error p) "Server error" = msg) by reflexivity.
  assert (Hrun : reconcile E batch p s
            = bind (on_server_error E qi p)
                   (fun _ => in_world (mark_last_sync E)) s).
  { unfold reconcile. rewrite Hget, Hst. reflexivity. }
  subst s'. unfold exec. rewrite Hrun.
  assert (Hblock := failure_run E qi (mkError msg) (item_task_id qi)
                      (item_operation qi) msg s).
  unfold on_server_error. rewrite Hmsg.
  rewrite (bind_value _ _ _ _ _ Hblock), mark_last_sync_run. fold w1.
  cbn [fst snd world result db with_db tick set_meta
       tasks sync_queue synced_items failed_items errors success].
  split; [reflexivity|]. split; [reflexivity|]. split; [reflexivity|].
  unfold w1. rewrite handleSyncError_queue.
  split; [apply record_error_ids|].
  split; [|repeat split].
  intros q' Hq' Hid. apply record_error_in in Hq'.
  destruct Hq' as (q0 & _ & _ & [(_ & H1 & H2 & _) | (Hne & ->)]);
    [auto | contradiction].
Qed.

Lemma processBatch_returns batch w resp :
  post E (requests w) (mkRequest (map batch_item batch) (iso_now E (ticks w)))
  = Some resp ->
  processBatch E batch w
  = (inr resp, mkWorld (db w) (S (ticks w)) (uuids w) (S (requests w))).
Proof.
  intros Hpost.
  unfold processBatch, try_catch, bind, new_Date, axios_post, tick.
  cbn [db ticks uuids requests]. rewrite Hpost. reflexivity.
Qed.



(** X16.  When anything in the [try] block of a batch throws, the [catch]
    block runs over the whole batch from the state the block had reached:
    every item of the batch is counted as failed on top of what was already
    counted, the synced count stands, no queue row is put back or removed,
    and [success] becomes false.  An item accepted before the throw is thus
    counted both as synced and as failed. *)
Theorem sync_batch_after_throw (batch : list SyncQueueItem) (s s1 : SyncState)
    (e : Exn) :
  attempt_batch E batch s = (inl e, s1) ->
  let s' := exec (sync_batch E batch) s in
  fst (sync_batch E batch s) = inr tt /\
  success (result s') = false /\
  failed_items (result s') = failed_items (result s1) + Z.of_nat (List.length batch) /\
  synced_items (result s') = synced_items (result s1) /\
  map q_id (sync_queue (db (world s'))) = map q_id (sync_queue (db (world s1))) /\
  (NoDup (map item_id batch) ->
   forall it q', In it batch -> In q' (sync_queue (db (world s'))) ->
     q_id q' = item_id it -> q_last_error q' = Some (message e)).
Proof.
  intros Hthrow s'.
  destruct (fail_loop E e batch s1)
    as (Hloop & Hids & Hfailed & Hsynced & _ & _ & _ & Hhit).
  assert (Hrun : sync_batch E batch s
                 = (inr tt, set_unsuccessful (exec (for_each batch (fail_item E e)) s1))).
  { unfold sync_batch, try_catch. rewrite Hthrow. unfold fail_batch.
    rewrite (bind_value _ _ _ _ _ Hloop). reflexivity. }
  assert (Hs' : s' = set_unsuccessful (exec (for_each batch (fail_item E e)) s1)).
  { subst s'. unfold exec at 1. rewrite Hrun. reflexivity. }
  split; [rewrite Hrun; reflexivity|]. rewrite Hs'.
  cbn [set_unsuccessful world result success synced_items failed_items].
  split; [reflexivity|]. split; [exact Hfailed|].
  split; [exact Hsynced|]. split; [exact Hids|].
  intros Hnd it q' Hit Hq' Hid. exact (proj2 (Hhit Hnd it q' Hit Hq' Hid)).
Qed.

End WithEnv.

Import Scenario MoreScenarios.

(** The server's copy of [t1] is a day newer: [t1] takes the server's title
    and is synced, and [q1] leaves the queue. *)
Lemma sync_conflict_server_wins_witness :
  resolveConflict online (task_of_row task1) (remote "2024-01-03") = inr ServerTask /\
  synced_items (result (exec (reconcile online [item1; item2] newer_conflict) s0)) = 1 /\
  failed_items (result (exec (reconcile online [item1; item2] newer_conflict) s0)) = 0 /\
  (forall r,
     In r (tasks (db (world (exec (reconcile online [item1; item2] newer_conflict) s0))))
     -> row_id r = "t1" ->
     row_title r = "written" /\ row_sync_status r = synced /\
     row_server_id r = Some "srv-1") /\
  ~ In row1 (sync_queue (db (world
       (exec (reconcile online [item1; item2] newer_conflict) s0)))).
Proof.
  assert (Hwin : resolveConflict online (task_of_row task1) (remote "2024-01-03")
                 = inr ServerTask) by (vm_compute; reflexivity).
  split; [exact Hwin|].
  destruct (sync_conflict_server_wins online [item1; item2] newer_conflict item1 s0
              task1 (remote "2024-01-03") eq_refl eq_refl eq_refl eq_refl Hwin)
    as (_ & _ & Hrows & _ & _ & _ & Hq & Hsynced & Hfailed & _).
  split; [exact Hsynced|]. split; [exact Hfailed|]. split.
  - intros r Hr Hid.
    destruct (Hrows r Hr Hid) as (H1 & _ & _ & _ & H5 & _ & _ & _ & H9 & _).
    split; [exact H1 | split; [exact H5 | exact (H9 "srv-1" eq_refl)]].
  - intros Hin. apply Hq in Hin. destruct Hin as [_ Hne]. apply Hne. reflexivity.
Defined.

(** The server rejects [q1] with a reason. *)
Lemma sync_error_verdict_witness :
  byClientId_get [item1; item2] (client_id rejected) = Some item1 /\
  status rejected = VOther /\
  failed_items (result (exec (reconcile online [item1; item2] rejected) s0)) = 1 /\
  (forall q', In q' (sync_queue (db (world
                 (exec (reconcile online [item1; item2] rejected) s0)))) ->
              q_id q' = "q1" ->
              q_retry_count q' = Some 1 /\ q_last_error q' = Some "title too long").
Proof.
  split; [reflexivity|]. split; [reflexivity|].
  destruct (sync_error_verdict online [item1; item2] rejected item1 s0
              eq_refl eq_refl) as (_ & _ & _ & _ & Hrow & Hfailed & _).
  split; [exact Hfailed | exact Hrow].
Defined.


(** [q1] is accepted, then a conflict answer with an undated copy makes the
    block throw: [q1] is counted as synced and as failed. *)
Lemma sync_batch_after_throw_witness :
  fst (attempt_batch (env true confused) [item1; item2] s0) = inl RangeError /\
  synced_items (result (exec (sync_batch (env true confused) [item1; item2]) s0)) = 1 /\
  failed_items (result (exec (sync_batch (env true confused) [item1; item2]) s0)) = 2 /\
  success (result (exec (sync_batch (env true confused) [item1; item2]) s0)) = false.
Proof.
  assert (Hthrow : attempt_batch (env true confused) [item1; item2] s0
                   = (inl RangeError,
                      snd (attempt_batch (env true confused) [item1; item2] s0)))
    by (vm_compute; reflexivity).
  split; [rewrite Hthrow; reflexivity|].
  destruct (sync_batch_after_throw (env true confused) [item1; item2] s0 _ _ Hthrow)
    as (_ & Hsucc & Hfailed & Hsynced & _).
  split; [rewrite Hsynced; vm_compute; reflexivity|].
  split; [rewrite Hfailed; vm_compute; reflexivity | exact Hsucc].
Defined.

End VerdictFacts.

(* ================================================================== *)
(** ** What a cycle keeps: proofs *)
(* ================================================================== *)

Module InvariantFacts.

Import TaskService SyncService Invariants Run Tables.

Lemma preserves_ret {S A} (K : S -> Prop) (a : A) : preserves K (ret a).
Proof. intros s Hs. exact Hs. Qed.

Lemma preserves_throw {S A} (K : S -> Prop) (e : Exn) : preserves K (@throw S A e).
Proof. intros s Hs. exact Hs. Qed.

Lemma preserves_gets {S A} (K : S -> Prop) (f : S -> A) : preserves K (gets f).
Proof. intros s Hs. exact Hs. Qed.

Lemma preserves_modify {S} (K : S -> Prop) (f : S -> S) :
  (forall s, K s -> K (f s)) -> preserves K (modify f).
Proof. intros Hf s Hs. apply Hf, Hs. Qed.

Lemma preserves_bind {S A B} (K : S -> Prop) (c : M S A) (k : A -> M S B) :
  preserves K c -> (forall a, preserves K (k a)) -> preserves K (bind c k).
Proof.
  intros Hc Hk s Hs. unfold bind. specialize (Hc s Hs).
  destruct (c s) as [[e|a] s']; [exact Hc | apply Hk, Hc].
Qed.

Lemma preserves_try_catch {S A} (K : S -> Prop) (c : M S A) (h : Exn -> M S A) :
  preserves K c -> (forall e, preserves K (h e)) -> preserves K (try_catch c h).
Proof.
  intros Hc Hh s Hs. unfold try_catch. specialize (Hc s Hs).
  destruct (c s) as [[e|a] s']; [apply Hh, Hc | exact Hc].
Qed.

Lemma preserves_for_each {S A} (K : S -> Prop) (body : A -> M S unit) xs :
  (forall x, preserves K (body x)) -> preserves K (for_each xs body).
Proof.
  intros Hbody. induction xs as [|x xs IH]; [apply preserves_ret|].
  simpl. apply preserves_bind; [apply Hbody | intros _; exact IH].
Qed.

Lemma preserves_lift_result {S A} (K : S -> Prop) (r : Exn + A) :
  preserves K (@lift_result S A r).
Proof. destruct r; [apply preserves_throw | apply preserves_ret]. Qed.

(** The shape of a cycle, for any property [Kw] of the world that the
    steps of the engine keep when they are applied to the items [ok_item]
    allows. *)
Section Cycle.

Variable E : Env.
Variable Kw : World -> Prop.
Variable ok_item : SyncQueueItem -> Prop.

Hypothesis clock_keeps : forall w, Kw w -> Kw (tick w).
Hypothesis request_keeps :
  forall w, Kw w -> Kw (mkWorld (db w) (ticks w) (uuids w) (S (requests w))).
Hypothesis handleSyncError_keeps :
  forall it err, ok_item it -> preserves Kw (handleSyncError E it err).
Hypothesis updateSyncStatus_keeps :
  forall taskId st data, preserves Kw (updateSyncStatus E taskId st data).
Hypothesis removeQueueItem_keeps : forall qid, preserves Kw (removeQueueItem qid).
Hypothesis requeue_keeps :
  forall taskId data, preserves Kw (addToSyncQueue E taskId update data).
Hypothesis updateLocalOnly_keeps :
  forall taskId u, preserves Kw (updateLocalOnly taskId u).
Hypothesis mark_last_sync_keeps : preserves Kw (mark_last_sync E).

Let K (s : SyncState) : Prop := Kw (world s) /\ counts_ok (result s).

Lemma in_world_keeps {A} (c : M World A) : preserves Kw c -> preserves K (in_world c).
Proof.
  intros Hc s [Hd Hr]. unfold in_world. specialize (Hc (world s) Hd).
  destruct (c (world s)) as [r w']. split; [exact Hc | exact Hr].
Qed.

Lemma processBatch_keeps batch : preserves Kw (processBatch E batch).
Proof.
  apply preserves_try_catch; [|intros e; apply preserves_throw].
  apply preserves_bind; [intros w Hw; apply clock_keeps, Hw|]. intros now w Hw.
  unfold axios_post. destruct (post E (requests w) _); apply request_keeps, Hw.
Qed.

(** The counters: a failure with its record, a resolved conflict with its
    record, an accepted item. *)
Lemma failed_and_recorded_keeps taskId op msg :
  preserves K (modify add_failed ;; push_error E taskId op msg).
Proof.
  intros s [Hd (H1 & H2 & H3 & H4)]. cbn.
  split; [apply clock_keeps, Hd|]. unfold counts_ok. cbn.
  rewrite length_app. cbn [List.length]. lia.
Qed.

Lemma recorded_and_synced_keeps taskId op msg :
  preserves K (push_error E taskId op msg ;; modify add_synced).
Proof.
  intros s [Hd (H1 & H2 & H3 & H4)]. cbn.
  split; [apply clock_keeps, Hd|]. unfold counts_ok. cbn.
  rewrite length_app. cbn [List.length]. lia.
Qed.

Lemma add_synced_keeps : preserves K (modify add_synced).
Proof.
  intros s [Hd (H1 & H2 & H3 & H4)]. cbn. split; [exact Hd|].
  unfold counts_ok. cbn. lia.
Qed.

Lemma set_unsuccessful_keeps : preserves K (modify set_unsuccessful).
Proof. intros s [Hd Hr]. split; [exact Hd | exact Hr]. Qed.

Lemma failure_keeps it err taskId op msg :
  ok_item it ->
  preserves K (in_world (handleSyncError E it err) ;;
               modify add_failed ;; push_error E taskId op msg).
Proof.
  intros Hok.
  apply preserves_bind; [apply in_world_keeps, handleSyncError_keeps, Hok|].
  intros _. apply failed_and_recorded_keeps.
Qed.

Lemma byClientId_get_in batch cid qi :
  byClientId_get batch cid = Some qi -> In qi batch.
Proof.
  unfold byClientId_get. intros H. apply find_some in H.
  apply in_rev. exact (proj1 H).
Qed.

Lemma reconcile_keeps batch p :
  (forall it, In it batch -> ok_item it) -> preserves K (reconcile E batch p).
Proof.
  intros Hbatch. unfold reconcile.
  destruct (byClientId_get batch (client_id p)) as [qi|] eqn:Hget;
    [|apply preserves_ret].
  assert (Hok : ok_item qi) by (apply Hbatch, (byClientId_get_in _ _ _ Hget)).
  destruct (status p).
  - apply preserves_bind; [|intros _; apply in_world_keeps, mark_last_sync_keeps].
    unfold on_success.
    apply preserves_bind; [apply in_world_keeps, updateSyncStatus_keeps|]. intros _.
    apply preserves_bind; [apply in_world_keeps, removeQueueItem_keeps|]. intros _.
    apply add_synced_keeps.
  - apply preserves_bind;
      [apply in_world_keeps; unfold getTask; apply preserves_gets|].
    intros [l|]; [|apply failure_keeps, Hok].
    destruct (resolved_data p) as [serverTask|]; [|apply failure_keeps, Hok].
    apply preserves_bind; [apply preserves_lift_result|].
    intros winner.
    apply preserves_bind; [|intros _; apply in_world_keeps, mark_last_sync_keeps].
    destruct winner.
    + unfold on_local_wins.
      apply preserves_bind; [apply in_world_keeps, handleSyncError_keeps, Hok|].
      intros _.
      apply preserves_bind; [apply in_world_keeps, requeue_keeps|]. intros _.
      apply failed_and_recorded_keeps.
    + unfold on_server_wins.
      apply preserves_bind; [apply in_world_keeps, updateLocalOnly_keeps|]. intros _.
      apply preserves_bind; [apply in_world_keeps, updateSyncStatus_keeps|]. intros _.
      apply preserves_bind; [apply in_world_keeps, removeQueueItem_keeps|]. intros _.
      apply recorded_and_synced_keeps.
  - apply preserves_bind; [|intros _; apply in_world_keeps, mark_last_sync_keeps].
    apply failure_keeps, Hok.
Qed.

Lemma sync_batch_keeps batch :
  (forall it, In it batch -> ok_item it) -> preserves K (sync_batch E batch).
Proof.
  intros Hbatch. apply preserves_try_catch.
  - unfold attempt_batch.
    apply preserves_bind; [apply in_world_keeps, processBatch_keeps|]. intros resp.
    apply preserves_bind;
      [apply preserves_for_each; intros p; apply reconcile_keeps, Hbatch|].
    intros _. revert Hbatch. generalize batch as rest.
    induction rest as [|it rest IH]; intros Hrest; [apply preserves_ret|].
    cbn [for_each]. apply preserves_bind.
    + unfold on_unanswered.
      destruct (echoed resp it);
        [apply preserves_ret | apply failure_keeps, Hrest; now left].
    + intros _. apply IH. intros x Hx. apply Hrest. now right.
  - intros e. unfold fail_batch.
    apply preserves_bind; [|intros _; apply set_unsuccessful_keeps].
    revert Hbatch. generalize batch as rest.
    induction rest as [|it rest IH]; intros Hrest; [apply preserves_ret|].
    cbn [for_each]. apply preserves_bind.
    + apply failure_keeps, Hrest. now left.
    + intros _. apply IH. intros x Hx. apply Hrest. now right.
Qed.

(** A cycle, from a world whose probe succeeds or not. *)
Lemma sync_keeps_from (w : World) :
  Kw w ->
  (forall q, In q (eligible_rows E (db w)) -> ok_item (item_of_row q)) ->
  Kw (snd (sync E w)) /\ counts_ok (fst (sync E w)).
Proof.
  intros Hw Hfetched.
  assert (Hstart : K (mkSyncState
            (mkWorld (db w) (ticks w) (uuids w) (S (requests w))) initial_result)).
  { split; [apply request_keeps, Hw | unfold counts_ok; cbn; lia]. }
  unfold sync, exec, sync_cycle, bind, in_world, checkConnectivity,
    getQueueItemsToProcess, gets.
  cbn [world result fst snd db requests ticks uuids].
  destruct (health E (requests w)); cbn [negb fst snd world result db].
  - destruct (eligible_rows E (db w)) as [|q rows] eqn:Hrows.
    + cbn [map fst snd world result]. exact Hstart.
    + set (batches := chunk (map item_of_row (q :: rows)) (SYNC_BATCH_SIZE E)).
      assert (Hall : forall batch, In batch batches ->
                     forall it, In it batch -> ok_item it).
      { intros batch Hb it Hit.
        pose proof (QueueFacts.chunk_member _ _ _ _ Hb Hit) as Hin.
        apply in_map_iff in Hin. destruct Hin as (q0 & <- & Hq0).
        apply Hfetched, Hq0. }
      cbn [map]. fold (map item_of_row rows).
      change (item_of_row q :: map item_of_row rows)
        with (map item_of_row (q :: rows)). fold batches.
      clearbody batches.
      assert (Hloop : forall s, K s -> K (snd (for_each batches (sync_batch E) s))).
      { induction batches as [|b bs IH]; intros s Hs; [exact Hs|].
        cbn [for_each].
        apply (preserves_bind K (sync_batch E b)
                 (fun _ => for_each bs (sync_batch E))); [| |exact Hs].
        - apply sync_batch_keeps, Hall. now left.
        - intros _ s1 Hs1. apply IH; [|exact Hs1].
          intros batch Hb. apply Hall. now right. }
      destruct (Hloop _ Hstart) as [H1 H2]. split; assumption.
  - destruct Hstart as [H1 H2]. split; [exact H1 | exact H2].
Qed.

End Cycle.

Section WithStart.

Variable E : Env.
Variable d0 : Database.

Lemma update_tasks_keeps f taskId d :
  (forall r, task_key (f r) = task_key r) ->
  db_kept d0 d -> db_kept d0 (update_tasks f taskId d).
Proof.
  intros Hf (Ht & Hm & Hq). split; [|split; assumption].
  rewrite <- Ht. cbn [update_tasks tasks]. rewrite map_map. apply map_ext.
  intros r. destruct (String.eqb (row_id r) taskId); [apply Hf | reflexivity].
Qed.

Lemma record_error_keeps qid n msg now d :
  db_kept d0 d -> db_kept d0 (record_error qid n msg now d).
Proof.
  intros (Ht & Hm & Hq). split; [exact Ht|]. split; [exact Hm|].
  intros q' Hq'. cbn [record_error sync_queue] in Hq'. apply in_map_iff in Hq'.
  destruct Hq' as (q & <- & Hin). specialize (Hq q Hin).
  destruct (String.eqb (q_id q) qid); exact Hq.
Qed.

Lemma delete_queue_keeps qid d : db_kept d0 d -> db_kept d0 (delete_queue qid d).
Proof.
  intros (Ht & Hm & Hq). split; [exact Ht|]. split; [exact Hm|].
  intros q' Hq'. apply Hq. cbn [delete_queue sync_queue] in Hq'.
  apply filter_In in Hq'. exact (proj1 Hq').
Qed.

Lemma insert_queue_keeps q d :
  q_operation q = update -> db_kept d0 d -> db_kept d0 (insert_queue q d).
Proof.
  intros Hop (Ht & Hm & Hq). split; [exact Ht|]. split; [exact Hm|].
  intros q' Hq'. cbn [insert_queue sync_queue] in Hq'. apply in_app_or in Hq'.
  destruct Hq' as [Hq'|[<-|[]]]; [apply Hq, Hq' | right; exact Hop].
Qed.

Lemma set_meta_keeps key value d : db_kept d0 d -> db_kept d0 (set_meta key value d).
Proof.
  intros (Ht & Hm & Hq). split; [exact Ht|]. split; [|exact Hq].
  rewrite <- Hm. cbn [set_meta meta]. rewrite map_map. apply map_ext.
  intros kv. destruct (String.eqb (fst kv) key); reflexivity.
Qed.

Lemma sync_db_kept (w : World) :
  db_kept d0 (db w) ->
  db_kept d0 (db (snd (sync E w))) /\ counts_ok (fst (sync E w)).
Proof.
  intros Hw.
  apply (sync_keeps_from E (fun w => db_kept d0 (db w)) (fun _ => True)).
  - intros w1 H. exact H.
  - intros w1 H. exact H.
  - intros it err _ w1 H1. unfold exec. rewrite handleSyncError_run. cbn [snd].
    destruct (MAX_RETRY E <=? retry_of it + 1); cbn [db].
    + apply update_tasks_keeps; [reflexivity | apply record_error_keeps, H1].
    + apply record_error_keeps, H1.
  - intros taskId st data w1 H1. cbn. apply update_tasks_keeps; [reflexivity|exact H1].
  - intros qid w1 H1. cbn. apply delete_queue_keeps, H1.
  - intros taskId data w1 H1. cbn. apply insert_queue_keeps; [reflexivity|exact H1].
  - intros taskId u w1 H1. unfold updateLocalOnly. destruct (no_fields u); [exact H1|].
    cbn. apply update_tasks_keeps; [reflexivity|exact H1].
  - intros w1 H1. cbn. apply set_meta_keeps, H1.
  - exact Hw.
  - intros q _. exact I.
Qed.

End WithStart.

(** X17.  Whatever the server answers, a call of [sync] leaves the task
    rows in place with their ids and creation times, and the keys of [meta];
    every queue row left carries the id, task, operation, data and creation
    time of a row that was there before, or is an [update], the only kind of
    row a cycle queues;
    and in the result every failed item has its error record: the error list
    is at least as long as the failed count and at most as long as the failed
    and synced counts together. *)
Theorem sync_keeps (E : Env) (w : World) :
  let out := sync E w in
  map (fun r => (row_id r, row_created_at r)) (tasks (db (snd out)))
  = map (fun r => (row_id r, row_created_at r)) (tasks (db w)) /\
  map fst (meta (db (snd out))) = map fst (meta (db w)) /\
  (forall q', In q' (sync_queue (db (snd out))) ->
     (exists q, In q (sync_queue (db w)) /\
                q_id q' = q_id q /\ q_task_id q' = q_task_id q /\
                q_operation q' = q_operation q /\ q_data q' = q_data q /\
                q_created_at q' = q_created_at q)
     \/ q_operation q' = update) /\
  0 <= synced_items (fst out) /\
  0 <= failed_items (fst out) /\
  failed_items (fst out) <= Z.of_nat (List.length (errors (fst out))) /\
  Z.of_nat (List.length (errors (fst out)))
  <= failed_items (fst out) + synced_items (fst out).
Proof.
  intros out.
  assert (Hstart : db_kept (db w) (db w)).
  { split; [reflexivity | split; [reflexivity|]].
    intros q' Hq'. left. exists q'. split; [exact Hq' | reflexivity]. }
  destruct (sync_db_kept E (db w) w Hstart) as [(Ht & Hm & Hq) (H1 & H2 & H3 & H4)].
  subst out.
  split; [exact Ht|]. split; [exact Hm|]. split; [|auto].
  intros q' Hq'. destruct (Hq q' Hq') as [(q & Hin & Hp)|Hop]; [left|right; exact Hop].
  exists q. unfold payload in Hp. injection Hp as Ha Hb Hc Hd He. auto 10.
Qed.

End InvariantFacts.

(* ================================================================== *)
(** ** One penalty per cycle *)
(* ================================================================== *)

Module RetryFacts.

Import TaskService SyncService Invariants Run Tables QueueFacts InvariantFacts.

Lemma same_key_same_row {A B} (f : A -> B) (l : list A) (a b : A) :
  NoDup (map f l) -> In a l -> In b l -> f a = f b -> a = b.
Proof.
  induction l as [|x l IH]; intros Hnd Ha Hb Hf; [destruct Ha|].
  cbn [map] in Hnd. apply NoDup_cons_iff in Hnd. destruct Hnd as [Hx Hnd].
  destruct Ha as [<-|Ha], Hb as [<-|Hb].
  - reflexivity.
  - exfalso. apply Hx. rewrite Hf. apply in_map, Hb.
  - exfalso. apply Hx. rewrite <- Hf. apply in_map, Ha.
  - apply IH; assumption.
Qed.

Section WithStart.

Variable E : Env.
Variable w0 : World.

Hypothesis fresh_uuids :
  forall n, (uuids w0 <= n)%nat ->
            ~ In (uuidv4 E n) (map q_id (sync_queue (db w0))).

Lemma same_queue_keeps w w' :
  sync_queue (db w') = sync_queue (db w) -> uuids w' = uuids w ->
  retries_kept E w0 w -> retries_kept E w0 w'.
Proof.
  intros Hq Hu [H1 H2]. split; [rewrite Hu; exact H1|]. rewrite Hq. exact H2.
Qed.

Lemma handleSyncError_retries it err :
  fetched_from E w0 it -> preserves (retries_kept E w0) (handleSyncError E it err).
Proof.
  intros (q_it & Hel & ->) w [Hu Hrows].
  apply eligible_rows_in in Hel. destruct Hel as [Hin0 Hlt].
  split.
  - unfold exec. rewrite handleSyncError_run. cbn [snd].
    destruct (MAX_RETRY E <=? _); exact Hu.
  - fold (exec (handleSyncError E (item_of_row q_it) err) w).
    rewrite handleSyncError_queue. intros q' Hq' Hid.
    apply record_error_in in Hq'.
    destruct Hq' as (q1 & Hq1 & Hid1 & [(Hhit & Hretry & _) | (_ & ->)]).
    + exists q_it. split; [exact Hin0|]. split.
      * rewrite Hid1, Hhit. reflexivity.
      * right. split; [apply retryable_spec, Hlt | exact Hretry].
    + apply Hrows; assumption.
Qed.

Lemma sync_retries_kept :
  retries_kept E w0 (snd (sync E w0)).
Proof.
  apply (sync_keeps_from E (retries_kept E w0) (fetched_from E w0)).
  - intros w H. exact H.
  - intros w H. exact H.
  - apply handleSyncError_retries.
  - intros taskId st data w H. apply (same_queue_keeps w); [reflexivity .. | exact H].
  - intros qid w [Hu Hrows]. split; [exact Hu|].
    intros q' Hq' Hid. apply Hrows; [|exact Hid].
    cbn in Hq'. apply filter_In in Hq'. exact (proj1 Hq').
  - intros taskId data w [Hu Hrows]. split; [cbn; lia|].
    intros q' Hq' Hid. cbn in Hq'. apply in_app_or in Hq'.
    destruct Hq' as [Hq'|[<-|[]]]; [apply Hrows; assumption|].
    exfalso. cbn in Hid. exact (fresh_uuids _ Hu Hid).
  - intros taskId u w H. unfold updateLocalOnly.
    destruct (no_fields u); [exact H|].
    apply (same_queue_keeps w); [reflexivity .. | exact H].
  - intros w H. apply (same_queue_keeps w); [reflexivity .. | exact H].
  - split; [lia|]. intros q' Hq' _. exists q'. split; [exact Hq'|].
    split; [reflexivity | left; reflexivity].
  - intros q Hq. exists q. split; [exact Hq | reflexivity].
Qed.

End WithStart.

(** X18.  However often an item fails inside one cycle (an error answer
    repeated by the server, a batch that throws after the item was handled),
    its row is charged once: when queue ids are distinct and the uuid
    generator gives none of them back, a row left after [sync] with the id of
    a row [q] from before has [q]'s [retry_count], or that count plus one if
    [q] was below the ceiling; a row at the ceiling keeps its count. *)
Theorem sync_retries_once (E : Env) (w : World) :
  NoDup (map q_id (sync_queue (db w))) ->
  (forall n, (uuids w <= n)%nat ->
             ~ In (uuidv4 E n) (map q_id (sync_queue (db w)))) ->
  forall q q',
    In q (sync_queue (db w)) ->
    In q' (sync_queue (db (snd (sync E w)))) ->
    q_id q' = q_id q ->
    (q_retry_count q' = q_retry_count q \/
     (or_else (q_retry_count q) 0 < MAX_RETRY E /\
      q_retry_count q' = Some (or_else (q_retry_count q) 0 + 1))) /\
    (MAX_RETRY E <= or_else (q_retry_count q) 0 ->
     q_retry_count q' = q_retry_count q).
Proof.
  intros Hnd Hfresh q q' Hq Hq' Hid.
  destruct (sync_retries_kept E w Hfresh) as [_ Hrows].
  destruct (Hrows q' Hq') as (q2 & Hq2 & Hid2 & Hretry).
  { rewrite Hid. apply in_map, Hq. }
  assert (q2 = q) as ->.
  { apply (same_key_same_row q_id (sync_queue (db w))); [assumption ..|congruence]. }
  destruct Hretry as [Hsame | [Hok Hnext]].
  - split; [left; exact Hsame | intros _; exact Hsame].
  - apply retryable_spec in Hok. split; [right; split; assumption | lia].
Qed.

Import Scenario MoreScenarios.

(** The confused server handles [q1] twice and then makes the batch throw;
    [q2] is at two failures and [q3] at the ceiling. *)
Lemma sync_retries_once_witness :
  NoDup (map q_id (sync_queue (db w0))) /\
  (forall q', In q' (sync_queue (db (snd (sync (env true confused) w0)))) ->
     q_id q' = "q2" -> q_retry_count q' = Some 2 \/ q_retry_count q' = Some 3) /\
  (forall q', In q' (sync_queue (db (snd (sync (env true confused) w0)))) ->
     q_id q' = "q3" -> q_retry_count q' = Some 3).
Proof.
  assert (Hnd : NoDup (map q_id (sync_queue (db w0)))).
  { repeat constructor; simpl; intuition discriminate. }
  assert (Hfresh : forall n, (uuids w0 <= n)%nat ->
            ~ In (uuidv4 (env true confused) n) (map q_id (sync_queue (db w0)))).
  { intros n _ Hin. cbn in Hin. destruct Hin as [H|[H|[H|[]]]]; discriminate H. }
  split; [exact Hnd|]. split.
  - intros q' Hq' Hid.
    destruct (sync_retries_once (env true confused) w0 Hnd Hfresh row2 q'
                ltac:(simpl; auto) Hq' Hid) as [[H|[_ H]] _]; [left|right]; exact H.
  - intros q' Hq' Hid.
    destruct (sync_retries_once (env true confused) w0 Hnd Hfresh row3 q'
                ltac:(simpl; auto) Hq' Hid) as [_ H].
    apply H. simpl. lia.
Defined.

End RetryFacts.

(* ================================================================== *)
(** ** A cycle in which everything is accepted *)
(* ================================================================== *)

Module AcceptFacts.

Import TaskService SyncService Invariants Run Tables QueueFacts ReconcileFacts
       VerdictFacts RetryFacts.

Lemma nodup_filter_keys {A B} (f : A -> B) (p : A -> bool) l :
  NoDup (map f l) -> NoDup (map f (filter p l)).
Proof.
  induction l as [|x l IH]; intros Hnd; [constructor|].
  cbn [map] in Hnd. apply NoDup_cons_iff in Hnd. destruct Hnd as [Hx Hnd].
  cbn [filter]. destruct (p x); [|apply IH, Hnd].
  cbn [map]. constructor; [|apply IH, Hnd].
  intros Hin. apply Hx. apply in_map_iff in Hin. destruct Hin as (y & Hy & Hin).
  apply filter_In in Hin. rewrite <- Hy. apply in_map, (proj1 Hin).
Qed.

Lemma nodup_piece {A B} (f : A -> B) (pieces : list (list A)) piece :
  NoDup (map f (List.concat pieces)) -> In piece pieces -> NoDup (map f piece).
Proof.
  induction pieces as [|b pieces IH]; intros Hnd Hin; [destruct Hin|].
  cbn [List.concat] in Hnd. rewrite map_app in Hnd.
  destruct Hin as [<-|Hin].
  - exact (NoDup_app_remove_r _ _ Hnd).
  - apply IH; [exact (NoDup_app_remove_l _ _ Hnd) | exact Hin].
Qed.

(** With distinct ids in the batch, the map from client ids finds each item. *)
Lemma byClientId_get_item batch it :
  NoDup (map item_id batch) -> In it batch ->
  byClientId_get batch (item_id it) = Some it.
Proof.
  intros Hnd Hin. unfold byClientId_get.
  destruct (find _ (rev batch)) as [x|] eqn:Hfind.
  - apply find_some in Hfind. destruct Hfind as [Hx Hid].
    apply String.eqb_eq in Hid. apply in_rev in Hx.
    rewrite (same_key_same_row item_id batch x it Hnd Hx Hin Hid). reflexivity.
  - apply in_rev in Hin. apply (find_none _ _ Hfind) in Hin.
    rewrite String.eqb_refl in Hin. discriminate.
Qed.

Section WithEnv.

Variable E : Env.
Variable queue0 : list QueueRow.

Lemma all_accepted_clock sent s w' :
  db w' = db (world s) ->
  all_accepted queue0 sent s ->
  all_accepted queue0 sent (mkSyncState w' (result s)).
Proof.
  intros Hdb (H1 & H2 & H3 & H4 & H5 & H6). unfold all_accepted.
  cbn [world result]. rewrite Hdb. auto 10.
Qed.

(** One accepted answer. *)
Lemma accepted_step batch sent p it s :
  NoDup (map item_id batch) -> In it batch ->
  client_id p = item_id it -> status p = VSuccess ->
  all_accepted queue0 sent s ->
  reconcile E batch p s = (inr tt, exec (reconcile E batch p) s) /\
  all_accepted queue0 (sent ++ [it]) (exec (reconcile E batch p) s).
Proof.
  intros Hnd Hin Hcid Hst (H1 & H2 & H3 & H4 & H5 & H6).
  assert (Hget : byClientId_get batch (client_id p) = Some it).
  { rewrite Hcid. apply byClientId_get_item; assumption. }
  assert (Hrun : reconcile E batch p s
                 = bind (on_success E it p) (fun _ => in_world (mark_last_sync E)) s).
  { unfold reconcile. rewrite Hget, Hst. reflexivity. }
  unfold exec. rewrite Hrun.
  rewrite (bind_value _ _ _ _ _ (on_success_run E it p s)), mark_last_sync_run.
  cbn [fst snd]. split; [reflexivity|].
  unfold all_accepted.
  cbn [world result db with_db tick set_meta delete_queue
       tasks sync_queue synced_items failed_items errors success].
  split; [exact H1|]. split; [exact H2|]. split; [exact H3|].
  split; [rewrite H4, length_app; cbn [List.length]; lia|].
  split.
  - intros q. rewrite filter_In, H5, map_app, in_app_iff. cbn [map In].
    destruct (String.eqb_spec (q_id q) (item_id it)) as [Heq|Hne]; cbn [negb].
    + split; [intros [_ H]; discriminate|]. intros [_ Hnot]. exfalso.
      apply Hnot. right. left. symmetry. exact Heq.
    + split.
      * intros [[Hq Hnot] _]. split; [exact Hq|].
        intros [H|[H|[]]]; [apply Hnot, H | apply Hne; symmetry; exact H].
      * intros [Hq Hnot]. split; [|reflexivity]. split; [exact Hq|].
        intros H. apply Hnot. left. exact H.
  - intros it' r Hit' Hr Hid. apply update_tasks_in in Hr.
    destruct Hr as (r0 & Hr0 & ->).
    destruct (String.eqb_spec (row_id r0) (item_task_id it)) as [Heq|Hne];
      [reflexivity|].
    apply in_app_or in Hit'. destruct Hit' as [Hit'|[<-|[]]].
    + apply (H6 it' r0 Hit' Hr0 Hid).
    + contradiction.
Qed.

(** The answers to a batch, one after the other. *)
Lemma accepted_loop batch : NoDup (map item_id batch) ->
  forall ps its sent s,
    incl its batch ->
    map client_id ps = map item_id its ->
    Forall (fun p => status p = VSuccess) ps ->
    all_accepted queue0 sent s ->
    for_each ps (reconcile E batch) s
    = (inr tt, exec (for_each ps (reconcile E batch)) s) /\
    all_accepted queue0 (sent ++ its) (exec (for_each ps (reconcile E batch)) s).
Proof.
  intros Hnd ps. induction ps as [|p ps IH]; intros its sent s Hincl Hids Hall Hs.
  - destruct its; [|discriminate]. rewrite app_nil_r. split; [reflexivity | exact Hs].
  - destruct its as [|it its]; [discriminate|].
    cbn [map] in Hids. injection Hids as Hcid Hids.
    inversion Hall as [|? ? Hst Hall']; subst.
    destruct (accepted_step batch sent p it s Hnd (Hincl it (or_introl eq_refl))
                Hcid Hst Hs) as [Hrun Hs1].
    destruct (IH its (sent ++ [it]) _ (fun x Hx => Hincl x (or_intror Hx))
                Hids Hall' Hs1) as [Hrest Hs2].
    assert (Hcons : for_each (p :: ps) (reconcile E batch) s
                    = for_each ps (reconcile E batch) (exec (reconcile E batch p) s)).
    { apply for_each_cons. rewrite Hrun. reflexivity. }
    assert (Hexec : exec (for_each (p :: ps) (reconcile E batch)) s
                    = exec (for_each ps (reconcile E batch))
                           (exec (reconcile E batch p) s)).
    { unfold exec at 1. rewrite Hcons. reflexivity. }
    rewrite Hexec, Hcons.
    rewrite <- app_assoc in Hs2. split; [exact Hrest | exact Hs2].
Qed.

(** Every item was answered, so the second loop of the batch does nothing. *)
Lemma all_echoed_loop resp batch : forall its s,
  incl its batch ->
  map client_id (returned resp) = map item_id batch ->
  for_each its (on_unanswered E resp) s = (inr tt, s).
Proof.
  intros its. induction its as [|it its IH]; intros s Hincl Hids; [reflexivity|].
  cbn [for_each]. unfold bind.
  assert (Hecho : echoed resp it = true).
  { unfold echoed. apply existsb_exists.
    assert (Hin : In (item_id it) (map client_id (returned resp))).
    { rewrite Hids. apply in_map, Hincl. now left. }
    apply in_map_iff in Hin. destruct Hin as (p & Hp & Hin).
    exists p. split; [exact Hin | apply String.eqb_eq, Hp]. }
  unfold on_unanswered at 1. rewrite Hecho. cbn [ret].
  apply IH; [intros x Hx; apply Hincl; now right | exact Hids].
Qed.

Hypothesis accepting : accepts_everything E.

Lemma accepted_batch batch sent s :
  NoDup (map item_id batch) ->
  all_accepted queue0 sent s ->
  sync_batch E batch s = (inr tt, exec (sync_batch E batch) s) /\
  all_accepted queue0 (sent ++ batch) (exec (sync_batch E batch) s).
Proof.
  intros Hnd Hs.
  destruct (accepting (requests (world s))
              (mkRequest (map batch_item batch) (iso_now E (ticks (world s)))))
    as (ps & Hpost & Hids & Hall).
  cbn [items] in Hids. rewrite map_map in Hids. cbn [batch_item bi_id] in Hids.
  set (s1 := mkSyncState
               (mkWorld (db (world s)) (S (ticks (world s))) (uuids (world s))
                        (S (requests (world s))))
               (result s)).
  assert (Hs1 : all_accepted queue0 sent s1)
    by (apply all_accepted_clock; [reflexivity | exact Hs]).
  destruct (accepted_loop batch Hnd ps batch sent s1 (incl_refl _) Hids Hall Hs1)
    as [Hloop Hs2].
  assert (Hrun : sync_batch E batch s
                 = (inr tt, exec (for_each ps (reconcile E batch)) s1)).
  { unfold sync_batch, try_catch, attempt_batch. unfold bind at 1.
    rewrite (in_world_value _ s _ _
               (processBatch_returns E batch (world s) _ Hpost)).
    fold s1. cbn [returned processed_items]. unfold bind at 1. rewrite Hloop.
    rewrite (all_echoed_loop (mkResponse (Some ps)) batch batch _ (incl_refl _) Hids).
    reflexivity. }
  assert (Hexec : exec (sync_batch E batch) s
                  = exec (for_each ps (reconcile E batch)) s1).
  { unfold exec at 1. rewrite Hrun. reflexivity. }
  rewrite Hexec. split; [exact Hrun | exact Hs2].
Qed.

Lemma accepted_batches batches : forall sent s,
  (forall batch, In batch batches -> NoDup (map item_id batch)) ->
  all_accepted queue0 sent s ->
  all_accepted queue0 (sent ++ List.concat batches)
               (exec (for_each batches (sync_batch E)) s).
Proof.
  induction batches as [|b bs IH]; intros sent s Hnd Hs.
  - cbn. rewrite app_nil_r. exact Hs.
  - destruct (accepted_batch b sent s (Hnd b (or_introl eq_refl)) Hs) as [Hrun Hs1].
    assert (Hcons : for_each (b :: bs) (sync_batch E) s
                    = for_each bs (sync_batch E) (exec (sync_batch E b) s)).
    { apply for_each_cons. rewrite Hrun. reflexivity. }
    assert (Hexec : exec (for_each (b :: bs) (sync_batch E)) s
                    = exec (for_each bs (sync_batch E)) (exec (sync_batch E b) s)).
    { unfold exec at 1. rewrite Hcons. reflexivity. }
    rewrite Hexec. cbn [List.concat]. rewrite app_assoc.
    apply IH; [intros batch Hb; apply Hnd; now right | exact Hs1].
Qed.

End WithEnv.

(** X19.  When the server is reachable and accepts everything it is sent,
    and queue ids are distinct, a cycle reports [success] with no failure and
    no error record, counts as synced exactly the rows that were below the
    retry ceiling, leaves in the queue exactly the rows at the ceiling, and
    leaves the task of every row it sent with status [synced]. *)
Theorem sync_all_accepted (E : Env) (w : World) :
  health E (requests w) = true ->
  accepts_everything E ->
  NoDup (map q_id (sync_queue (db w))) ->
  let out := sync E w in
  success (fst out) = true /\
  failed_items (fst out) = 0 /\
  errors (fst out) = [] /\
  synced_items (fst out) = Z.of_nat (List.length (eligible_rows E (db w))) /\
  (forall q, In q (sync_queue (db (snd out))) <->
             In q (sync_queue (db w)) /\ MAX_RETRY E <= or_else (q_retry_count q) 0) /\
  (forall q r, In q (eligible_rows E (db w)) -> In r (tasks (db (snd out))) ->
               row_id r = q_task_id q -> row_sync_status r = synced).
Proof.
  intros Hon Hacc Hnd out.
  set (rows := eligible_rows E (db w)).
  set (fetched := map item_of_row rows).
  set (s1 := mkSyncState (mkWorld (db w) (ticks w) (uuids w) (S (requests w)))
                         initial_result).
  assert (Hkeys : NoDup (map item_id fetched)).
  { unfold fetched. rewrite map_map. cbn [item_of_row item_id].
    apply (Permutation_NoDup
             (l := map q_id (filter (retryable E) (sync_queue (db w))))).
    - apply Permutation_map. symmetry. apply order_by_created_perm.
    - apply nodup_filter_keys, Hnd. }
  assert (Hstart : all_accepted (sync_queue (db w)) [] s1).
  { unfold all_accepted, s1. cbn. repeat split; tauto. }
  assert (Hend : all_accepted (sync_queue (db w)) fetched
                   (mkSyncState (snd out) (fst out))).
  { subst out. unfold sync, exec, sync_cycle, bind, in_world, checkConnectivity,
      getQueueItemsToProcess, gets.
    cbn [world result fst snd db requests ticks uuids]. rewrite Hon.
    cbn [negb fst snd world result db]. fold rows. fold fetched. fold s1.
    destruct fetched as [|it fetched'] eqn:Hfetched.
    - cbn [ret fst snd]. destruct s1; exact Hstart.
    - rewrite <- Hfetched in *.
      pose proof (accepted_batches E (sync_queue (db w)) Hacc
                    (chunk fetched (SYNC_BATCH_SIZE E)) [] s1) as Hloop.
      rewrite chunk_concat in Hloop. cbn [app] in Hloop.
      unfold exec in Hloop.
      destruct (for_each (chunk fetched (SYNC_BATCH_SIZE E)) (sync_batch E) s1)
        as [r s2] eqn:Hrun.
      cbn [fst snd] in *. destruct s2 as [w2 r2]. cbn [world result].
      apply Hloop; [|exact Hstart].
      intros batch Hb. apply (nodup_piece item_id _ batch) in Hb; [exact Hb|].
      rewrite chunk_concat. exact Hkeys. }
  destruct Hend as (H1 & H2 & H3 & H4 & H5 & H6). cbn [world result] in *.
  split; [exact H1|]. split; [exact H2|]. split; [exact H3|].
  split; [rewrite H4; unfold fetched; rewrite length_map; reflexivity|].
  split.
  - intros q. rewrite H5. split; intros [Hq Hrest]; (split; [exact Hq|]).
    + destruct (Z.le_gt_cases (MAX_RETRY E) (or_else (q_retry_count q) 0))
        as [Hle|Hgt]; [exact Hle|].
      exfalso. apply Hrest. unfold fetched. rewrite map_map. cbn [item_of_row item_id].
      apply in_map. apply eligible_rows_in. split; [exact Hq | lia].
    + intros Hin. unfold fetched in Hin. rewrite map_map in Hin.
      cbn [item_of_row item_id] in Hin. apply in_map_iff in Hin.
      destruct Hin as (q2 & Hid & Hq2). apply eligible_rows_in in Hq2.
      destruct Hq2 as [Hq2 Hlt].
      rewrite (same_key_same_row q_id _ q2 q Hnd Hq2 Hq Hid) in Hlt. lia.
  - intros q r Hq Hr Hid.
    apply (H6 (item_of_row q) r); [apply in_map, Hq | exact Hr | exact Hid].
Qed.

Import Scenario.

Lemma accepting_accepts : accepts_everything (env true accepting).
Proof.
  intros n req. exists (map accept (items req)).
  split; [reflexivity|]. split.
  - rewrite map_map. reflexivity.
  - apply Forall_forall. intros p Hp. apply in_map_iff in Hp.
    destruct Hp as (bi & <- & _). reflexivity.
Qed.

(** The scenario queue against a server that accepts everything: [q1] and
    [q2] are synced and only the poisoned [q3] is left. *)
Lemma sync_all_accepted_witness :
  health (env true accepting) (requests w0) = true /\
  NoDup (map q_id (sync_queue (db w0))) /\
  synced_items (fst (sync (env true accepting) w0)) = 2 /\
  failed_items (fst (sync (env true accepting) w0)) = 0 /\
  (forall q, In q (sync_queue (db (snd (sync (env true accepting) w0)))) ->
             q_id q = "q3").
Proof.
  assert (Hnd : NoDup (map q_id (sync_queue (db w0)))).
  { repeat constructor; simpl; intuition discriminate. }
  split; [reflexivity|]. split; [exact Hnd|].
  destruct (sync_all_accepted (env true accepting) w0 eq_refl accepting_accepts Hnd)
    as (_ & Hfailed & _ & Hsynced & Hq & _).
  split; [exact Hsynced|]. split; [exact Hfailed|].
  intros q Hin. apply Hq in Hin. destruct Hin as [[<-|[<-|[<-|[]]]] Hmax];
    [simpl in Hmax; lia | simpl in Hmax; lia | reflexivity].
Defined.

End AcceptFacts.

(* ================================================================== *)
(** ** Listings and the delete route *)
(* ================================================================== *)

Module ListingFacts.

Import TaskService SyncService TaskRepository Routes Run Tables ReconcileFacts TaskFacts.

Lemma find_first_some {A} (p : A -> bool) l a :
  In a l -> p a = true -> exists b, find p l = Some b.
Proof.
  intros Hin Hp. destruct (find p l) as [b|] eqn:Hfind; [eauto|].
  rewrite (find_none _ _ Hfind a Hin) in Hp. discriminate.
Qed.

(** X20.  The listings agree with [getTask]: [getAllTasks] lists no deleted
    task, every task it lists can be fetched by id, and what
    [getTasksNeedingSync] lists is listed by [getAllTasks] too and is never
    [synced]; neither listing changes anything. *)
Theorem listings_agree (w : World) :
  exists all pendings,
    getAllTasks w = (inr all, w) /\
    getTasksNeedingSync w = (inr pendings, w) /\
    (forall t, In t all ->
       is_deleted t = false /\
       exists t', fst (getTask (id t) w) = inr (Some t') /\ id t' = id t) /\
    (forall t, In t pendings ->
       In t all /\ (sync_status t = Some pending \/ sync_status t = Some error)).
Proof.
  eexists _, _. split; [reflexivity|]. split; [reflexivity|]. split.
  - intros t Ht. apply in_map_iff in Ht. destruct Ht as (r & <- & Hr).
    apply filter_In in Hr. destruct Hr as [Hr Hlive].
    apply Z.eqb_eq in Hlive. split; [cbn; unfold truthy; rewrite Hlive; reflexivity|].
    destruct (find_first_some
                (fun x => String.eqb (row_id x) (row_id r) && (row_is_deleted x =? 0))
                (tasks (db w)) r Hr) as [r' Hfind].
    { rewrite String.eqb_refl, Hlive. reflexivity. }
    exists (task_of_row r'). unfold getTask, gets, select_live. cbn [fst task_of_row id].
    rewrite Hfind. split; [reflexivity|].
    apply find_some in Hfind. destruct Hfind as [_ Hp].
    apply andb_prop in Hp. apply String.eqb_eq. exact (proj1 Hp).
  - intros t Ht. apply in_map_iff in Ht. destruct Ht as (r & <- & Hr).
    apply filter_In in Hr. destruct Hr as [Hr Hneed]. unfold needs_sync in Hneed.
    split.
    + apply in_map, filter_In. split; [exact Hr|].
      destruct (row_sync_status r); [exact Hneed | discriminate | exact Hneed].
    + cbn. destruct (row_sync_status r); [auto | discriminate | auto].
Qed.

(** X21.  [DELETE /:id] answers 404 and touches nothing when the id has no
    live row; when it has one it answers 200, although [deleteTask] returns
    false, and afterwards the id has no live row any more and, with the sync
    service set, the queue has one more row: a [delete] for that id. *)
Theorem delete_route_replies (store : Store) (taskId : string) (w : World) :
  ((forall r, In r (tasks (db w)) -> row_id r = taskId -> row_is_deleted r <> 0) ->
   delete_route store taskId w = (inr NotFound, w)) /\
  (forall row, select_live taskId (db w) = Some row ->
     let w' := snd (delete_route store taskId w) in
     fst (delete_route store taskId w) = inr Deleted /\
     fst (deleteTask store taskId w) = inr false /\
     fst (getTask taskId w') = inr None /\
     (syncService store = true ->
      exists q, sync_queue (db w') = sync_queue (db w) ++ [q] /\
                q_task_id q = taskId /\ q_operation q = delete)).
Proof.
  split.
  - intros Hnone. unfold delete_route, try_catch. unfold bind at 1.
    rewrite (getTask_soft_deleted _ _ Hnone). reflexivity.
  - intros row Hrow w'.
    assert (Hrun : delete_route store taskId w
                   = (inr Deleted, snd (deleteTask store taskId w))).
    { unfold delete_route, try_catch. unfold bind at 1.
      rewrite (getTask_live _ _ _ Hrow). unfold bind at 1.
      rewrite deleteTask_run. reflexivity. }
    subst w'. rewrite Hrun. cbn [fst snd].
    split; [reflexivity|]. split; [rewrite deleteTask_run; reflexivity|].
    rewrite deleteTask_run. cbn [snd]. rewrite enqueue_run. cbn [snd].
    split.
    + match goal with
      | |- fst (getTask taskId ?W) = _ =>
          assert (Hdel : forall r, In r (tasks (db W)) -> row_id r = taskId ->
                                   row_is_deleted r <> 0)
      end.
      { intros r Hr Hid.
        assert (Hr' : In r (tasks (update_tasks
                   (set_deleted (timestamp_text store
                                   (sql_now (sync_env store) (ticks w))))
                   taskId (db w)))).
        { destruct (syncService store); exact Hr. }
        apply update_tasks_in in Hr'. destruct Hr' as (r0 & _ & ->).
        destruct (String.eqb (row_id r0) taskId) eqn:Heq.
        * cbn. discriminate.
        * apply String.eqb_neq in Heq. contradiction. }
      rewrite (getTask_soft_deleted _ _ Hdel). reflexivity.
    + intros ->. eexists. split; [reflexivity|]. split; reflexivity.
Qed.

Import Scenario MoreScenarios.

(** [t2] is already soft-deleted, [t1] is live. *)
Lemma delete_route_replies_witness :
  fst (delete_route store0 "t2" w0) = inr NotFound /\
  select_live "t1" (db w0) = Some task1 /\
  fst (delete_route store0 "t1" w0) = inr Deleted /\
  fst (getTask "t1" (snd (delete_route store0 "t1" w0))) = inr None.
Proof.
  split.
  - rewrite (proj1 (delete_route_replies store0 "t2" w0)); [reflexivity|].
    intros r Hr Hid. rewrite (unique_t2 r Hr Hid). discriminate.
  - split; [reflexivity|].
    destruct (proj2 (delete_route_replies store0 "t1" w0) task1 eq_refl)
      as (H1 & _ & H3 & _).
    split; [exact H1 | exact H3].
Defined.

End ListingFacts.

(* ================================================================== *)
(** ** The scenario, once more *)
(* ================================================================== *)

Module MoreWitnesses.

Import TaskService SyncService TaskRepository Routes Scenario MoreScenarios.

(** Deleting the live [t1] works and still returns false. *)
Lemma deleteTask_returns_false_witness :
  fst (getTask "t1" w0) = inr (Some (task_of_row task1)) /\
  fst (deleteTask store0 "t1" w0) = inr false /\
  (forall r, In r (tasks (db (exec (deleteTask store0 "t1") w0))) ->
             row_id r = "t1" -> row_is_deleted r = 1).
Proof.
  split; [reflexivity|].
  destruct (TaskFacts.deleteTask_returns_false store0 "t1" w0)
    as (Hret & _ & Hrows & _).
  split; [exact Hret|]. intros r Hr Hid. exact (proj1 (Hrows r Hr Hid)).
Defined.

(** Three rows in the queue, two of them pending. *)
Lemma get_status_counts_witness :
  List.length (sync_queue (db w0)) = 3%nat /\
  exists reply, fst (get_status online w0) = inr reply /\
                pending_sync_count reply = 2 /\ sync_queue_size reply = 2.
Proof.
  split; [reflexivity|].
  destruct (RouteFacts.get_status_counts online w0)
    as (reply & Hrun & Hcount & Hsize & _).
  exists reply. split; [rewrite Hrun; reflexivity|].
  assert (Hp : pending_sync_count reply = 2) by (apply (Hcount [item1; item2]); reflexivity).
  split; [exact Hp | rewrite Hsize; exact Hp].
Defined.

(** The confused server cannot make the cycle lose a task. *)
Lemma sync_keeps_witness :
  map (fun r => (row_id r, row_created_at r))
      (tasks (db (snd (sync (env true confused) w0))))
  = [("t1", "2024-01-01"); ("t2", "2024-01-01")] /\
  failed_items (fst (sync (env true confused) w0))
  <= Z.of_nat (List.length (errors (fst (sync (env true confused) w0)))).
Proof.
  destruct (InvariantFacts.sync_keeps (env true confused) w0)
    as (Htasks & _ & _ & _ & _ & Hle & _).
  split; [exact Htasks | exact Hle].
Defined.

(** Only [t1] is listed. *)
Lemma listings_agree_witness :
  exists all, fst (getAllTasks w0) = inr all /\
              List.length all = 1%nat /\
              (forall t, In t all -> is_deleted t = false).
Proof.
  destruct (ListingFacts.listings_agree w0) as (all & pendings & Hall & _ & Hlive & _).
  exists all. split; [rewrite Hall; reflexivity|]. split.
  - injection Hall as <-. reflexivity.
  - intros t Ht. exact (proj1 (Hlive t Ht)).
Defined.

End MoreWitnesses.
